(** * Harmony STL codec: ASCII and binary readers/writers and the autodetect
      dispatcher, embedded from the C++ sources and verified.

    Source files embedded here:
      - Harmony/STL/Mesh.h      (Vec3, Triangle, Mesh, face_normal)
      - Harmony/STL/Binary.h    (load_le, store_le, read_exact, write_exact)
      - src/STL/Binary.cpp      (Binary::parse, Binary::serialize)
      - src/STL/Ascii.cpp       (parse, serialize and their local helpers)
      - src/STL/Parse.cpp       (the autodetecting parse)

    Modelling conventions:
      - a [char] / [std::byte] is an [ascii]; byte streams are [list ascii],
        text ([std::string], [std::string_view]) is [string];
      - a [float] is its 32-bit pattern (a [Z] in [0, 2^32)); arithmetic
        decodes the pattern to [spec_float] (IEEE 754 binary32, round to
        nearest even), operates, and encodes the result back;
      - [std::expected<T, std::string>] is the type [expected T];
      - an in-memory seekable [std::istream] is a buffer with a read position
        and the [eofbit] / [failbit] flags;
      - the two standard-library conversions the ASCII codec calls,
        [std::from_chars] and [std::vformat], are parameters of the parser
        and of the serializer; [std::isspace] and [std::tolower] are those of
        the "C" locale;
      - every floating-point operation is rounded on its own (no fused
        multiply-add, no excess precision);
      - small allocations (strings, [push_back] within the reserved
        capacity) succeed; the one allocation whose size the input chooses,
        [mesh.tris.reserve(triCount)] in [Binary::parse], may throw, and
        [Binary.parse_throwing] is the function with that exit. *)

From Stdlib Require Import ZArith Bool Arith Lia Ascii String List.
From Stdlib Require Import SpecFloat DecimalString.
Import ListNotations.

Local Open Scope Z_scope.

(* ------------------------------------------------------------------ *)
(** ** 32-bit floats *)

Module F32.

(** A [float] object is represented by its bit pattern. *)
Definition float := Z.

Definition wf (b : float) : Prop := 0 <= b < 2 ^ 32.

Definition prec : Z := 24.
Definition emax : Z := 128.

Definition sign_bit (b : float) : bool := Z.testbit b 31.
Definition biased_exp (b : float) : Z := (b / 2 ^ 23) mod 2 ^ 8.
Definition fraction (b : float) : Z := b mod 2 ^ 23.

(** Decoding of a bit pattern (IEEE 754 binary32 interchange format). *)
Definition to_SF (b : float) : spec_float :=
  let s := sign_bit b in
  let e := biased_exp b in
  let m := fraction b in
  if e =? 0 then
    match m with
    | Zpos p => S754_finite s p (-149)
    | _ => S754_zero s
    end
  else if e =? 255 then
    (if m =? 0 then S754_infinity s else S754_nan)
  else
    match m + 2 ^ 23 with
    | Zpos p => S754_finite s p (e - 150)
    | _ => S754_nan
    end.

Definition sign_field (s : bool) : Z := if s then 2 ^ 31 else 0.

(** Encoding of an arithmetic result.  [spec_float] has a single NaN; it is
    encoded as the quiet NaN [0x7FC00000].  (Hosts differ in the pattern an
    invalid operation produces, [0xFFC00000] on x86-64, and keep the payload
    of a NaN operand; nothing below depends on the pattern of a NaN.) *)
Definition of_SF (x : spec_float) : float :=
  match x with
  | S754_zero s => sign_field s
  | S754_infinity s => sign_field s + 255 * 2 ^ 23
  | S754_nan => 255 * 2 ^ 23 + 2 ^ 22
  | S754_finite s m e =>
      if Zpos m <? 2 ^ 23 then sign_field s + Zpos m
      else sign_field s + (e + 150) * 2 ^ 23 + (Zpos m - 2 ^ 23)
  end.

Definition lift2 (op : spec_float -> spec_float -> spec_float)
           (a b : float) : float :=
  of_SF (op (to_SF a) (to_SF b)).

Definition add : float -> float -> float := lift2 (SFadd prec emax).
Definition sub : float -> float -> float := lift2 (SFsub prec emax).
Definition mul : float -> float -> float := lift2 (SFmul prec emax).
Definition div : float -> float -> float := lift2 (SFdiv prec emax).
Definition sqrt (a : float) : float := of_SF (SFsqrt prec emax (to_SF a)).

(** [std::abs(float)] clears the sign bit. *)
Definition abs (a : float) : float := Z.land a (2 ^ 31 - 1).

(** [a < b] and [a > b]; both are false when an operand is NaN. *)
Definition ltb (a b : float) : bool := SFltb (to_SF a) (to_SF b).
Definition gtb (a b : float) : bool := SFltb (to_SF b) (to_SF a).

(** [x == 0.0f]: positive or negative zero. *)
Definition is_zero (a : float) : bool :=
  match to_SF a with
  | S754_zero _ => true
  | _ => false
  end.

(** [float{}] and [0.0f]. *)
Definition zero : float := 0.
Definition one : float := 0x3f800000.

(** The literal [1e-20f]: the binary32 number nearest to 10^-20. *)
Definition eps_1e_20 : float := 0x1e3ce508.

End F32.

Definition float : Type := F32.float.

(* ------------------------------------------------------------------ *)
(** ** Mesh.h *)

Record Vec3 := mkVec3 { x : float; y : float; z : float }.

(** [Triangle::v] is a [std::array<Vec3,3>]; its elements [v[0]], [v[1]],
    [v[2]] are the fields [v0], [v1], [v2]. *)
Record Triangle := mkTriangle {
  normal : Vec3;
  v0 : Vec3;
  v1 : Vec3;
  v2 : Vec3
}.

Record Mesh := mkMesh {
  name : string;
  tris : list Triangle
}.

(** [Vec3{}] and [Triangle{}]: value-initialised, all components zero. *)
Definition Vec3_zero : Vec3 := mkVec3 F32.zero F32.zero F32.zero.
Definition Triangle_zero : Triangle :=
  mkTriangle Vec3_zero Vec3_zero Vec3_zero Vec3_zero.

(** The lambdas [sub] and [cross] of [face_normal]. *)
Definition vsub (a b : Vec3) : Vec3 :=
  mkVec3 (F32.sub (x a) (x b)) (F32.sub (y a) (y b)) (F32.sub (z a) (z b)).

Definition cross (a b : Vec3) : Vec3 :=
  mkVec3 (F32.sub (F32.mul (y a) (z b)) (F32.mul (z a) (y b)))
         (F32.sub (F32.mul (z a) (x b)) (F32.mul (x a) (z b)))
         (F32.sub (F32.mul (x a) (y b)) (F32.mul (y a) (x b))).

(** [cross(sub(t.v[1], t.v[0]), sub(t.v[2], t.v[0]))]. *)
Definition edge_cross (t : Triangle) : Vec3 :=
  cross (vsub (v1 t) (v0 t)) (vsub (v2 t) (v0 t)).

(** [std::sqrt(n.x*n.x + n.y*n.y + n.z*n.z)]. *)
Definition vlen (n : Vec3) : float :=
  F32.sqrt (F32.add (F32.add (F32.mul (x n) (x n)) (F32.mul (y n) (y n)))
                    (F32.mul (z n) (z n))).

Definition face_normal (t : Triangle) : Vec3 :=
  let n := edge_cross t in
  let len := vlen n in
  if F32.gtb len F32.zero
  then mkVec3 (F32.div (x n) len) (F32.div (y n) len) (F32.div (z n) len)
  else n.

(** The test [std::abs(n.x) + std::abs(n.y) + std::abs(n.z) < 1e-20f], written
    inline in the two parsers and the two serializers. *)
Definition abs_sum (n : Vec3) : float :=
  F32.add (F32.add (F32.abs (x n)) (F32.abs (y n))) (F32.abs (z n)).

Definition normal_missing (n : Vec3) : bool :=
  F32.ltb (abs_sum n) F32.eps_1e_20.

(** [if (missing) t.normal = face_normal(t);] *)
Definition fill_normal (t : Triangle) : Triangle :=
  if normal_missing (normal t)
  then mkTriangle (face_normal t) (v0 t) (v1 t) (v2 t)
  else t.

(** [std::expected<T, std::string>]. *)
Inductive expected (T : Type) : Type :=
| value : T -> expected T
| unexpected : string -> expected T.
Arguments value {T} _.
Arguments unexpected {T} _.

(** How a call ends: it returns a result, or an exception leaves it. *)
Inductive may_throw (T : Type) : Type :=
| Returns : T -> may_throw T
| Throws : may_throw T.
Arguments Returns {T} _.
Arguments Throws {T}.

Definition has_value {T} (r : expected T) : bool :=
  match r with value _ => true | unexpected _ => false end.

(* ------------------------------------------------------------------ *)
(** ** Streams *)

Definition byte : Type := ascii.

Local Open Scope nat_scope.

(** An in-memory, seekable [std::istream]: the buffer, the get position and
    the state flags ([badbit] never arises on a memory buffer). *)
Record istream := mkIstream {
  buf : list byte;
  gpos : nat;
  eofbit : bool;
  failbit : bool
}.

(** A freshly opened stream over [data]. *)
Definition open_istream (data : list byte) : istream :=
  mkIstream data 0 false false.

Definition good (s : istream) : bool := negb (eofbit s) && negb (failbit s).

(** [!is], i.e. [is.fail()]. *)
Definition fail (s : istream) : bool := failbit s.

Definition remaining (s : istream) : list byte := skipn (gpos s) (buf s).

Definition setstate_fail (s : istream) : istream :=
  mkIstream (buf s) (gpos s) (eofbit s) true.

(** [is.read(p, n)]: returns the extracted characters (their number is
    [gcount()]).  On a stream that is not good the sentry sets [failbit] and
    nothing is extracted; a short read sets [eofbit | failbit]. *)
Definition read (n : nat) (s : istream) : list byte * istream :=
  if good s then
    let avail := remaining s in
    if n <=? length avail
    then (firstn n avail, mkIstream (buf s) (gpos s + n) false false)
    else (avail, mkIstream (buf s) (length (buf s)) true true)
  else ([], setstate_fail s).

(** [is.tellg()]: [None] stands for [pos_type(-1)]. *)
Definition tellg (s : istream) : option nat * istream :=
  if good s then (Some (gpos s), s) else (None, setstate_fail s).

(** [is.clear()]. *)
Definition clear (s : istream) : istream :=
  mkIstream (buf s) (gpos s) false false.

(** [is.seekg(pos)]: clears [eofbit]; does nothing on a failed stream; fails
    when the position is outside the buffer. *)
Definition seekg (pos : nat) (s : istream) : istream :=
  if failbit s then mkIstream (buf s) (gpos s) false true
  else if pos <=? length (buf s) then mkIstream (buf s) pos false false
  else mkIstream (buf s) (gpos s) false true.

(** [oss << is.rdbuf()]: drains the buffer from the get position; the state
    flags of [is] are not touched. *)
Definition drain (s : istream) : list byte * istream :=
  (remaining s, mkIstream (buf s) (length (buf s)) (eofbit s) (failbit s)).

(** An in-memory [std::ostream]: the bytes written so far and [failbit]. *)
Record ostream := mkOstream {
  written : list byte;
  os_fail : bool
}.

Definition open_ostream : ostream := mkOstream [] false.

(** [os.write(p, n)] over a device that takes every byte offered (a string
    buffer): appends unless the stream has failed.  [Device.write] below is
    the same call over a device that may take fewer. *)
Definition write (bs : list byte) (os : ostream) : ostream :=
  if os_fail os then os else mkOstream (written os ++ bs) false.

(** [static_cast<bool>(os)]. *)
Definition os_ok (os : ostream) : bool := negb (os_fail os).

(* ------------------------------------------------------------------ *)
(** ** Binary.h and Binary.cpp *)

Module Binary.

Local Open Scope Z_scope.

(** Little-endian byte strings of a fixed width. *)
Fixpoint le_bytes (n : nat) (v : Z) : list byte :=
  match n with
  | O => []
  | S n' => ascii_of_N (Z.to_N (v mod 256)) :: le_bytes n' (v / 256)
  end.

Fixpoint le_value (bs : list byte) : Z :=
  match bs with
  | [] => 0
  | b :: r => Z.of_N (N_of_ascii b) + 256 * le_value r
  end.

Section Host.

(** [std::endian::native == std::endian::big]. *)
Variable native_big : bool.

(** The object representation of a [w]-byte scalar on the host, and the
    value an object representation denotes (what [memcpy] moves). *)
Definition object_bytes (w : nat) (v : Z) : list byte :=
  if native_big then rev (le_bytes w v) else le_bytes w v.

Definition object_value (bs : list byte) : Z :=
  if native_big then le_value (rev bs) else le_value bs.

(** [load_le<T>]: copy the bytes into [v]; reverse them on a big-endian
    host. *)
Definition load_le (bytes : list byte) : Z :=
  let v := bytes in
  let v := if native_big then rev v else v in
  object_value v.

(** [store_le<T>] with [sizeof(T) = w]. *)
Definition store_le (w : nat) (val : Z) : list byte :=
  let v := object_bytes w val in
  let v := if native_big then rev v else v in
  v.

(** [read_exact]: the loop body runs once, since a [read] that does not
    set [failbit] has extracted every requested byte.  [None] is the
    [false] result. *)
Definition read_exact (n : nat) (s : istream) : option (list byte) * istream :=
  match n with
  | O => (Some [], s)
  | _ =>
      let '(got, s') := read n s in
      if fail s' then (None, s') else (Some got, s')
  end.

(** [write_exact]. *)
Definition write_exact (bs : list byte) (os : ostream) : bool * ostream :=
  let os' := write bs os in (os_ok os', os').

(** The lambda [f] of [parse]: the float at index [idx] of a record. *)
Definition f (rec : list byte) (idx : nat) : float :=
  load_le (firstn 4 (skipn (idx * 4) rec)).

(** Decoding of one 50-byte record into [Triangle t]. *)
Definition decode_record (rec : list byte) : Triangle :=
  mkTriangle (mkVec3 (f rec 0) (f rec 1) (f rec 2))
             (mkVec3 (f rec 3) (f rec 4) (f rec 5))
             (mkVec3 (f rec 6) (f rec 7) (f rec 8))
             (mkVec3 (f rec 9) (f rec 10) (f rec 11)).

(** The characters removed from the end of the header:
    [std::string("\0 \t\r\n", 5)]. *)
Definition header_pad (c : ascii) : bool :=
  let n := nat_of_ascii c in
  ((n =? 0) || (n =? 32) || (n =? 9) || (n =? 13) || (n =? 10))%nat.

(** [name.substr(0, name.find_last_not_of(pad) + 1)], or the empty string
    when every character is padding. *)
Fixpoint strip_trailing (l : list ascii) : list ascii :=
  match l with
  | [] => []
  | c :: r =>
      match strip_trailing r with
      | [] => if header_pad c then [] else [c]
      | r' => c :: r'
      end
  end.

Definition name_of_header (header : list byte) : string :=
  string_of_list_ascii (strip_trailing header).

(** The record loop [for (i = 0; i < triCount; ++i)]; [todo] is
    [triCount - i] and [acc] is [mesh.tris]. *)
Fixpoint read_records (todo : nat) (compute_missing_normals : bool)
         (acc : list Triangle) (s : istream)
  : expected (list Triangle) * istream :=
  match todo with
  | O => (value acc, s)
  | S todo' =>
      match read_exact 50 s with
      | (None, s') =>
          (unexpected "Binary STL: unexpected EOF in triangle data"%string, s')
      | (Some rec, s') =>
          let t := decode_record rec in
          let t := if compute_missing_normals then fill_normal t else t in
          read_records todo' compute_missing_normals (acc ++ [t]) s'
      end
  end.

Definition parse_st (s : istream) (compute_missing_normals : bool)
  : expected Mesh * istream :=
  match read_exact 80 s with
  | (None, s1) =>
      (unexpected "Binary STL: failed to read 80-byte header"%string, s1)
  | (Some header, s1) =>
      match read_exact 4 s1 with
      | (None, s2) =>
          (unexpected "Binary STL: failed to read triangle count"%string, s2)
      | (Some countBuf, s2) =>
          let triCount := load_le countBuf in
          let mesh_name := name_of_header header in
          match read_records (Z.to_nat triCount) compute_missing_normals [] s2 with
          | (unexpected e, s3) => (unexpected e, s3)
          | (value ts, s3) => (value (mkMesh mesh_name ts), s3)
          end
      end
  end.

(** [Binary::parse(std::istream&, bool)] where [mesh.tris.reserve(triCount)]
    returns: it then only sets a capacity. *)
Definition parse (s : istream) (compute_missing_normals : bool) : expected Mesh :=
  fst (parse_st s compute_missing_normals).

(** [mesh.tris.reserve(triCount)] on the empty vector: for a count of zero
    it does nothing; otherwise it obtains storage for [triCount] triangles
    or throws ([std::bad_alloc], or [std::length_error] beyond
    [max_size()]).  Whether the host grants a request is a parameter. *)
Variable reserve_ok : Z -> bool.

Definition reserve_throws (triCount : Z) : bool :=
  (0 <? triCount) && negb (reserve_ok triCount).

(** [Binary::parse(std::istream&, bool)] with the exception of [reserve],
    which is called once the count has been read and before the first
    record is. *)
Definition parse_throwing_st (s : istream) (compute_missing_normals : bool)
  : may_throw (expected Mesh) * istream :=
  match read_exact 80 s with
  | (None, s1) =>
      (Returns (unexpected "Binary STL: failed to read 80-byte header"%string),
       s1)
  | (Some header, s1) =>
      match read_exact 4 s1 with
      | (None, s2) =>
          (Returns
             (unexpected "Binary STL: failed to read triangle count"%string),
           s2)
      | (Some countBuf, s2) =>
          let triCount := load_le countBuf in
          let mesh_name := name_of_header header in
          if reserve_throws triCount then (Throws, s2)
          else
            match read_records (Z.to_nat triCount) compute_missing_normals
                               [] s2 with
            | (unexpected e, s3) => (Returns (unexpected e), s3)
            | (value ts, s3) => (Returns (value (mkMesh mesh_name ts)), s3)
            end
      end
  end.

Definition parse_throwing (s : istream) (compute_missing_normals : bool)
  : may_throw (expected Mesh) :=
  fst (parse_throwing_st s compute_missing_normals).

(** [hdr]: the header text truncated or zero-padded to 80 bytes. *)
Definition header_bytes (header : string) : list byte :=
  let h := firstn 80 (list_ascii_of_string header) in
  h ++ repeat Ascii.zero (80 - length h).

Definition vals (t : Triangle) : list float :=
  [ x (normal t); y (normal t); z (normal t);
    x (v0 t); y (v0 t); z (v0 t);
    x (v1 t); y (v1 t); z (v1 t);
    x (v2 t); y (v2 t); z (v2 t) ].

(** The 50 bytes written for one triangle. *)
Definition encode_record (tIn : Triangle) (attribute_byte_count : Z) : list byte :=
  let t := fill_normal tIn in
  flat_map (store_le 4) (vals t) ++ store_le 2 attribute_byte_count.

Fixpoint write_records (ts : list Triangle) (attribute_byte_count : Z)
         (os : ostream) : bool * ostream :=
  match ts with
  | [] => (os_ok os, os)
  | t :: ts' =>
      match write_exact (encode_record t attribute_byte_count) os with
      | (false, os') => (false, os')
      | (true, os') => write_records ts' attribute_byte_count os'
      end
  end.

(** [Binary::serialize]; the count is
    [static_cast<std::uint32_t>(mesh.tris.size())]. *)
Definition serialize (os : ostream) (mesh : Mesh) (header : string)
           (attribute_byte_count : Z) : bool * ostream :=
  match write_exact (header_bytes header) os with
  | (false, os1) => (false, os1)
  | (true, os1) =>
      let cnt := store_le 4 (Z.of_nat (length (tris mesh)) mod 2 ^ 32) in
      match write_exact cnt os1 with
      | (false, os2) => (false, os2)
      | (true, os2) => write_records (tris mesh) attribute_byte_count os2
      end
  end.

End Host.

End Binary.

(* ------------------------------------------------------------------ *)
(** ** Ascii.cpp *)

Module ASCII.

Local Open Scope string_scope.
Local Open Scope nat_scope.

Definition nl_char : ascii := ascii_of_nat 10.
Definition nl : string := String nl_char EmptyString.

(** [std::isspace] and [std::tolower] in the "C" locale. *)
Definition isspace (c : ascii) : bool :=
  let n := nat_of_ascii c in
  (n =? 32) || ((9 <=? n) && (n <=? 13)).

Definition tolower (c : ascii) : ascii :=
  let n := nat_of_ascii c in
  if (65 <=? n) && (n <=? 90) then ascii_of_nat (n + 32) else c.

Definition empty (sv : string) : bool :=
  match sv with EmptyString => true | _ => false end.

(** [while (!sv.empty() && issp(sv.front())) sv.remove_prefix(1);] *)
Fixpoint skip_front (sv : string) : string :=
  match sv with
  | EmptyString => EmptyString
  | String c r => if isspace c then skip_front r else sv
  end.

(** [while (!sv.empty() && issp(sv.back())) sv.remove_suffix(1);] *)
Fixpoint skip_back (sv : string) : string :=
  match sv with
  | EmptyString => EmptyString
  | String c r =>
      match skip_back r with
      | EmptyString => if isspace c then EmptyString else String c EmptyString
      | r' => String c r'
      end
  end.

Definition trim_sv (sv : string) : string := skip_back (skip_front sv).

(** [sv.substr(0, j)] and [sv.remove_prefix(j)] for the first [j] with
    [isspace(sv[j])]. *)
Fixpoint token_front (sv : string) : string :=
  match sv with
  | EmptyString => EmptyString
  | String c r => if isspace c then EmptyString else String c (token_front r)
  end.

Fixpoint token_rest (sv : string) : string :=
  match sv with
  | EmptyString => EmptyString
  | String c r => if isspace c then sv else token_rest r
  end.

(** The [while (!sv.empty())] loop of [tokenize_ws]; every iteration removes
    at least one character, so [String.length sv] iterations suffice. *)
Fixpoint tokenize_loop (fuel : nat) (sv : string) : list string :=
  match fuel with
  | O => []
  | S fuel' =>
      if empty sv then []
      else
        let sv1 := skip_front sv in
        if empty sv1 then []
        else token_front sv1 :: tokenize_loop fuel' (token_rest sv1)
  end.

Definition tokenize_ws (sv : string) : list string :=
  let sv := trim_sv sv in
  tokenize_loop (String.length sv) sv.

(** [eq_ci(a, b_lc)]: [a] in any case against the lowercase [b_lc]. *)
Fixpoint eq_ci (a b_lc : string) : bool :=
  match a, b_lc with
  | EmptyString, EmptyString => true
  | String c a', String d b' =>
      if Ascii.eqb (tolower c) d then eq_ci a' b' else false
  | _, _ => false
  end.

(** [join_name(toks, start)]. *)
Fixpoint join_from (toks : list string) : string :=
  match toks with
  | [] => ""
  | [t] => t
  | t :: r => t ++ " " ++ join_from r
  end.

Definition join_name (toks : list string) (start : nat) : string :=
  join_from (skipn start toks).

(** [toks[i]]. *)
Definition tok (toks : list string) (i : nat) : string := nth i toks "".

(** [std::format("{}", n)] for a [size_t]. *)
Definition fmt_nat (n : nat) : string := NilEmpty.string_of_uint (Nat.to_uint n).

(** [std::format("Line {}: {}", line_no, msg)]. *)
Definition at_line (line_no : nat) (msg : string) : string :=
  "Line " ++ fmt_nat line_no ++ ": " ++ msg.

(** [text | std::views::split('\n')]: an empty text has no line; otherwise
    the pieces between the newlines, a final empty piece included. *)
Fixpoint split_nl (s : string) : list string :=
  match s with
  | EmptyString => [EmptyString]
  | String c r =>
      if Ascii.eqb c nl_char then EmptyString :: split_nl r
      else
        match split_nl r with
        | h :: t => String c h :: t
        | [] => [String c EmptyString]
        end
  end.

Definition lines (text : string) : list string :=
  if empty text then [] else split_nl text.

Inductive Phase := idle | have_facet | in_loop | have_v1 | have_v2.

Definition Phase_eqb (a b : Phase) : bool :=
  match a, b with
  | idle, idle | have_facet, have_facet | in_loop, in_loop
  | have_v1, have_v1 | have_v2, have_v2 => true
  | _, _ => false
  end.

(** The local variables of [parse]. *)
Record pstate := mkState {
  mesh : Mesh;
  in_solid : bool;
  current : Triangle;
  phase : Phase;
  vertex_count : nat;
  line_no : nat
}.

Definition init : pstate :=
  mkState (mkMesh "" []) false Triangle_zero idle 0 0.

(** How one iteration of the line loop ends: [continue], [break], or
    [return std::unexpected(...)]. *)
Inductive outcome :=
| Continue : pstate -> outcome
| Break : pstate -> outcome
| Return : string -> outcome.

Definition set_normal (t : Triangle) (n : Vec3) : Triangle :=
  mkTriangle n (v0 t) (v1 t) (v2 t).
Definition set_v0 (t : Triangle) (p : Vec3) : Triangle :=
  mkTriangle (normal t) p (v1 t) (v2 t).
Definition set_v1 (t : Triangle) (p : Vec3) : Triangle :=
  mkTriangle (normal t) (v0 t) p (v2 t).
Definition set_v2 (t : Triangle) (p : Vec3) : Triangle :=
  mkTriangle (normal t) (v0 t) (v1 t) p.

Section Parser.

(** [std::from_chars(f, l, v)] for [float]: [Some v] when the call
    reports no error and consumes the whole of [[f, l)] (the test
    [ec == std::errc{} && p == l]), [None] otherwise. *)
Variable from_chars : string -> option float.

(** The lambda [readf]. *)
Definition readf (sv : string) : expected float :=
  match from_chars sv with
  | Some v => value v
  | None => unexpected ("Failed to parse number: '" ++ sv ++ "'")
  end.

(** The lambda [three_floats_from]. *)
Definition three_floats_from (toks : list string) (start : nat)
  : expected (float * float * float) :=
  if length toks <? start + 3 then unexpected "Expected three floats"
  else
    match readf (tok toks (start + 0)) with
    | unexpected e => unexpected e
    | value fx =>
        match readf (tok toks (start + 1)) with
        | unexpected e => unexpected e
        | value fy =>
            match readf (tok toks (start + 2)) with
            | unexpected e => unexpected e
            | value fz => value (fx, fy, fz)
            end
        end
    end.

Definition name_of (toks : list string) : string :=
  if 1 <? length toks then join_name toks 1 else "".

(** The body of the [for] loop over the lines, after [++line_no]. *)
Definition dispatch (compute_missing_normals : bool) (line_trim : string)
           (toks : list string) (st : pstate) : outcome :=
  let n := line_no st in
  if negb (in_solid st) then
    if negb (eq_ci (tok toks 0) "solid")
    then Return (at_line n "expected 'solid'")
    else Continue (mkState (mkMesh (name_of toks) (tris (mesh st))) true
                           (current st) (phase st) (vertex_count st) n)
  else if eq_ci (tok toks 0) "endsolid" then
    Break (mkState (mesh st) false (current st) (phase st) (vertex_count st) n)
  else if eq_ci (tok toks 0) "facet" then
    if (length toks <? 2) || negb (eq_ci (tok toks 1) "normal")
    then Return (at_line n "'facet' where not expected")
    else if negb (Phase_eqb (phase st) idle)
    then Return (at_line n "'facet' where not expected")
    else
      match three_floats_from toks 2 with
      | unexpected e => Return (at_line n e)
      | value (a, b, c) =>
          Continue (mkState (mesh st) true
                            (set_normal (current st) (mkVec3 a b c))
                            have_facet (vertex_count st) n)
      end
  else if eq_ci (tok toks 0) "outer" then
    if (length toks <? 2) || negb (eq_ci (tok toks 1) "loop")
    then Return (at_line n ("unexpected content: '" ++ line_trim ++ "'"))
    else if negb (Phase_eqb (phase st) have_facet)
    then Return (at_line n "'outer loop' without facet")
    else Continue (mkState (mesh st) true (current st) in_loop 0 n)
  else if eq_ci (tok toks 0) "vertex" then
    if negb (Phase_eqb (phase st) in_loop)
       && negb (Phase_eqb (phase st) have_v1)
       && negb (Phase_eqb (phase st) have_v2)
    then Return (at_line n "'vertex' outside of loop")
    else
      match three_floats_from toks 1 with
      | unexpected e => Return (at_line n e)
      | value (a, b, c) =>
          match vertex_count st with
          | 0 => Continue (mkState (mesh st) true
                             (set_v0 (current st) (mkVec3 a b c)) have_v1 1 n)
          | 1 => Continue (mkState (mesh st) true
                             (set_v1 (current st) (mkVec3 a b c)) have_v2 2 n)
          | 2 => Continue (mkState (mesh st) true
                             (set_v2 (current st) (mkVec3 a b c)) (phase st) 3 n)
          | _ => Return (at_line n "too many vertices in loop")
          end
      end
  else if eq_ci (tok toks 0) "endloop" then
    if negb (vertex_count st =? 3)
    then Return (at_line n "'endloop' before three vertices")
    else Continue st
  else if eq_ci (tok toks 0) "endfacet" then
    if negb (vertex_count st =? 3) || negb (Phase_eqb (phase st) have_v2)
    then Return (at_line n "'endfacet' without complete triangle")
    else
      let t := if compute_missing_normals
               then fill_normal (current st) else current st in
      Continue (mkState (mkMesh (name (mesh st)) (tris (mesh st) ++ [t])) true
                        Triangle_zero idle (vertex_count st) n)
  else if eq_ci (tok toks 0) "solid" then
    Continue (mkState (mkMesh (name_of toks) (tris (mesh st))) true
                      (current st) (phase st) (vertex_count st) n)
  else Return (at_line n ("unexpected content: '" ++ line_trim ++ "'")).

Definition next_line (st : pstate) : pstate :=
  mkState (mesh st) (in_solid st) (current st) (phase st) (vertex_count st)
          (S (line_no st)).

(** One iteration of the line loop. *)
Definition body (compute_missing_normals : bool) (line : string)
           (st : pstate) : outcome :=
  let st := next_line st in
  let line_trim := trim_sv line in
  if empty line_trim then Continue st
  else
    let toks := tokenize_ws line_trim in
    match toks with
    | [] => Continue st
    | _ => dispatch compute_missing_normals line_trim toks st
    end.

(** The line loop; [Continue] is the loop running off the last line. *)
Fixpoint run (compute_missing_normals : bool) (ls : list string)
         (st : pstate) : outcome :=
  match ls with
  | [] => Continue st
  | l :: ls' =>
      match body compute_missing_normals l st with
      | Continue st' => run compute_missing_normals ls' st'
      | o => o
      end
  end.

(** The code after the loop. *)
Definition finish (st : pstate) : expected Mesh :=
  if in_solid st && negb (Phase_eqb (phase st) idle)
  then unexpected "Unexpected EOF: unterminated facet/loop"
  else value (mesh st).

(** [parse(std::string_view, bool)]. *)
Definition parse (text : string) (compute_missing_normals : bool)
  : expected Mesh :=
  match run compute_missing_normals (lines text) init with
  | Continue st => finish st
  | Break st => finish st
  | Return e => unexpected e
  end.

(** [parse(std::istream&, bool)]. *)
Definition parse_stream (s : istream) (compute_missing_normals : bool)
  : expected Mesh :=
  let '(bytes, s') := drain s in
  if negb (good s') && negb (eofbit s')
  then unexpected "I/O error while reading stream"
  else parse (string_of_list_ascii bytes) compute_missing_normals.

End Parser.

Section Serializer.

(** [std::vformat("{:.<p>f}", std::make_format_args(v))]: [v] in fixed
    notation with [p] fractional digits. *)
Variable vformat_fixed : Z -> float -> string.

Variable float_precision : Z.

(** The lambda [fmt3]. *)
Definition fmt3 (v : Vec3) : string :=
  vformat_fixed float_precision (x v) ++ " " ++
  vformat_fixed float_precision (y v) ++ " " ++
  vformat_fixed float_precision (z v).

(** The body of the loop over [mesh.tris]: the text appended to [out]. *)
Definition emit_facet (out : string) (t : Triangle) : string :=
  let n := normal t in
  let n := if normal_missing n then face_normal t else n in
  let out := out ++ "  facet normal " in
  let out := out ++ fmt3 n in
  let out := out ++ nl in
  let out := out ++ "    outer loop" ++ nl in
  let out := out ++ ("      vertex " ++ fmt3 (v0 t) ++ nl) in
  let out := out ++ ("      vertex " ++ fmt3 (v1 t) ++ nl) in
  let out := out ++ ("      vertex " ++ fmt3 (v2 t) ++ nl) in
  let out := out ++ "    endloop" ++ nl in
  let out := out ++ "  endfacet" ++ nl in
  out.

(** [serialize(const Mesh&, int)]. *)
Definition serialize (m : Mesh) : string :=
  let out := "" in
  let out := out ++ "solid " in
  let out := out ++ name m in
  let out := out ++ nl in
  let out := fold_left emit_facet (tris m) out in
  let out := out ++ "endsolid " in
  let out := out ++ name m in
  let out := out ++ nl in
  out.

End Serializer.

End ASCII.

(* ------------------------------------------------------------------ *)
(** ** Parse.cpp *)

Module Auto.

Local Open Scope nat_scope.

Inductive route := ToAscii | ToBinary.

Section Dispatcher.

Variable native_big : bool.
Variable from_chars : string -> option float.

(** The probe: remember the position, read six bytes, clear the state and
    seek back; then compare with ["solid "]. *)
Definition sniff (s : istream) : route * istream :=
  let '(p, s) := tellg s in
  let pos := match p with Some n => n | None => 0 end in
  let '(got, s) := read 6 s in
  let probe := got ++ repeat Ascii.zero (6 - length got) in
  let readOk := length got in
  let s := clear s in
  let s := seekg pos s in
  if (readOk =? 6) && String.eqb (string_of_list_ascii probe) "solid "
  then (ToAscii, s)
  else (ToBinary, s).

(** [Harmony::STL::parse(std::istream&, bool)]; [ASCII::parse] is the stream
    parser of Ascii.cpp declared in Ascii.h. *)
Definition parse (s : istream) (compute_missing_normals : bool)
  : expected Mesh :=
  match sniff s with
  | (ToAscii, s') => ASCII.parse_stream from_chars s' compute_missing_normals
  | (ToBinary, s') => Binary.parse native_big s' compute_missing_normals
  end.

End Dispatcher.

End Auto.

(* ------------------------------------------------------------------ *)
(** ** Reference instances of the two library functions

    The parser and the serializer above are parametric in [std::from_chars]
    and [std::vformat].  The instances below cover plain fixed-notation
    literals and are used to run the scenarios of the test suite. *)

Module Ref.

Local Open Scope Z_scope.

Definition is_digit (c : ascii) : bool :=
  let n := nat_of_ascii c in ((48 <=? n) && (n <=? 57))%nat.

Definition digit_value (c : ascii) : Z := Z.of_nat (nat_of_ascii c) - 48.

(** Reads a run of decimal digits: the number read after [acc], how many
    digits it has, and what follows. *)
Fixpoint span_digits (s : string) (acc : Z) (cnt : nat) : Z * nat * string :=
  match s with
  | String c r =>
      if is_digit c then span_digits r (10 * acc + digit_value c) (S cnt)
      else (acc, cnt, s)
  | EmptyString => (acc, cnt, s)
  end.

(** [-]digits[.digits], correctly rounded to binary32; [None] when the
    token has another shape or the value is out of range (it overflows, or
    it is not zero and rounds to zero). *)
Definition from_chars_fixed (sv : string) : option float :=
  let '(neg, body) :=
    match sv with
    | String "-"%char r => (true, r)
    | _ => (false, sv)
    end in
  let '(ip, ni, rest) := span_digits body 0 0 in
  let '(m, nf, rest') :=
    match rest with
    | String "."%char r => span_digits r ip 0
    | _ => (ip, 0%nat, rest)
    end in
  if ((ni + nf =? 0)%nat || negb (ASCII.empty rest'))%bool then None
  else
    let r :=
      match m, 10 ^ Z.of_nat nf with
      | Zpos pm, Zpos pd =>
          SFdiv F32.prec F32.emax (S754_finite neg pm 0) (S754_finite false pd 0)
      | _, _ => S754_zero neg
      end in
    match r with
    | S754_infinity _ | S754_nan => None
    | S754_zero _ => if m =? 0 then Some (F32.of_SF r) else None
    | S754_finite _ _ _ => Some (F32.of_SF r)
    end.

Definition sign_text (s : bool) : string := if s then "-" else "".

Definition decimal (n : Z) : string :=
  NilZero.string_of_uint (N.to_uint (Z.to_N n)).

Fixpoint zeros (n : nat) : string :=
  match n with
  | O => EmptyString
  | S n' => String "0"%char (zeros n')
  end.

(** [n] written with at least [p + 1] digits and a point before the last
    [p] of them (no point when [p = 0]). *)
Definition fixed_text (p : nat) (n : Z) : string :=
  let ds := decimal n in
  let ds := (zeros (S p - String.length ds) ++ ds)%string in
  let k := (String.length ds - p)%nat in
  match p with
  | O => ds
  | _ => (substring 0 k ds ++ "." ++ substring k p ds)%string
  end.

(** Round-half-even of [num / den]. *)
Definition round_div (num den : Z) : Z :=
  let q := num / den in
  let r := num mod den in
  match 2 * r ?= den with
  | Lt => q
  | Gt => q + 1
  | Eq => if Z.even q then q else q + 1
  end.

(** The format [{:.<p>f}] applied to a [float]. *)
Definition vformat_fixed (precision : Z) (v : float) : string :=
  let p := Z.to_nat precision in
  match F32.to_SF v with
  | S754_zero s => (sign_text s ++ fixed_text p 0)%string
  | S754_infinity s => (sign_text s ++ "inf")%string
  | S754_nan => (sign_text (F32.sign_bit v) ++ "nan")%string
  | S754_finite s m e =>
      let scaled :=
        if 0 <=? e then Zpos m * 2 ^ e * 10 ^ precision
        else round_div (Zpos m * 10 ^ precision) (2 ^ (- e)) in
      (sign_text s ++ fixed_text p scaled)%string
  end.

End Ref.

(* ------------------------------------------------------------------ *)
(** ** Specification vocabulary *)

Definition wf_vec (v : Vec3) : Prop :=
  F32.wf (x v) /\ F32.wf (y v) /\ F32.wf (z v).

(** Every component of the triangle is a 32-bit pattern. *)
Definition wf_triangle (t : Triangle) : Prop :=
  wf_vec (normal t) /\ wf_vec (v0 t) /\ wf_vec (v1 t) /\ wf_vec (v2 t).

(** The pattern denotes a finite number (neither infinity nor NaN). *)
Definition finite (a : float) : bool :=
  match F32.to_SF a with
  | S754_zero _ | S754_finite _ _ _ => true
  | _ => false
  end.

Definition finite_vec (v : Vec3) : bool :=
  finite (x v) && finite (y v) && finite (z v).

Definition finite_triangle (t : Triangle) : bool :=
  finite_vec (normal t) && finite_vec (v0 t) && finite_vec (v1 t) && finite_vec (v2 t).

(** All three components compare equal to zero. *)
Definition zero_vec (v : Vec3) : bool :=
  F32.is_zero (x v) && F32.is_zero (y v) && F32.is_zero (z v).

(** The completion policy in the words of the specification, every
    operation rounded to binary32 on its own. *)


(** The cross product [(v1 - v0) x (v2 - v0)] of the edges at [v0]. *)
Definition cross_product (t : Triangle) : Vec3 :=
  let ax := F32.sub (x (v1 t)) (x (v0 t)) in
  let ay := F32.sub (y (v1 t)) (y (v0 t)) in
  let az := F32.sub (z (v1 t)) (z (v0 t)) in
  let bx := F32.sub (x (v2 t)) (x (v0 t)) in
  let by_ := F32.sub (y (v2 t)) (y (v0 t)) in
  let bz := F32.sub (z (v2 t)) (z (v0 t)) in
  mkVec3 (F32.sub (F32.mul ay bz) (F32.mul az by_))
         (F32.sub (F32.mul az bx) (F32.mul ax bz))
         (F32.sub (F32.mul ax by_) (F32.mul ay bx)).

(** The length [sqrt (x^2 + y^2 + z^2)] of a vector. *)
Definition euclidean_length (n : Vec3) : float :=
  F32.sqrt (F32.add (F32.add (F32.mul (x n) (x n)) (F32.mul (y n) (y n)))
                    (F32.mul (z n) (z n))).



(** What the binary record loop stores for one 50-byte record. *)
Definition stored (native_big compute_missing_normals : bool)
           (rec : list byte) : Triangle :=
  let t := Binary.decode_record native_big rec in
  if compute_missing_normals then fill_normal t else t.

(** The tokens the line loop sees on a line. *)
Definition tokens (line : string) : list string :=
  ASCII.tokenize_ws (ASCII.trim_sv line).

(** The line has a first token, and it is the keyword [k] in some case. *)
Definition keyword (k line : string) : bool :=
  match tokens line with
  | t :: _ => ASCII.eq_ci t k
  | [] => false
  end.

Fixpoint all_space (s : string) : bool :=
  match s with
  | EmptyString => true
  | String c r => ASCII.isspace c && all_space r
  end.

(** [a] in lowercase (the helper [lower_sv] of Ascii.cpp). *)
Fixpoint lower_sv (a : string) : string :=
  match a with
  | EmptyString => EmptyString
  | String c r => String (ASCII.tolower c) (lower_sv r)
  end.

(** [hay] contains [needle] as a substring (case-sensitive). *)
Fixpoint contains (needle hay : string) : bool :=
  String.prefix needle hay
  || match hay with
     | EmptyString => false
     | String _ r => contains needle r
     end.

Section LineShapes.

Variable from_chars : string -> option float.

(** [facet normal nx ny nz], the three numbers reading as [n]. *)
Definition facet_line (l : string) (n : Vec3) : Prop :=
  keyword "facet" l = true
  /\ ASCII.eq_ci (ASCII.tok (tokens l) 1) "normal" = true
  /\ ASCII.three_floats_from from_chars (tokens l) 2 = value (x n, y n, z n).

(** [outer loop]. *)
Definition outer_line (l : string) : Prop :=
  keyword "outer" l = true
  /\ ASCII.eq_ci (ASCII.tok (tokens l) 1) "loop" = true.

(** [vertex px py pz], the three numbers reading as [p]. *)
Definition vertex_line (l : string) (p : Vec3) : Prop :=
  keyword "vertex" l = true
  /\ ASCII.three_floats_from from_chars (tokens l) 1 = value (x p, y p, z p).

End LineShapes.

(** What [endfacet] appends for the facet accumulated in [raw]. *)
Definition completed (compute_missing_normals : bool) (raw : Triangle) : Triangle :=
  if compute_missing_normals then fill_normal raw else raw.

Definition is_nil {A} (l : list A) : bool :=
  match l with [] => true | _ => false end.

(** The first line that is not blank is a [solid] line. *)
Definition begins_with_solid (ls : list string) : Prop :=
  exists pre l post,
    ls = pre ++ l :: post
    /\ Forall (fun b => tokens b = []) pre
    /\ keyword "solid" l = true.

(** The normal the serializers write for [t]. *)
Definition printed_normal (t : Triangle) : Vec3 :=
  normal (fill_normal t).

(** The text of one facet block, with the normal [n] on its first line. *)
Definition facet_text (vformat_fixed : Z -> float -> string) (p : Z)
           (n : Vec3) (t : Triangle) : string :=
  ("  facet normal " ++ ASCII.fmt3 vformat_fixed p n ++ ASCII.nl
   ++ "    outer loop" ++ ASCII.nl
   ++ "      vertex " ++ ASCII.fmt3 vformat_fixed p (v0 t) ++ ASCII.nl
   ++ "      vertex " ++ ASCII.fmt3 vformat_fixed p (v1 t) ++ ASCII.nl
   ++ "      vertex " ++ ASCII.fmt3 vformat_fixed p (v2 t) ++ ASCII.nl
   ++ "    endloop" ++ ASCII.nl
   ++ "  endfacet" ++ ASCII.nl)%string.

(** The concatenation of a list of texts. *)
Fixpoint join_text (ls : list string) : string :=
  match ls with
  | [] => EmptyString
  | l :: r => (l ++ join_text r)%string
  end.

(** What the writers promise about the normal [n] written for [t]. *)
Definition written_normal_ok (t : Triangle) (n : Vec3) : Prop :=
  (normal_missing (normal t) = true ->
     n = face_normal t /\ (zero_vec (edge_cross t) = true -> n = edge_cross t))
  /\ (normal_missing (normal t) = false -> n = normal t).

(** Every line followed by a newline. *)
Fixpoint text_of (ls : list string) : string :=
  match ls with
  | [] => EmptyString
  | l :: r => (l ++ ASCII.nl ++ text_of r)%string
  end.

(* ------------------------------------------------------------------ *)
(** ** Inputs of the scenarios *)

(** The unit triangle of the test suite with normal [(0, 0, 1)]. *)
Definition unit_triangle : Triangle :=
  (mkTriangle (mkVec3 0 0 F32.one)
              (mkVec3 0 0 0) (mkVec3 F32.one 0 0) (mkVec3 0 F32.one 0))%Z.

(** The same triangle with the finite, non-zero normal [(1e-30, 0, 0)]. *)
Definition tiny_normal_triangle : Triangle :=
  (mkTriangle (mkVec3 0x0da24260 0 0)
              (mkVec3 0 0 0) (mkVec3 F32.one 0 0) (mkVec3 0 F32.one 0))%Z.

(** The scenario of the test suite: a header of 80 ['H'], count 2, and a
    single record. *)
Definition truncated_input : list byte :=
  repeat "H"%char 80 ++ Binary.le_bytes 4 2%Z ++ repeat Ascii.zero 50.

(** A header of 80 ['H'] and the count [0xFFFFFFFF], with no record. *)
Definition huge_count_input : list byte :=
  repeat "H"%char 80 ++ Binary.le_bytes 4 (2 ^ 32 - 1)%Z.

(** [endloop] after two vertices (test "endloop before three vertices"). *)
Definition two_vertex_text : string :=
  text_of [ "solid bad"; "  facet normal 0 0 1"; "    outer loop";
            "      vertex 0 0 0"; "      vertex 1 0 0";
            "    endloop"; "  endfacet"; "endsolid bad" ]%string.

(** A complete facet followed by a second [endloop] outside any facet. *)
Definition stray_endloop_text : string :=
  text_of [ "solid s"; "facet normal 0 0 1"; "outer loop";
            "vertex 0 0 0"; "vertex 1 0 0"; "vertex 0 1 0";
            "endloop"; "endfacet";
            "endloop";
            "endsolid s" ]%string.

(** A second facet whose [endloop] comes before its [outer loop]. *)
Definition early_endloop_text : string :=
  text_of [ "solid s"; "facet normal 0 0 1"; "outer loop";
            "vertex 0 0 0"; "vertex 1 0 0"; "vertex 0 1 0";
            "endloop"; "endfacet";
            "facet normal 0 0 1"; "endloop"; "outer loop";
            "vertex 0 0 0"; "vertex 1 0 0"; "vertex 0 1 0";
            "endfacet";
            "endsolid s" ]%string.

(** A solid whose only facet is left open at the end of the input. *)
Definition unterminated_text : string :=
  text_of [ "solid s"; "facet normal 0 0 1" ]%string.

(** A solid with a line that is no keyword (test "garbage line", without
    its [endsolid]). *)
Definition garbage_text : string :=
  text_of [ "solid s"; "  nonsense here" ]%string.

(** The facet of the test suite with the normal stated as [0 0 0]. *)
Definition zero_normal_text : string :=
  text_of [ "solid n/a"; "  facet normal 0 0 0"; "    outer loop";
            "      vertex 0 0 0"; "      vertex 1 0 0"; "      vertex 0 1 0";
            "    endloop"; "  endfacet"; "endsolid" ]%string.





(** The unit triangle with a zero normal, and a normal too small to show
    with six fractional digits ([1e-10]). *)
Definition zero_normal_triangle : Triangle :=
  (mkTriangle (mkVec3 0 0 0)
              (mkVec3 0 0 0) (mkVec3 F32.one 0 0) (mkVec3 0 F32.one 0))%Z.

Definition small_normal_triangle : Triangle :=
  (mkTriangle (mkVec3 0x2edbe6ff 0 0)
              (mkVec3 0 0 0) (mkVec3 F32.one 0 0) (mkVec3 0 F32.one 0))%Z.

(** A binary stream with one record: the unit triangle, normal [(0,0,0)]. *)
Definition zero_normal_record : list byte :=
  flat_map (Binary.le_bytes 4) (Binary.vals zero_normal_triangle)
  ++ Binary.le_bytes 2 0%Z.

Definition zero_normal_stream : istream :=
  open_istream (repeat "H"%char 80 ++ Binary.le_bytes 4 1%Z ++ zero_normal_record).

(** The text of the test "Parse minimal valid ASCII STL". *)
Definition sample_cube_text : string :=
  text_of [ "solid sample_cube";
            "  facet normal 0 0 1"; "    outer loop";
            "      vertex 0 0 0"; "      vertex 1 0 0"; "      vertex 0 1 0";
            "    endloop"; "  endfacet";
            "  facet normal 0 0 1"; "    outer loop";
            "      vertex 1 0 0"; "      vertex 1 1 0"; "      vertex 0 1 0";
            "    endloop"; "  endfacet";
            "endsolid sample_cube" ]%string.

(** The text of the test "Case-insensitive keywords and flexible
    whitespace". *)
Definition mixed_case_text : string :=
  text_of [ "SoLiD  name   ";
            "  Facet   Normal   0   0   1"; "    OUTER     LOOP";
            "      VERTEX 0 0 0"; "      vertex 1 0 0"; "      vertex 0 1 0";
            "    ENDLOOP"; "  ENdFaCeT"; "EnDsOlId name" ]%string.


(* ------------------------------------------------------------------ *)
(** ** The binary writer over a device that may fall short *)

Module Device.

Section Device.

(** [accept w bs]: how many of the bytes [bs] the device behind the stream
    takes when it has taken [w] so far (a full disk, a closed pipe, a
    bounded buffer take fewer than they are offered). *)
Variable accept : list byte -> list byte -> nat.

(** [os.write(p, n)]: nothing on a failed stream; otherwise the bytes are
    inserted in order until all are or the device takes no more, and in the
    second case [badbit] is set. *)
Definition write (bs : list byte) (os : ostream) : ostream :=
  if os_fail os then os
  else
    let k := Nat.min (accept (written os) bs) (length bs) in
    mkOstream (written os ++ firstn k bs) (k <? length bs).

(** [write_exact]. *)
Definition write_exact (bs : list byte) (os : ostream) : bool * ostream :=
  let os' := write bs os in (os_ok os', os').

(** [std::endian::native == std::endian::big]. *)
Variable native_big : bool.

(** The loop over [mesh.tris] of [Binary::serialize]. *)
Fixpoint write_records (ts : list Triangle) (attribute_byte_count : Z)
         (os : ostream) : bool * ostream :=
  match ts with
  | [] => (os_ok os, os)
  | t :: ts' =>
      match write_exact
              (Binary.encode_record native_big t attribute_byte_count) os with
      | (false, os') => (false, os')
      | (true, os') => write_records ts' attribute_byte_count os'
      end
  end.

(** [Binary::serialize]. *)
Definition serialize (os : ostream) (mesh : Mesh) (header : string)
           (attribute_byte_count : Z) : bool * ostream :=
  match write_exact (Binary.header_bytes header) os with
  | (false, os1) => (false, os1)
  | (true, os1) =>
      let cnt :=
        Binary.store_le native_big 4
          (Z.of_nat (length (tris mesh)) mod 2 ^ 32)%Z in
      match write_exact cnt os1 with
      | (false, os2) => (false, os2)
      | (true, os2) => write_records (tris mesh) attribute_byte_count os2
      end
  end.

End Device.

End Device.

(** The bytes of a binary file: header, count, records. *)
Definition file_image (native_big : bool) (m : Mesh) (header : string)
           (attribute_byte_count : Z) : list byte :=
  Binary.header_bytes header
  ++ Binary.store_le native_big 4 (Z.of_nat (length (tris m)) mod 2 ^ 32)%Z
  ++ concat (map (fun t => Binary.encode_record native_big t
                             attribute_byte_count) (tris m)).

(** A device that takes every byte, and one with room for [room] bytes. *)
Definition takes_all (w bs : list byte) : nat := length bs.
Definition has_room (room : nat) (w bs : list byte) : nat := room - length w.

(* ------------------------------------------------------------------ *)
(** ** Further vocabulary *)

(** The header text does not end in one of the characters the reader strips
    (NUL, space, tab, CR, LF). *)
Definition ends_clean (l : list ascii) : bool :=
  match rev l with
  | [] => true
  | c :: _ => negb (Binary.header_pad c)
  end.

(** How the vertex counter and the phase of the ASCII parser go together in
    every state the line loop can reach. *)
Definition coherent (st : ASCII.pstate) : Prop :=
  match ASCII.phase st with
  | ASCII.idle =>
      (ASCII.vertex_count st = 0 \/ ASCII.vertex_count st = 3)
      /\ ASCII.current st = Triangle_zero
  | ASCII.have_facet =>
      ASCII.vertex_count st = 0 \/ ASCII.vertex_count st = 3
  | ASCII.in_loop => ASCII.vertex_count st = 0
  | ASCII.have_v1 => ASCII.vertex_count st = 1
  | ASCII.have_v2 => ASCII.vertex_count st = 2 \/ ASCII.vertex_count st = 3
  end
  /\ (ASCII.in_solid st = false ->
      ASCII.phase st = ASCII.idle /\ ASCII.vertex_count st = 0
      /\ ASCII.mesh st = mkMesh "" []).


(** No character of [s] is one [std::isspace] accepts. *)
Fixpoint no_space (s : string) : bool :=
  match s with
  | EmptyString => true
  | String c r => negb (ASCII.isspace c) && no_space r
  end.

(** A non-empty text without whitespace. *)
Definition word (s : string) : bool := negb (ASCII.empty s) && no_space s.

(** No character of [s] is the line separator. *)
Fixpoint no_newline (s : string) : bool :=
  match s with
  | EmptyString => true
  | String c r => negb (Ascii.eqb c ASCII.nl_char) && no_newline r
  end.

(** The keywords the line loop of the ASCII reader dispatches on. *)
Definition keywords : list string :=
  [ "solid"; "endsolid"; "facet"; "outer"; "vertex"; "endloop"; "endfacet" ]%string.

(** The line has a first token, and it is none of the keywords. *)
Definition unknown_line (l : string) : bool :=
  negb (is_nil (tokens l)) && forallb (fun k => negb (keyword k l)) keywords.

(** A [vertex] line can be taken: the parser is inside a loop. *)
Definition in_a_loop (p : ASCII.Phase) : bool :=
  ASCII.Phase_eqb p ASCII.in_loop || ASCII.Phase_eqb p ASCII.have_v1
  || ASCII.Phase_eqb p ASCII.have_v2.

(** The stream overload of the ASCII writer. *)
Module AsciiStream.

(** [serialize(std::ostream&, const Mesh&, int)]. *)
Definition serialize (vformat_fixed : Z -> float -> string) (os : ostream)
           (m : Mesh) (float_precision : Z) : bool * ostream :=
  let s := ASCII.serialize vformat_fixed float_precision m in
  let os' := write (list_ascii_of_string s) os in
  (os_ok os', os').

End AsciiStream.

Section ReadBack.

Variable vformat_fixed : Z -> float -> string.
Variable from_chars : string -> option float.
Variable float_precision : Z.

(** The text written for the number [v] is a word, and [std::from_chars]
    reads it as [r]. *)
Definition reads_back (v r : float) : Prop :=
  word (vformat_fixed float_precision v) = true
  /\ from_chars (vformat_fixed float_precision v) = Some r.

Definition vec_reads_back (v r : Vec3) : Prop :=
  reads_back (x v) (x r) /\ reads_back (y v) (y r) /\ reads_back (z v) (z r).

(** Every number the writer prints for [t] reads back as the number at the
    same place of [r]. *)
Definition triangle_reads_back (t r : Triangle) : Prop :=
  vec_reads_back (printed_normal t) (normal r)
  /\ vec_reads_back (v0 t) (v0 r) /\ vec_reads_back (v1 t) (v1 r)
  /\ vec_reads_back (v2 t) (v2 r).

(** The seven lines of a facet block, with the normal [n] on the first. *)
Definition facet_lines (n : Vec3) (t : Triangle) : list string :=
  [ "  facet normal " ++ ASCII.fmt3 vformat_fixed float_precision n;
    "    outer loop";
    "      vertex " ++ ASCII.fmt3 vformat_fixed float_precision (v0 t);
    "      vertex " ++ ASCII.fmt3 vformat_fixed float_precision (v1 t);
    "      vertex " ++ ASCII.fmt3 vformat_fixed float_precision (v2 t);
    "    endloop";
    "  endfacet" ]%string.

End ReadBack.

(** Carriage return, as the lines of a text written on Windows end with. *)
Definition cr : string := String (ascii_of_nat 13) EmptyString.

(** The messages of the line loop that do not depend on the line. *)
Definition fixed_messages : list string :=
  [ "expected 'solid'";
    "'facet' where not expected";
    "'outer loop' without facet";
    "'vertex' outside of loop";
    "too many vertices in loop";
    "'endloop' before three vertices";
    "'endfacet' without complete triangle";
    "Expected three floats" ]%string.
(* ------------------------------------------------------------------ *)
(** ** Streams: reading *)

Section StreamFacts.

Local Open Scope nat_scope.

Lemma good_flags s : good s = true -> eofbit s = false /\ failbit s = false.
Proof.
  unfold good. destruct (eofbit s), (failbit s); simpl; intuition congruence.
Qed.

Lemma read_enough n s :
  good s = true -> n <= length (remaining s) ->
  read n s = (firstn n (remaining s), mkIstream (buf s) (gpos s + n) false false).
Proof.
  intros Hg Hn. unfold read. rewrite Hg.
  apply Nat.leb_le in Hn. now rewrite Hn.
Qed.

Lemma read_short n s :
  good s = true -> length (remaining s) < n ->
  read n s = (remaining s, mkIstream (buf s) (length (buf s)) true true).
Proof.
  intros Hg Hn. unfold read. rewrite Hg.
  apply Nat.leb_gt in Hn. now rewrite Hn.
Qed.

Lemma remaining_advance s n :
  remaining (mkIstream (buf s) (gpos s + n) false false) = skipn n (remaining s).
Proof.
  unfold remaining; simpl. now rewrite skipn_skipn, Nat.add_comm.
Qed.

(** A successful [read_exact] hands over the next [n] bytes and leaves a
    good stream positioned after them. *)
Lemma read_exact_prefix n s a b :
  good s = true -> remaining s = a ++ b -> length a = n ->
  exists s', Binary.read_exact n s = (Some a, s')
             /\ good s' = true /\ remaining s' = b.
Proof.
  intros Hg Hr Hn. unfold Binary.read_exact.
  destruct n as [|k].
  - destruct a; [|discriminate]. exists s. simpl in Hr. auto.
  - rewrite read_enough by (rewrite ?Hr, ?length_app; lia || assumption).
    unfold fail; cbn [failbit].
    assert (Hf : firstn (S k) (remaining s) = a).
    { rewrite Hr, <- Hn, firstn_app, Nat.sub_diag, firstn_all; simpl.
      apply app_nil_r. }
    rewrite Hf.
    eexists; split; [|split]; [reflexivity | reflexivity |].
    rewrite remaining_advance, Hr, <- Hn, skipn_app, Nat.sub_diag, skipn_all.
    reflexivity.
Qed.

Lemma read_exact_eof n s :
  good s = true -> length (remaining s) < n ->
  exists s', Binary.read_exact n s = (None, s').
Proof.
  intros Hg Hn. unfold Binary.read_exact.
  destruct n as [|k]; [lia|].
  rewrite read_short by assumption. unfold fail; cbn [failbit].
  eexists; reflexivity.
Qed.

End StreamFacts.

(* ------------------------------------------------------------------ *)
(** ** Little-endian load and store *)

Section Endian.

Local Open Scope Z_scope.

Variable native_big : bool.

Lemma store_le_bytes w v : Binary.store_le native_big w v = Binary.le_bytes w v.
Proof.
  unfold Binary.store_le, Binary.object_bytes.
  destruct native_big; [apply rev_involutive | reflexivity].
Qed.

Lemma load_le_value bs : Binary.load_le native_big bs = Binary.le_value bs.
Proof.
  unfold Binary.load_le, Binary.object_value.
  destruct native_big; [now rewrite rev_involutive | reflexivity].
Qed.

Lemma le_bytes_length w v : length (Binary.le_bytes w v) = w.
Proof. revert v; induction w; intros; simpl; auto. Qed.

Lemma byte_embedding v :
  Z.of_N (N_of_ascii (ascii_of_N (Z.to_N (v mod 256)))) = v mod 256.
Proof.
  assert (H : 0 <= v mod 256 < 256) by (apply Z.mod_pos_bound; lia).
  rewrite N_ascii_embedding by lia. lia.
Qed.

Lemma le_value_bytes w v :
  Binary.le_value (Binary.le_bytes w v) = v mod 256 ^ Z.of_nat w.
Proof.
  revert v; induction w as [|w IH]; intros v.
  - simpl. now rewrite Z.mod_1_r.
  - cbn [Binary.le_bytes Binary.le_value].
    rewrite byte_embedding, IH, Nat2Z.inj_succ, Z.pow_succ_r by lia.
    rewrite Z.rem_mul_r by lia. reflexivity.
Qed.

(** What is stored little-endian is loaded back, on either kind of host. *)
Lemma load_store_le w v :
  0 <= v < 256 ^ Z.of_nat w ->
  Binary.load_le native_big (Binary.store_le native_big w v) = v.
Proof.
  intros Hv. rewrite store_le_bytes, load_le_value, le_value_bytes.
  now apply Z.mod_small.
Qed.

Lemma store_le_length w v : length (Binary.store_le native_big w v) = w.
Proof. rewrite store_le_bytes. apply le_bytes_length. Qed.

(** The [i]-th four-byte field of a record. *)
Lemma field_at (vs : list float) (tail : list byte) (i : nat) :
  (i < length vs)%nat ->
  firstn 4 (skipn (i * 4) (flat_map (Binary.store_le native_big 4) vs ++ tail))
  = Binary.store_le native_big 4 (nth i vs 0).
Proof.
  revert i; induction vs as [|a vs IH]; intros i Hi; simpl in Hi; [lia|].
  cbn [flat_map]. rewrite <- app_assoc.
  destruct i as [|i].
  - cbn [Nat.mul skipn nth].
    rewrite firstn_app, store_le_length, Nat.sub_diag, firstn_all2
      by (rewrite store_le_length; lia).
    simpl. apply app_nil_r.
  - replace (S i * 4)%nat with (i * 4 + 4)%nat by lia.
    rewrite <- skipn_skipn.
    replace (skipn 4 (Binary.store_le native_big 4 a ++
                      flat_map (Binary.store_le native_big 4) vs ++ tail))
      with (flat_map (Binary.store_le native_big 4) vs ++ tail).
    + cbn [nth]. apply IH. lia.
    + rewrite skipn_app, store_le_length, Nat.sub_diag, skipn_all2
        by (rewrite store_le_length; lia).
      reflexivity.
Qed.

Lemma f_encoded (vs : list float) (tail : list byte) (i : nat) :
  (i < length vs)%nat -> F32.wf (nth i vs 0) ->
  Binary.f native_big (flat_map (Binary.store_le native_big 4) vs ++ tail) i
  = nth i vs 0.
Proof.
  intros Hi Hwf. unfold Binary.f. rewrite field_at by assumption.
  apply load_store_le. exact Hwf.
Qed.

Lemma encode_record_length t a :
  length (Binary.encode_record native_big t a) = 50%nat.
Proof.
  unfold Binary.encode_record, Binary.vals. cbn [flat_map].
  repeat rewrite length_app. repeat rewrite store_le_length. reflexivity.
Qed.

(** A record that is written and read back gives the triangle that was
    written (after the serializer's own normal substitution). *)
Lemma decode_encode_record t a :
  wf_triangle (fill_normal t) ->
  Binary.decode_record native_big (Binary.encode_record native_big t a)
  = fill_normal t.
Proof.
  intros (Hn & H0 & H1 & H2).
  destruct Hn as (? & ? & ?), H0 as (? & ? & ?),
           H1 as (? & ? & ?), H2 as (? & ? & ?).
  unfold Binary.decode_record, Binary.encode_record.
  rewrite !f_encoded
    by (cbn [Binary.vals length nth]; solve [lia | assumption]).
  cbn [nth Binary.vals].
  destruct (fill_normal t) as [[? ? ?] [? ? ?] [? ? ?] [? ? ?]]; reflexivity.
Qed.

End Endian.

(* ------------------------------------------------------------------ *)
(** ** The binary reader on well-formed and on truncated input *)

Section BinaryReader.

Local Open Scope nat_scope.

Variable native_big : bool.
Variable compute_missing_normals : bool.

Lemma read_records_all recs : forall acc s rest,
  good s = true -> remaining s = concat recs ++ rest ->
  Forall (fun r => length r = 50) recs ->
  exists s',
    Binary.read_records native_big (length recs) compute_missing_normals acc s
    = (value (acc ++ map (stored native_big compute_missing_normals) recs), s').
Proof.
  induction recs as [|r recs IH]; intros acc s rest Hg Hr Hall.
  - exists s. simpl. now rewrite app_nil_r.
  - inversion Hall as [|? ? Hlen Hall']; subst.
    cbn [concat] in Hr. rewrite <- app_assoc in Hr.
    destruct (read_exact_prefix 50 s r _ Hg Hr Hlen) as (s1 & E & Hg1 & Hr1).
    cbn [length Binary.read_records]. rewrite E.
    destruct (IH (acc ++ [stored native_big compute_missing_normals r])
                s1 rest Hg1 Hr1 Hall') as (s2 & E2).
    exists s2. fold (stored native_big compute_missing_normals r).
    rewrite E2, <- app_assoc. reflexivity.
Qed.

Lemma read_records_truncated todo : forall acc s,
  good s = true -> length (remaining s) < 50 * todo ->
  exists s',
    Binary.read_records native_big todo compute_missing_normals acc s
    = (unexpected "Binary STL: unexpected EOF in triangle data"%string, s').
Proof.
  induction todo as [|todo IH]; intros acc s Hg Hlen; [lia|].
  cbn [Binary.read_records].
  destruct (Nat.lt_ge_cases (length (remaining s)) 50) as [Hs|Hs].
  - destruct (read_exact_eof 50 s Hg Hs) as (s' & E). rewrite E.
    eexists; reflexivity.
  - assert (Hsplit : remaining s
                     = firstn 50 (remaining s) ++ skipn 50 (remaining s))
      by (symmetry; apply firstn_skipn).
    destruct (read_exact_prefix 50 s _ _ Hg Hsplit) as (s1 & E & Hg1 & Hr1).
    { rewrite length_firstn. lia. }
    rewrite E. apply IH; [assumption|].
    rewrite Hr1, length_skipn. lia.
Qed.

(** A stream that holds an 80-byte header, a count and that many 50-byte
    records parses to the decoded records, in order. *)
Lemma parse_well_formed s header cnt recs rest :
  good s = true ->
  remaining s = header ++ cnt ++ concat recs ++ rest ->
  length header = 80 -> length cnt = 4 ->
  Forall (fun r => length r = 50) recs ->
  Binary.load_le native_big cnt = Z.of_nat (length recs) ->
  Binary.parse native_big s compute_missing_normals
  = value (mkMesh (Binary.name_of_header header)
                  (map (stored native_big compute_missing_normals) recs)).
Proof.
  intros Hg Hr Hh Hc Hall Hn.
  unfold Binary.parse, Binary.parse_st.
  destruct (read_exact_prefix 80 s header _ Hg Hr Hh) as (s1 & E1 & Hg1 & Hr1).
  rewrite E1.
  destruct (read_exact_prefix 4 s1 cnt _ Hg1 Hr1 Hc) as (s2 & E2 & Hg2 & Hr2).
  rewrite E2, Hn, Nat2Z.id.
  destruct (read_records_all recs [] s2 rest Hg2 Hr2 Hall) as (s3 & E3).
  rewrite E3. reflexivity.
Qed.

Lemma parse_truncated s header cnt body :
  good s = true ->
  remaining s = header ++ cnt ++ body ->
  length header = 80 -> length cnt = 4 ->
  length body < 50 * Z.to_nat (Binary.load_le native_big cnt) ->
  Binary.parse native_big s compute_missing_normals
  = unexpected "Binary STL: unexpected EOF in triangle data"%string.
Proof.
  intros Hg Hr Hh Hc Hlen.
  unfold Binary.parse, Binary.parse_st.
  destruct (read_exact_prefix 80 s header _ Hg Hr Hh) as (s1 & E1 & Hg1 & Hr1).
  rewrite E1.
  destruct (read_exact_prefix 4 s1 cnt _ Hg1 Hr1 Hc) as (s2 & E2 & Hg2 & Hr2).
  rewrite E2.
  destruct (read_records_truncated
              (Z.to_nat (Binary.load_le native_big cnt)) [] s2 Hg2)
    as (s3 & E3).
  { now rewrite Hr2. }
  rewrite E3. reflexivity.
Qed.

(** With the layout of a binary file ahead, [reserve] is called on the
    count that was read: the parse throws when the host refuses it, and
    otherwise it ends as [Binary.parse] says. *)
Lemma parse_throwing_count reserve_ok s header cnt body :
  good s = true ->
  remaining s = header ++ cnt ++ body ->
  length header = 80 -> length cnt = 4 ->
  Binary.parse_throwing native_big reserve_ok s compute_missing_normals
  = if Binary.reserve_throws reserve_ok (Binary.load_le native_big cnt)
    then Throws
    else Returns (Binary.parse native_big s compute_missing_normals).
Proof.
  intros Hg Hr Hh Hc.
  unfold Binary.parse_throwing, Binary.parse_throwing_st,
         Binary.parse, Binary.parse_st.
  destruct (read_exact_prefix 80 s header _ Hg Hr Hh) as (s1 & E1 & Hg1 & Hr1).
  rewrite E1.
  destruct (read_exact_prefix 4 s1 cnt _ Hg1 Hr1 Hc) as (s2 & E2 & Hg2 & Hr2).
  rewrite E2. cbv zeta.
  destruct (Binary.reserve_throws reserve_ok (Binary.load_le native_big cnt));
    [reflexivity|].
  destruct (Binary.read_records native_big _ compute_missing_normals [] s2)
    as [[ts|e] s3]; reflexivity.
Qed.

End BinaryReader.

(* ------------------------------------------------------------------ *)
(** ** The binary writer *)

Section BinaryWriter.

Variable native_big : bool.

Lemma write_records_written ts a : forall os,
  os_fail os = false ->
  Binary.write_records native_big ts a os
  = (true, mkOstream (written os
                      ++ concat (map (fun t => Binary.encode_record native_big t a) ts))
                     false).
Proof.
  induction ts as [|t ts IH]; intros os Hos.
  - simpl. rewrite app_nil_r. unfold os_ok. rewrite Hos.
    destruct os; simpl in *; subst; reflexivity.
  - cbn [Binary.write_records Binary.write_exact write os_ok map concat].
    unfold write. rewrite Hos. cbn [os_ok os_fail negb].
    rewrite IH by reflexivity. cbn [written]. now rewrite <- app_assoc.
Qed.

Lemma header_bytes_length h : length (Binary.header_bytes h) = 80%nat.
Proof.
  unfold Binary.header_bytes. rewrite length_app, repeat_length.
  pose proof (firstn_le_length 80 (list_ascii_of_string h)). lia.
Qed.

(** The bytes a serialization to a fresh stream produces. *)
Lemma serialize_written m header a :
  Binary.serialize native_big open_ostream m header a
  = (true,
     mkOstream
       (Binary.header_bytes header
        ++ Binary.store_le native_big 4 (Z.of_nat (length (tris m)) mod 2 ^ 32)
        ++ concat (map (fun t => Binary.encode_record native_big t a) (tris m)))
       false).
Proof.
  unfold Binary.serialize, Binary.write_exact, write, open_ostream, os_ok.
  cbn [os_fail negb written app].
  rewrite write_records_written by reflexivity.
  cbn [written]. now rewrite <- app_assoc.
Qed.

End BinaryWriter.

(* ------------------------------------------------------------------ *)
(** ** Binary round trip (C1) *)

Section RoundTrip.

Variable native_big : bool.

Lemma stored_encoded cmn a t :
  wf_triangle t -> normal_missing (normal t) = false ->
  stored native_big cmn (Binary.encode_record native_big t a) = t.
Proof.
  intros Hwf Hn.
  assert (Hfill : fill_normal t = t) by (unfold fill_normal; now rewrite Hn).
  unfold stored. rewrite decode_encode_record by (now rewrite Hfill).
  rewrite Hfill. now destruct cmn.
Qed.

Lemma map_stored_encoded cmn a ts :
  Forall wf_triangle ts ->
  Forall (fun t => normal_missing (normal t) = false) ts ->
  map (stored native_big cmn)
      (map (fun t => Binary.encode_record native_big t a) ts) = ts.
Proof.
  induction 1 as [|t ts Hwf _ IH]; intros Hn; [reflexivity|].
  inversion Hn; subst. cbn [map].
  rewrite stored_encoded by assumption. now rewrite IH.
Qed.

End RoundTrip.

(** C1, as amended: for every mesh with fewer than 2^32 triangles whose
    normals all have a component absolute-value sum that is not below
    [1e-20f], a binary serialization to a fresh stream succeeds and parsing
    the bytes back (on a host of either endianness, with any header text, any
    attribute byte count and either setting of [compute_missing_normals])
    yields exactly the triangles of the mesh, bit for bit and in the same
    order; the name of the parsed mesh is the trimmed 80-byte header. *)
Theorem C1_binary_round_trip :
  forall (native_big compute_missing_normals : bool) (m : Mesh)
         (header : string) (attribute_byte_count : Z),
    Forall wf_triangle (tris m) ->
    Forall (fun t => normal_missing (normal t) = false) (tris m) ->
    (Z.of_nat (length (tris m)) < 2 ^ 32)%Z ->
    exists bytes,
      Binary.serialize native_big open_ostream m header attribute_byte_count
      = (true, mkOstream bytes false)
      /\ Binary.parse native_big (open_istream bytes) compute_missing_normals
         = value (mkMesh (Binary.name_of_header (Binary.header_bytes header))
                         (tris m)).
Proof.
  intros big cmn m header a Hwf Hn Hlen.
  eexists; split; [apply serialize_written|].
  etransitivity.
  2: { rewrite <- (map_stored_encoded big cmn a (tris m) Hwf Hn) at 1.
       reflexivity. }
  apply parse_well_formed with (cnt := Binary.store_le big 4
           (Z.of_nat (length (tris m)) mod 2 ^ 32)) (rest := []).
  - reflexivity.
  - unfold remaining, open_istream; cbn [gpos buf skipn].
    now rewrite app_nil_r.
  - apply header_bytes_length.
  - apply store_le_length.
  - apply Forall_map, Forall_forall. intros t _. apply encode_record_length.
  - rewrite length_map, load_store_le, Z.mod_small; try lia.
    change (256 ^ Z.of_nat 4)%Z with (2 ^ 32)%Z.
    apply Z.mod_pos_bound. lia.
Qed.

Lemma C1_binary_round_trip_witness :
  exists bytes,
    Binary.serialize false open_ostream (mkMesh "bin-mesh" [unit_triangle])
                     "Header: bin test" 0%Z
    = (true, mkOstream bytes false)
    /\ Binary.parse false (open_istream bytes) true
       = value (mkMesh (Binary.name_of_header
                          (Binary.header_bytes "Header: bin test"))
                       [unit_triangle]).
Proof.
  apply (C1_binary_round_trip false true (mkMesh "bin-mesh" [unit_triangle])
                              "Header: bin test" 0%Z).
  - repeat constructor; vm_compute; congruence.
  - repeat constructor.
  - vm_compute. reflexivity.
Defined.

(** A count of 2^32 wraps to 0 in the 32-bit field: nothing is read back. *)
Lemma count_wraps (n : nat) :
  Z.of_nat n = (2 ^ 32)%Z ->
  exists bytes,
    Binary.serialize false open_ostream (mkMesh "m" (repeat unit_triangle n))
                     "m" 0%Z
    = (true, mkOstream bytes false)
    /\ Binary.parse false (open_istream bytes) false = value (mkMesh "m" [])
    /\ repeat unit_triangle n <> [].
Proof.
  intros Hz.
  eexists. split; [apply serialize_written|]. split.
  - cbn [tris]. rewrite repeat_length, Hz, Z.mod_same by lia.
    assert (Hname : Binary.name_of_header (Binary.header_bytes "m") = "m"%string)
      by reflexivity.
    rewrite <- Hname at 2.
    apply (parse_well_formed false false _ (Binary.header_bytes "m")
             (Binary.store_le false 4 0) []
             (concat (map (fun t => Binary.encode_record false t 0%Z)
                          (repeat unit_triangle n)))).
    + reflexivity.
    + reflexivity.
    + apply header_bytes_length.
    + reflexivity.
    + constructor.
    + reflexivity.
  - intros E. apply (f_equal (@length _)) in E.
    rewrite repeat_length in E. cbn [length] in E. lia.
Qed.

(** C1 as stated fails: a finite non-zero normal below the threshold is
    replaced by the writer, so the triangle read back differs; and the count
    of a mesh of 2^32 triangles is written as 0, so none is read back. *)
Lemma C1_counterexample :
  (finite_triangle tiny_normal_triangle = true
   /\ zero_vec (normal tiny_normal_triangle) = false
   /\ exists bytes,
        Binary.serialize false open_ostream (mkMesh "m" [tiny_normal_triangle])
                         "m" 0%Z
        = (true, mkOstream bytes false)
        /\ Binary.parse false (open_istream bytes) false
           = value (mkMesh "m" [unit_triangle])
        /\ [unit_triangle] <> [tiny_normal_triangle])
  /\ (exists bytes,
        Binary.serialize false open_ostream
          (mkMesh "m" (repeat unit_triangle (Z.to_nat (2 ^ 32)))) "m" 0%Z
        = (true, mkOstream bytes false)
        /\ Binary.parse false (open_istream bytes) false = value (mkMesh "m" [])
        /\ repeat unit_triangle (Z.to_nat (2 ^ 32)) <> []).
Proof.
  split.
  - split; [reflexivity|]. split; [reflexivity|].
    eexists. split; [vm_compute; reflexivity|].
    split; [vm_compute; reflexivity | discriminate].
  - apply count_wraps. apply Z2Nat.id. apply Z.pow_nonneg. lia.
Qed.

(* ------------------------------------------------------------------ *)
(** ** Truncated binary input (C8) *)

(** C8: when the count field of a binary stream declares more triangles than
    there are complete 50-byte records after the 84-byte prefix, the binary
    parse first asks [reserve] for storage for the declared count, which is
    not zero.  Where
    the host grants it, the parse fails with "Binary STL: unexpected EOF in
    triangle data"; where it does not, the parse does not return at all: the
    exception of [reserve] leaves it before any record is read.  In neither
    case is a mesh returned. *)
Theorem C8_truncated_records :
  forall (native_big : bool) (reserve_ok : Z -> bool)
         (compute_missing_normals : bool) (s : istream)
         (header cnt body : list byte),
    good s = true ->
    remaining s = header ++ cnt ++ body ->
    length header = 80%nat -> length cnt = 4%nat ->
    (length body / 50 < Z.to_nat (Binary.load_le native_big cnt))%nat ->
    Binary.parse_throwing native_big reserve_ok s compute_missing_normals
    = (if reserve_ok (Binary.load_le native_big cnt)
       then Returns
              (unexpected "Binary STL: unexpected EOF in triangle data"%string)
       else Throws)
    /\ (forall m,
          Binary.parse_throwing native_big reserve_ok s compute_missing_normals
          <> Returns (value m)).
Proof.
  intros big ok cmn s header cnt body Hg Hr Hh Hc Hn.
  assert (E : Binary.parse big s cmn
              = unexpected "Binary STL: unexpected EOF in triangle data"%string).
  { apply parse_truncated with (header := header) (cnt := cnt) (body := body);
      try assumption.
    pose proof (Nat.div_mod_eq (length body) 50).
    pose proof (Nat.mod_upper_bound (length body) 50). lia. }
  rewrite (parse_throwing_count big cmn ok s header cnt body Hg Hr Hh Hc), E.
  unfold Binary.reserve_throws.
  replace (0 <? Binary.load_le big cnt)%Z with true
    by (symmetry; apply Z.ltb_lt; lia).
  cbn [andb].
  destruct (ok (Binary.load_le big cnt)); cbn [negb];
    (split; [reflexivity | discriminate]).
Qed.

(** On a host that grants [reserve] fewer than [2^28] triangles: the
    scenario of the test suite (count 2, one record) fails with the message,
    and the 84 bytes that declare [0xFFFFFFFF] triangles make the parse
    throw. *)
Lemma C8_truncated_records_witness :
  Binary.parse_throwing false (fun n => n <? 2 ^ 28)%Z
    (open_istream truncated_input) true
  = Returns (unexpected "Binary STL: unexpected EOF in triangle data"%string)
  /\ Binary.parse_throwing false (fun n => n <? 2 ^ 28)%Z
       (open_istream huge_count_input) true
     = Throws.
Proof.
  split.
  - apply (proj1 (C8_truncated_records false (fun n => n <? 2 ^ 28)%Z true
                    (open_istream truncated_input)
                    (repeat "H"%char 80) (Binary.le_bytes 4 2%Z)
                    (repeat Ascii.zero 50)
                    eq_refl eq_refl eq_refl eq_refl
                    ltac:(vm_compute; lia))).
  - assert (Hc : Binary.load_le false (Binary.le_bytes 4 (2 ^ 32 - 1)%Z)
                 = 4294967295%Z) by (vm_compute; reflexivity).
    assert (Hn : length (@nil byte) / 50
                 < Z.to_nat (Binary.load_le false
                               (Binary.le_bytes 4 (2 ^ 32 - 1)%Z))).
    { rewrite Hc. change (length (@nil byte) / 50) with 0. lia. }
    apply (proj1 (C8_truncated_records false (fun n => n <? 2 ^ 28)%Z true
                    (open_istream huge_count_input)
                    (repeat "H"%char 80) (Binary.le_bytes 4 (2 ^ 32 - 1)%Z) []
                    eq_refl eq_refl eq_refl eq_refl Hn)).
Defined.

(* ------------------------------------------------------------------ *)
(** ** The autodetect dispatcher (C2) *)

Lemma sniff_route s :
  good s = true -> 6 <= length (remaining s) ->
  Auto.sniff s
  = (if String.eqb (string_of_list_ascii (firstn 6 (remaining s))) "solid "
     then Auto.ToAscii else Auto.ToBinary, s).
Proof.
  intros Hg Hlen.
  assert (Hpos : gpos s + 6 <= length (buf s)).
  { unfold remaining in Hlen. rewrite length_skipn in Hlen. lia. }
  destruct (good_flags s Hg) as [He Hf].
  unfold Auto.sniff, tellg. rewrite Hg.
  rewrite read_enough by assumption.
  assert (Hgot : length (firstn 6 (remaining s)) = 6)
    by (rewrite length_firstn; lia).
  rewrite Hgot. cbn [Nat.sub repeat Nat.eqb andb].
  rewrite app_nil_r.
  unfold clear, seekg; cbn [buf gpos failbit].
  replace (gpos s <=? length (buf s)) with true
    by (symmetry; apply Nat.leb_le; lia).
  replace (mkIstream (buf s) (gpos s) false false) with s
    by (destruct s; simpl in *; subst; reflexivity).
  destruct (String.eqb _ _); reflexivity.
Qed.

(** C2, as amended: on a good stream with at least six bytes ahead, the
    dispatcher routes to the ASCII parser exactly when those six bytes are ["solid "]
    (case-sensitive) and to the binary parser otherwise; the parser that is
    chosen receives the stream unchanged, at its original position. *)
Theorem C2_autodetect_routing :
  forall (native_big : bool) (from_chars : string -> option float)
         (s : istream) (compute_missing_normals : bool),
    good s = true ->
    6 <= length (remaining s) ->
    (string_of_list_ascii (firstn 6 (remaining s)) = "solid "%string ->
       Auto.sniff s = (Auto.ToAscii, s)
       /\ Auto.parse native_big from_chars s compute_missing_normals
          = ASCII.parse_stream from_chars s compute_missing_normals)
    /\ (string_of_list_ascii (firstn 6 (remaining s)) <> "solid "%string ->
       Auto.sniff s = (Auto.ToBinary, s)
       /\ Auto.parse native_big from_chars s compute_missing_normals
          = Binary.parse native_big s compute_missing_normals).
Proof.
  intros big fc s cmn Hg Hlen.
  pose proof (sniff_route s Hg Hlen) as Hs.
  unfold Auto.parse.
  split; intros Hp.
  - apply String.eqb_eq in Hp. rewrite Hp in Hs. rewrite Hs. auto.
  - apply String.eqb_neq in Hp. rewrite Hp in Hs. rewrite Hs. auto.
Qed.

Lemma C2_autodetect_routing_witness :
  let s := open_istream (list_ascii_of_string "solid x") in
  let b := open_istream (list_ascii_of_string "SOLID x") in
  (Auto.sniff s = (Auto.ToAscii, s)
   /\ Auto.parse false Ref.from_chars_fixed s true
      = ASCII.parse_stream Ref.from_chars_fixed s true)
  /\ (Auto.sniff b = (Auto.ToBinary, b)
      /\ Auto.parse false Ref.from_chars_fixed b true
         = Binary.parse false b true).
Proof.
  intros s b. split.
  - apply (C2_autodetect_routing false Ref.from_chars_fixed s true);
      [reflexivity | vm_compute; lia | reflexivity].
  - apply (C2_autodetect_routing false Ref.from_chars_fixed b true);
      [reflexivity | vm_compute; lia | vm_compute; discriminate].
Defined.

(** C2 as stated fails on a stream that is not in the good state.  With
    [failbit] set and the bytes ["solid s"] ahead, [tellg] fails and nothing
    is read, so the text goes to the binary parser, which refuses what the
    ASCII parser accepts; with [eofbit] set and ["solid s"] ahead at offset
    5, the binary parser is moreover started at offset 0, not at the
    position the stream had. *)
Lemma C2_counterexample :
  let f := mkIstream (list_ascii_of_string "solid s") 0 false true in
  let e := mkIstream (list_ascii_of_string "junk solid s") 5 true false in
  (6 <= length (remaining f)
   /\ string_of_list_ascii (firstn 6 (remaining f)) = "solid "%string
   /\ Auto.sniff f
      = (Auto.ToBinary, open_istream (list_ascii_of_string "solid s"))
   /\ Auto.parse false Ref.from_chars_fixed f true
      = unexpected "Binary STL: failed to read 80-byte header"%string
   /\ ASCII.parse Ref.from_chars_fixed "solid s" true = value (mkMesh "s" []))
  /\ (6 <= length (remaining e)
      /\ string_of_list_ascii (firstn 6 (remaining e)) = "solid "%string
      /\ Auto.sniff e
         = (Auto.ToBinary, open_istream (list_ascii_of_string "junk solid s"))).
Proof.
  intros f e. repeat split; try (vm_compute; reflexivity); vm_compute; lia.
Qed.

(* ------------------------------------------------------------------ *)
(** ** The tokenizer loop terminates within its fuel *)

Lemma skip_front_length sv :
  String.length (ASCII.skip_front sv) <= String.length sv.
Proof.
  induction sv as [|c r IH]; simpl; [lia|].
  destruct (ASCII.isspace c); simpl; lia.
Qed.

Lemma skip_front_head sv c r :
  ASCII.skip_front sv = String c r -> ASCII.isspace c = false.
Proof.
  induction sv as [|d sv IH]; simpl; [discriminate|].
  destruct (ASCII.isspace d) eqn:E; [exact IH|].
  intros H. injection H as <- _. exact E.
Qed.

Lemma token_rest_length sv :
  String.length (ASCII.token_rest sv) <= String.length sv.
Proof.
  induction sv as [|c r IH]; simpl; [lia|].
  destruct (ASCII.isspace c); simpl; lia.
Qed.

(** Every iteration consumes a character, so fuel beyond the length of the
    view changes nothing: the loop of [tokenize_ws] always runs to its end. *)
Lemma tokenize_loop_fuel fuel : forall fuel' sv,
  String.length sv <= fuel -> String.length sv <= fuel' ->
  ASCII.tokenize_loop fuel sv = ASCII.tokenize_loop fuel' sv.
Proof.
  induction fuel as [|fuel IH]; intros fuel' sv H H'.
  - destruct sv; [|simpl in H; lia]. destruct fuel'; reflexivity.
  - destruct fuel' as [|fuel'].
    + destruct sv; [reflexivity | simpl in H'; lia].
    + cbn [ASCII.tokenize_loop].
      destruct (ASCII.empty sv); [reflexivity|].
      destruct (ASCII.skip_front sv) as [|c r] eqn:E; [reflexivity|].
      cbn [ASCII.empty]. f_equal.
      pose proof (skip_front_length sv) as Hs. rewrite E in Hs.
      pose proof (skip_front_head _ _ _ E) as Hc.
      cbn [ASCII.token_rest]. rewrite Hc.
      pose proof (token_rest_length r). simpl in Hs.
      apply IH; lia.
Qed.

(* ------------------------------------------------------------------ *)
(** ** The ASCII line loop *)

Section AsciiFacts.

Variable from_chars : string -> option float.
Variable cmn : bool.

Local Abbreviation body := (ASCII.body from_chars cmn).
Local Abbreviation run := (ASCII.run from_chars cmn).
Local Abbreviation dispatch := (ASCII.dispatch from_chars cmn).

Lemma eq_ci_lower a : forall k, ASCII.eq_ci a k = true <-> lower_sv a = k.
Proof.
  induction a as [|c a IH]; intros [|d k]; simpl; split; intros H;
    try reflexivity; try discriminate.
  - destruct (Ascii.eqb (ASCII.tolower c) d) eqn:E; [|discriminate].
    apply Ascii.eqb_eq in E. apply IH in H. congruence.
  - injection H as Hc Hk. rewrite Hc, Ascii.eqb_refl. now apply IH.
Qed.

(** A token matches at most one keyword. *)
Lemma eq_ci_other a k k' :
  ASCII.eq_ci a k = true -> k <> k' -> ASCII.eq_ci a k' = false.
Proof.
  intros H Hne. destruct (ASCII.eq_ci a k') eqn:E; [|reflexivity].
  apply eq_ci_lower in H. apply eq_ci_lower in E. congruence.
Qed.

Lemma body_tokens line st :
  body line st
  = match tokens line with
    | [] => ASCII.Continue (ASCII.next_line st)
    | toks => dispatch (ASCII.trim_sv line) toks (ASCII.next_line st)
    end.
Proof.
  unfold ASCII.body, tokens.
  destruct (ASCII.trim_sv line) eqn:E; [reflexivity|].
  cbn [ASCII.empty]. destruct (ASCII.tokenize_ws _); reflexivity.
Qed.

Lemma keyword_tokens k l :
  keyword k l = true ->
  exists t r, tokens l = t :: r /\ ASCII.eq_ci t k = true.
Proof.
  unfold keyword. destruct (tokens l) as [|t r]; [discriminate|].
  intros H. now exists t, r.
Qed.

Lemma run_app pre : forall post st,
  run (pre ++ post) st
  = match run pre st with
    | ASCII.Continue st' => run post st'
    | o => o
    end.
Proof.
  induction pre as [|l pre IH]; intros post st; [reflexivity|].
  cbn [app ASCII.run]. destruct (body l st); auto.
Qed.

End AsciiFacts.

Section AsciiSteps.

Variable from_chars : string -> option float.
Variable cmn : bool.

Local Abbreviation body := (ASCII.body from_chars cmn).
Local Abbreviation run := (ASCII.run from_chars cmn).

Ltac other_keyword Ht :=
  repeat match goal with
  | |- context [ASCII.eq_ci ?t ?k] =>
      first [ rewrite Ht
            | rewrite (eq_ci_other t _ k Ht) by discriminate ]
  end.

(** Entering the dispatch on a line whose first token is a keyword. *)
Ltac enter_dispatch Hk Hin :=
  let t := fresh "t" in
  let r := fresh "r" in
  let Et := fresh "Et" in
  let Ht := fresh "Ht" in
  destruct (keyword_tokens _ _ Hk) as (t & r & Et & Ht);
  rewrite body_tokens; rewrite Et;
  unfold ASCII.dispatch; cbn [ASCII.next_line ASCII.in_solid ASCII.line_no
    ASCII.phase ASCII.vertex_count ASCII.mesh ASCII.current];
  rewrite Hin; cbn [negb];
  change (ASCII.tok (t :: r) 0) with t;
  other_keyword Ht; cbn [negb].

Lemma endsolid_step l st :
  ASCII.in_solid st = true -> keyword "endsolid" l = true ->
  body l st
  = ASCII.Break (ASCII.mkState (ASCII.mesh st) false (ASCII.current st)
                   (ASCII.phase st) (ASCII.vertex_count st)
                   (S (ASCII.line_no st))).
Proof. intros Hin Hk. enter_dispatch Hk Hin. reflexivity. Qed.

Lemma endloop_step l st :
  ASCII.in_solid st = true -> keyword "endloop" l = true ->
  body l st
  = if ASCII.vertex_count st =? 3
    then ASCII.Continue (ASCII.next_line st)
    else ASCII.Return (ASCII.at_line (S (ASCII.line_no st))
                         "'endloop' before three vertices").
Proof.
  intros Hin Hk. enter_dispatch Hk Hin.
  destruct (ASCII.vertex_count st =? 3); reflexivity.
Qed.

Lemma endfacet_step l st :
  ASCII.in_solid st = true -> keyword "endfacet" l = true ->
  ASCII.vertex_count st = 3 -> ASCII.phase st = ASCII.have_v2 ->
  body l st
  = ASCII.Continue
      (ASCII.mkState
         (mkMesh (name (ASCII.mesh st))
                 (tris (ASCII.mesh st) ++ [completed cmn (ASCII.current st)]))
         true Triangle_zero ASCII.idle 3 (S (ASCII.line_no st))).
Proof.
  intros Hin Hk Hv Hp. enter_dispatch Hk Hin.
  rewrite Hv, Hp. reflexivity.
Qed.

Lemma three_floats_length toks start r :
  ASCII.three_floats_from from_chars toks start = value r ->
  start + 3 <= length toks.
Proof.
  unfold ASCII.three_floats_from.
  destruct (length toks <? start + 3) eqn:E; [discriminate|].
  intros _. apply Nat.ltb_ge in E. exact E.
Qed.

Lemma facet_step l st n :
  ASCII.in_solid st = true -> ASCII.phase st = ASCII.idle ->
  facet_line from_chars l n ->
  body l st
  = ASCII.Continue
      (ASCII.mkState (ASCII.mesh st) true
         (ASCII.set_normal (ASCII.current st) n) ASCII.have_facet
         (ASCII.vertex_count st) (S (ASCII.line_no st))).
Proof.
  intros Hin Hp (Hk & Hn & Hf). enter_dispatch Hk Hin.
  rewrite Et in Hn, Hf. rewrite Hn, Hp, Hf.
  apply three_floats_length in Hf.
  replace (length (t :: r) <? 2) with false
    by (symmetry; apply Nat.ltb_ge; lia).
  destruct n; reflexivity.
Qed.

Lemma outer_step l st :
  ASCII.in_solid st = true -> ASCII.phase st = ASCII.have_facet ->
  outer_line l ->
  body l st
  = ASCII.Continue
      (ASCII.mkState (ASCII.mesh st) true (ASCII.current st) ASCII.in_loop 0
         (S (ASCII.line_no st))).
Proof.
  intros Hin Hp (Hk & Hl). enter_dispatch Hk Hin.
  rewrite Et in Hl. rewrite Hl, Hp.
  destruct r as [|t1 r]; [discriminate Hl|]. reflexivity.
Qed.

Lemma vertex_step l st p :
  ASCII.in_solid st = true ->
  ASCII.phase st = ASCII.in_loop \/ ASCII.phase st = ASCII.have_v1
    \/ ASCII.phase st = ASCII.have_v2 ->
  vertex_line from_chars l p ->
  body l st
  = match ASCII.vertex_count st with
    | 0 => ASCII.Continue
             (ASCII.mkState (ASCII.mesh st) true
                (ASCII.set_v0 (ASCII.current st) p) ASCII.have_v1 1
                (S (ASCII.line_no st)))
    | 1 => ASCII.Continue
             (ASCII.mkState (ASCII.mesh st) true
                (ASCII.set_v1 (ASCII.current st) p) ASCII.have_v2 2
                (S (ASCII.line_no st)))
    | 2 => ASCII.Continue
             (ASCII.mkState (ASCII.mesh st) true
                (ASCII.set_v2 (ASCII.current st) p) (ASCII.phase st) 3
                (S (ASCII.line_no st)))
    | _ => ASCII.Return (ASCII.at_line (S (ASCII.line_no st))
                           "too many vertices in loop")
    end.
Proof.
  intros Hin Hp (Hk & Hf). enter_dispatch Hk Hin.
  rewrite Et in Hf. rewrite Hf.
  replace (negb (ASCII.Phase_eqb (ASCII.phase st) ASCII.in_loop)
           && negb (ASCII.Phase_eqb (ASCII.phase st) ASCII.have_v1)
           && negb (ASCII.Phase_eqb (ASCII.phase st) ASCII.have_v2))
    with false
    by (destruct Hp as [-> | [-> | ->]]; reflexivity).
  destruct p. reflexivity.
Qed.

(** A whole facet block, read from the idle phase inside a solid, appends
    exactly one triangle: the stated normal and vertices, completed. *)
Lemma facet_block st lf lo la lb lc ll le n a b c :
  ASCII.in_solid st = true -> ASCII.phase st = ASCII.idle ->
  facet_line from_chars lf n -> outer_line lo ->
  vertex_line from_chars la a -> vertex_line from_chars lb b ->
  vertex_line from_chars lc c ->
  keyword "endloop" ll = true -> keyword "endfacet" le = true ->
  run [lf; lo; la; lb; lc; ll; le] st
  = ASCII.Continue
      (ASCII.mkState
         (mkMesh (name (ASCII.mesh st))
                 (tris (ASCII.mesh st)
                  ++ [completed cmn (mkTriangle n a b c)]))
         true Triangle_zero ASCII.idle 3 (7 + ASCII.line_no st)).
Proof.
  intros Hin Hp Hf Ho Ha Hb Hc Hl He.
  cbn [ASCII.run].
  rewrite (facet_step lf st n Hin Hp Hf).
  rewrite outer_step by (reflexivity || assumption).
  rewrite (vertex_step la _ a) by (auto || reflexivity).
  cbn [ASCII.vertex_count].
  rewrite (vertex_step lb _ b) by (cbn; auto).
  cbn [ASCII.vertex_count].
  rewrite (vertex_step lc _ c) by (cbn; auto).
  cbn [ASCII.vertex_count ASCII.phase].
  rewrite endloop_step by (reflexivity || assumption).
  cbn [ASCII.vertex_count Nat.eqb ASCII.next_line].
  rewrite endfacet_step by (reflexivity || assumption).
  reflexivity.
Qed.

End AsciiSteps.

(* ------------------------------------------------------------------ *)
(** ** Blank input (C9) *)

Section Blank.

Variable from_chars : string -> option float.
Variable cmn : bool.

Lemma skip_front_all_space s :
  all_space s = true -> ASCII.skip_front s = EmptyString.
Proof.
  induction s as [|c s IH]; simpl; [reflexivity|].
  destruct (ASCII.isspace c); simpl; [exact IH | discriminate].
Qed.

Lemma body_blank l st :
  all_space l = true ->
  ASCII.body from_chars cmn l st = ASCII.Continue (ASCII.next_line st).
Proof.
  intros H. unfold ASCII.body, ASCII.trim_sv.
  now rewrite skip_front_all_space.
Qed.

Lemma split_nl_nonempty s : ASCII.split_nl s <> [].
Proof.
  destruct s as [|c s]; simpl; [discriminate|].
  destruct (Ascii.eqb c ASCII.nl_char); [discriminate|].
  destruct (ASCII.split_nl s); discriminate.
Qed.

Lemma split_nl_all_space s :
  all_space s = true ->
  Forall (fun l => all_space l = true) (ASCII.split_nl s).
Proof.
  induction s as [|c s IH]; simpl; intros H.
  - repeat constructor.
  - apply andb_prop in H as [Hc Hs]. specialize (IH Hs).
    destruct (Ascii.eqb c ASCII.nl_char).
    + constructor; [reflexivity | exact IH].
    + destruct (ASCII.split_nl s) as [|h t].
      * repeat constructor. simpl. now rewrite Hc.
      * inversion IH; subst. constructor; [|assumption].
        simpl. now rewrite Hc.
Qed.

(** Blank lines only advance the line counter. *)
Lemma run_blank ls : forall st,
  Forall (fun l => all_space l = true) ls ->
  ASCII.run from_chars cmn ls st
  = ASCII.Continue
      (ASCII.mkState (ASCII.mesh st) (ASCII.in_solid st) (ASCII.current st)
         (ASCII.phase st) (ASCII.vertex_count st) (length ls + ASCII.line_no st)).
Proof.
  induction ls as [|l ls IH]; intros st H.
  - destruct st; reflexivity.
  - inversion H; subst. cbn [ASCII.run]. rewrite body_blank by assumption.
    rewrite IH by assumption. cbn. f_equal. f_equal. lia.
Qed.

End Blank.

(** C9: an ASCII input that is empty or made of whitespace only (blank lines)
    parses successfully to a mesh with the empty name and no triangle; in
    particular it does not fail with the missing-['solid'] error. *)
Theorem C9_blank_input_is_empty_mesh :
  forall (from_chars : string -> option float) (text : string)
         (compute_missing_normals : bool),
    all_space text = true ->
    ASCII.parse from_chars text compute_missing_normals
    = value (mkMesh "" []).
Proof.
  intros fc text cmn H. unfold ASCII.parse, ASCII.lines.
  destruct text as [|c r]; [reflexivity|].
  cbn [ASCII.empty].
  rewrite run_blank by (apply split_nl_all_space; exact H).
  reflexivity.
Qed.

Lemma C9_blank_input_is_empty_mesh_witness :
  ASCII.parse Ref.from_chars_fixed (" " ++ ASCII.nl ++ "  " ++ ASCII.nl) true
  = value (mkMesh "" []).
Proof.
  apply (C9_blank_input_is_empty_mesh Ref.from_chars_fixed
           (" " ++ ASCII.nl ++ "  " ++ ASCII.nl) true).
  reflexivity.
Defined.

(* ------------------------------------------------------------------ *)
(** ** What an accepted line does to the mesh and to [in_solid] *)

Section Accepted.

Variable from_chars : string -> option float.
Variable cmn : bool.

Local Abbreviation body := (ASCII.body from_chars cmn).
Local Abbreviation run := (ASCII.run from_chars cmn).

(** Case analysis along the conditionals at the head of [H], outermost
    first; the branches that return or break are dismissed. *)
Ltac head_split H :=
  repeat (cbv beta iota zeta in H;
          match type of H with
          | (if ?b then _ else _) = _ => destruct b eqn:?
          | (match ?x with _ => _ end) = _ => destruct x eqn:?
          | ASCII.Return _ = _ => discriminate H
          | ASCII.Break _ = _ => discriminate H
          end).

(** Triangles are appended by [endfacet] lines only, one at a time; and an
    accepted non-blank line leaves the parser inside the solid. *)
Lemma body_continue l st st' :
  body l st = ASCII.Continue st' ->
  tris (ASCII.mesh st')
  = tris (ASCII.mesh st)
    ++ (if keyword "endfacet" l then [completed cmn (ASCII.current st)] else [])
  /\ ASCII.in_solid st' = ASCII.in_solid st || negb (is_nil (tokens l)).
Proof.
  rewrite body_tokens. unfold keyword.
  destruct (tokens l) as [|t r] eqn:Et.
  - intros H. injection H as <-. cbn. rewrite app_nil_r, orb_false_r. auto.
  - unfold ASCII.dispatch.
    cbn [ASCII.next_line ASCII.in_solid ASCII.line_no ASCII.phase
         ASCII.vertex_count ASCII.mesh ASCII.current is_nil negb].
    change (ASCII.tok (t :: r) 0) with t.
    rewrite orb_true_r.
    generalize (ASCII.three_floats_from from_chars (t :: r) 2)
               (ASCII.three_floats_from from_chars (t :: r) 1)
               (ASCII.name_of (t :: r)).
    intros f2 f1 nm.
    repeat match goal with
           | |- context [ASCII.at_line ?n ?m] =>
               generalize (ASCII.at_line n m); intro
           end.
    assert (Hex : forall k, k <> "endfacet"%string ->
                  ASCII.eq_ci t k = true -> ASCII.eq_ci t "endfacet" = false).
    { intros k Hne Hk. apply (eq_ci_other t k); assumption. }
    pose proof (Hex "solid"%string ltac:(discriminate)) as Hsolid.
    pose proof (Hex "facet"%string ltac:(discriminate)) as Hfacet.
    pose proof (Hex "outer"%string ltac:(discriminate)) as Houter.
    pose proof (Hex "vertex"%string ltac:(discriminate)) as Hvertex.
    pose proof (Hex "endloop"%string ltac:(discriminate)) as Hendloop.
    clear Hex.
    generalize dependent (ASCII.eq_ci t "solid").
    generalize dependent (ASCII.eq_ci t "facet").
    generalize dependent (ASCII.eq_ci t "outer").
    generalize dependent (ASCII.eq_ci t "vertex").
    generalize dependent (ASCII.eq_ci t "endloop").
    generalize (ASCII.eq_ci t "endsolid").
    generalize (ASCII.eq_ci t "endfacet").
    generalize ((length (t :: r) <? 2) || negb (ASCII.eq_ci (ASCII.tok (t :: r) 1) "normal")).
    generalize ((length (t :: r) <? 2) || negb (ASCII.eq_ci (ASCII.tok (t :: r) 1) "loop")).
    intros b1 b2 kef kes kel Hel kv Hv ko Ho kf Hf ks Hs H.
    head_split H;
      injection H as <-;
      cbn [ASCII.next_line ASCII.mesh ASCII.in_solid tris];
      repeat match goal with
             | Hk : negb _ = false |- _ => apply negb_false_iff in Hk
             end;
      subst;
      try (rewrite Hel in * by reflexivity);
      try (rewrite Hv in * by reflexivity);
      try (rewrite Ho in * by reflexivity);
      try (rewrite Hf in * by reflexivity);
      try (rewrite Hs in * by reflexivity);
      try discriminate;
      try rewrite app_nil_r; auto.
Qed.

Lemma run_continue ls : forall st st',
  run ls st = ASCII.Continue st' ->
  length (tris (ASCII.mesh st'))
  = length (tris (ASCII.mesh st)) + length (filter (keyword "endfacet") ls)
  /\ ASCII.in_solid st'
     = ASCII.in_solid st || existsb (fun l => negb (is_nil (tokens l))) ls.
Proof.
  induction ls as [|l ls IH]; intros st st' H.
  - injection H as <-. cbn. rewrite orb_false_r. split; [lia | reflexivity].
  - cbn [ASCII.run] in H. destruct (body l st) as [st1| |] eqn:E;
      try discriminate H.
    destruct (body_continue _ _ _ E) as [Ht Hi].
    destruct (IH _ _ H) as [Ht' Hi'].
    rewrite Ht', Hi', Ht, Hi. cbn [filter existsb].
    rewrite length_app, orb_assoc. split; [|reflexivity].
    destruct (keyword "endfacet" l); cbn [length]; lia.
Qed.

(** The loop is left by [break] on an [endsolid] line only, with the mesh
    as it stands. *)
Lemma body_break l st st' :
  body l st = ASCII.Break st' ->
  keyword "endsolid" l = true /\ ASCII.mesh st' = ASCII.mesh st.
Proof.
  rewrite body_tokens. unfold keyword.
  destruct (tokens l) as [|t r] eqn:Et; [discriminate|].
  unfold ASCII.dispatch.
  cbn [ASCII.next_line ASCII.in_solid ASCII.line_no ASCII.phase
       ASCII.vertex_count ASCII.mesh ASCII.current].
  change (ASCII.tok (t :: r) 0) with t.
  generalize (ASCII.three_floats_from from_chars (t :: r) 2)
             (ASCII.three_floats_from from_chars (t :: r) 1).
  intros f2 f1 H.
  repeat (cbv beta iota zeta in H;
          match type of H with
          | (if ?b then _ else _) = _ => destruct b eqn:?
          | (match ?x with _ => _ end) = _ => destruct x eqn:?
          | ASCII.Return _ = _ => discriminate H
          | ASCII.Continue _ = _ => discriminate H
          end).
  injection H as <-. auto.
Qed.

Lemma run_no_break ls : forall st st',
  Forall (fun l => keyword "endsolid" l = false) ls ->
  run ls st <> ASCII.Break st'.
Proof.
  induction ls as [|l ls IH]; intros st st' Hall; [discriminate|].
  inversion Hall as [|? ? Hl Hls]; subst.
  cbn [ASCII.run]. destruct (body l st) as [st1|st1|e] eqn:E.
  - now apply IH.
  - apply body_break in E as [E _]. congruence.
  - discriminate.
Qed.

(** Whatever follows, the triangles stored so far stay in the mesh. *)
Lemma run_grows ls : forall st st',
  run ls st = ASCII.Continue st' \/ run ls st = ASCII.Break st' ->
  exists more, tris (ASCII.mesh st') = tris (ASCII.mesh st) ++ more.
Proof.
  induction ls as [|l ls IH]; intros st st' H.
  - destruct H as [H|H]; [|discriminate]. injection H as <-.
    exists []. now rewrite app_nil_r.
  - cbn [ASCII.run] in H. destruct (body l st) as [st1|st1|e] eqn:E.
    + destruct (IH _ _ H) as (more & Hm).
      destruct (body_continue _ _ _ E) as [Ht _].
      rewrite Hm, Ht, <- app_assoc. eexists; reflexivity.
    + destruct H as [H|H]; [discriminate|]. injection H as <-.
      apply body_break in E as [_ E]. rewrite E.
      exists []. now rewrite app_nil_r.
    + destruct H; discriminate.
Qed.

(** A [facet] line is rejected outside a solid and outside the idle phase. *)
Lemma facet_rejected l st :
  keyword "facet" l = true ->
  ASCII.in_solid st = false \/ ASCII.phase st <> ASCII.idle ->
  exists e, body l st = ASCII.Return e.
Proof.
  intros Hk Hst.
  destruct (keyword_tokens _ _ Hk) as (t & r & Et & Ht).
  rewrite body_tokens, Et. unfold ASCII.dispatch.
  cbn [ASCII.next_line ASCII.in_solid ASCII.line_no ASCII.phase
       ASCII.vertex_count ASCII.mesh ASCII.current].
  change (ASCII.tok (t :: r) 0) with t.
  rewrite (eq_ci_other t _ "solid" Ht), (eq_ci_other t _ "endsolid" Ht), Ht
    by discriminate.
  cbn [negb].
  destruct (ASCII.in_solid st) eqn:Ein; cbn [negb]; [|eexists; reflexivity].
  destruct Hst as [Hst|Hst]; [discriminate|].
  destruct ((length (t :: r) <? 2)
            || negb (ASCII.eq_ci (ASCII.tok (t :: r) 1) "normal"));
    [eexists; reflexivity|].
  destruct (ASCII.phase st); try (eexists; reflexivity). contradiction.
Qed.

Lemma parse_value text m :
  ASCII.parse from_chars text cmn = value m ->
  exists st,
    (run (ASCII.lines text) ASCII.init = ASCII.Continue st
     \/ run (ASCII.lines text) ASCII.init = ASCII.Break st)
    /\ m = ASCII.mesh st.
Proof.
  unfold ASCII.parse, ASCII.finish.
  destruct (run (ASCII.lines text) ASCII.init) as [st|st|e] eqn:E;
    try discriminate;
    destruct (ASCII.in_solid st && negb (ASCII.Phase_eqb (ASCII.phase st) ASCII.idle));
    try discriminate; intros H; injection H as <-; eauto.
Qed.

(** In an input that parses, a facet block that no [endsolid] line precedes
    yields the triangle at the index given by the [endfacet] lines before
    it: the stated normal and vertices, completed. *)
Lemma parse_facet_block text pre lf lo la lb lc ll le post n a b c m :
  ASCII.lines text = pre ++ [lf; lo; la; lb; lc; ll; le] ++ post ->
  Forall (fun l => keyword "endsolid" l = false) pre ->
  facet_line from_chars lf n -> outer_line lo ->
  vertex_line from_chars la a -> vertex_line from_chars lb b ->
  vertex_line from_chars lc c ->
  keyword "endloop" ll = true -> keyword "endfacet" le = true ->
  ASCII.parse from_chars text cmn = value m ->
  nth_error (tris m) (length (filter (keyword "endfacet") pre))
  = Some (completed cmn (mkTriangle n a b c)).
Proof.
  intros Hl Hpre Hf Ho Ha Hb Hc Hll Hle Hp.
  destruct (parse_value _ _ Hp) as (st' & Hrun & ->).
  rewrite Hl, run_app in Hrun.
  destruct (run pre ASCII.init) as [st|st|e] eqn:Epre.
  2: { exfalso. now apply (run_no_break pre ASCII.init st). }
  2: { destruct Hrun; discriminate. }
  destruct (run_continue pre _ _ Epre) as [Hlen _].
  cbn [ASCII.init ASCII.mesh tris length Nat.add] in Hlen.
  rewrite run_app in Hrun.
  assert (Hst : ASCII.in_solid st = true /\ ASCII.phase st = ASCII.idle).
  { destruct (ASCII.in_solid st) eqn:Ein.
    - split; [reflexivity|].
      destruct (ASCII.phase st) eqn:Eph; try reflexivity; exfalso;
        (destruct (facet_rejected lf st (proj1 Hf)) as (e & He);
         [right; rewrite Eph; discriminate|]);
        cbn [ASCII.run] in Hrun; rewrite He in Hrun;
        destruct Hrun; discriminate.
    - exfalso.
      destruct (facet_rejected lf st (proj1 Hf)) as (e & He); [now left|].
      cbn [ASCII.run] in Hrun. rewrite He in Hrun.
      destruct Hrun; discriminate. }
  destruct Hst as [Hin Hph].
  rewrite (facet_block from_chars cmn st lf lo la lb lc ll le n a b c)
    in Hrun by assumption.
  destruct (run_grows _ _ _ Hrun) as (more & Hm).
  cbn [ASCII.mesh tris] in Hm.
  rewrite Hm, <- app_assoc, nth_error_app2 by lia.
  rewrite <- Hlen, Nat.sub_diag. reflexivity.
Qed.

End Accepted.

(* ------------------------------------------------------------------ *)
(** ** [endsolid] (C10) *)

Lemma begins_with_solid_nonblank ls :
  begins_with_solid ls ->
  existsb (fun l => negb (is_nil (tokens l))) ls = true.
Proof.
  intros (pre & l & post & -> & _ & Hk).
  apply existsb_exists. exists l. split; [apply in_elt|].
  unfold keyword in Hk. destruct (tokens l); [discriminate | reflexivity].
Qed.

(** C10, as amended: once the leading [solid] line has been read, an
    [endsolid] line is accepted in every phase and ends the parse
    successfully, also while a facet or a loop is open; the facet being read
    is dropped, and the mesh returned holds one triangle per [endfacet] line
    accepted before it.  (Before the [solid] line an [endsolid] line is
    rejected like any other first line.) *)
Theorem C10_endsolid_any_phase :
  forall (from_chars : string -> option float) (compute_missing_normals : bool)
         (text : string) (pre : list string) (l : string) (post : list string)
         (st : ASCII.pstate),
    ASCII.lines text = pre ++ l :: post ->
    begins_with_solid pre ->
    ASCII.run from_chars compute_missing_normals pre ASCII.init
    = ASCII.Continue st ->
    keyword "endsolid" l = true ->
    ASCII.parse from_chars text compute_missing_normals = value (ASCII.mesh st)
    /\ length (tris (ASCII.mesh st)) = length (filter (keyword "endfacet") pre).
Proof.
  intros fc cmn text pre l post st Hl Hb Hrun Hk.
  destruct (run_continue fc cmn pre _ _ Hrun) as [Hlen Hin].
  rewrite (begins_with_solid_nonblank _ Hb), orb_true_r in Hin.
  split; [|exact Hlen].
  unfold ASCII.parse. rewrite Hl, run_app, Hrun.
  cbn [ASCII.run]. rewrite endsolid_step by assumption.
  reflexivity.
Qed.

Lemma C10_endsolid_any_phase_witness :
  exists st,
    ASCII.phase st = ASCII.have_facet
    /\ ASCII.parse Ref.from_chars_fixed
         (text_of ["solid s"; "facet normal 0 0 1"; "endsolid s"; "junk"]%string)
         true
       = value (ASCII.mesh st)
    /\ length (tris (ASCII.mesh st))
       = length (filter (keyword "endfacet")
                        ["solid s"; "facet normal 0 0 1"]%string).
Proof.
  eexists. split; [|
    apply (C10_endsolid_any_phase Ref.from_chars_fixed true
             (text_of ["solid s"; "facet normal 0 0 1"; "endsolid s"; "junk"]%string)
             ["solid s"; "facet normal 0 0 1"]%string "endsolid s"%string
             ["junk"; ""]%string);
    [ reflexivity
    | exists [], "solid s"%string, ["facet normal 0 0 1"%string];
      repeat split; constructor
    | vm_compute; reflexivity
    | reflexivity ] ].
  reflexivity.
Defined.

(** C10 as stated fails before the [solid] line: the parser is in the idle
    phase there, and an [endsolid] line makes the parse fail. *)
Lemma C10_counterexample :
  ASCII.phase ASCII.init = ASCII.idle
  /\ keyword "endsolid" "endsolid x" = true
  /\ ASCII.parse Ref.from_chars_fixed (text_of ["endsolid x"%string]) true
     = unexpected "Line 1: expected 'solid'"%string.
Proof. repeat split. Qed.

(* ------------------------------------------------------------------ *)
(** ** End of input without [endsolid] (C7) *)

(** C7, as amended: for an ASCII input whose first non-blank line is a
    [solid] line and whose lines are all accepted without an [endsolid] line
    being met, the parse succeeds, returning the facets read so far, exactly
    when the phase at the end of the input is idle; otherwise it fails with
    the message "Unexpected EOF: unterminated facet/loop" (capital U). *)
Theorem C7_eof_without_endsolid :
  forall (from_chars : string -> option float) (compute_missing_normals : bool)
         (text : string) (st : ASCII.pstate),
    begins_with_solid (ASCII.lines text) ->
    ASCII.run from_chars compute_missing_normals (ASCII.lines text) ASCII.init
    = ASCII.Continue st ->
    ASCII.parse from_chars text compute_missing_normals
    = (if ASCII.Phase_eqb (ASCII.phase st) ASCII.idle
       then value (ASCII.mesh st)
       else unexpected "Unexpected EOF: unterminated facet/loop"%string)
    /\ length (tris (ASCII.mesh st))
       = length (filter (keyword "endfacet") (ASCII.lines text)).
Proof.
  intros fc cmn text st Hb Hrun.
  destruct (run_continue fc cmn _ _ _ Hrun) as [Hlen Hin].
  rewrite (begins_with_solid_nonblank _ Hb), orb_true_r in Hin.
  unfold ASCII.parse, ASCII.finish. rewrite Hrun, Hin. cbn [andb].
  split; [|exact Hlen].
  destruct (ASCII.Phase_eqb (ASCII.phase st) ASCII.idle); reflexivity.
Qed.

Lemma unterminated_begins_with_solid :
  begins_with_solid (ASCII.lines unterminated_text).
Proof.
  exists [], "solid s"%string, ["facet normal 0 0 1"; ""]%string.
  repeat split. constructor.
Qed.

Lemma C7_eof_without_endsolid_witness :
  exists st,
    ASCII.phase st = ASCII.have_facet
    /\ ASCII.parse Ref.from_chars_fixed unterminated_text true
       = (if ASCII.Phase_eqb (ASCII.phase st) ASCII.idle
          then value (ASCII.mesh st)
          else unexpected "Unexpected EOF: unterminated facet/loop"%string)
    /\ length (tris (ASCII.mesh st))
       = length (filter (keyword "endfacet") (ASCII.lines unterminated_text)).
Proof.
  eexists. split; [|
    apply (C7_eof_without_endsolid Ref.from_chars_fixed true unterminated_text);
    [ exact unterminated_begins_with_solid | vm_compute; reflexivity ] ].
  reflexivity.
Defined.

(** C7 as stated fails twice over.  An input that begins with a [solid]
    line, has no [endsolid] line and ends inside a facet fails with a message
    that does not contain "unexpected EOF"; and an input of that shape with a
    line that is no keyword fails, in the idle phase, with another error. *)
Lemma C7_counterexample :
  (begins_with_solid (ASCII.lines unterminated_text)
   /\ existsb (keyword "endsolid") (ASCII.lines unterminated_text) = false
   /\ ASCII.parse Ref.from_chars_fixed unterminated_text true
      = unexpected "Unexpected EOF: unterminated facet/loop"%string
   /\ contains "unexpected EOF" "Unexpected EOF: unterminated facet/loop" = false)
  /\ (begins_with_solid (ASCII.lines garbage_text)
      /\ existsb (keyword "endsolid") (ASCII.lines garbage_text) = false
      /\ ASCII.parse Ref.from_chars_fixed garbage_text true
         = unexpected "Line 2: unexpected content: 'nonsense here'"%string
      /\ contains "unexpected EOF"
                  "Line 2: unexpected content: 'nonsense here'" = false).
Proof.
  split.
  - split; [exact unterminated_begins_with_solid|]. repeat split.
  - split; [|repeat split].
    exists [], "solid s"%string, ["  nonsense here"; ""]%string.
    repeat split. constructor.
Qed.

(* ------------------------------------------------------------------ *)
(** ** [endloop] and the vertex counter (C6) *)

(** C6: inside a solid an [endloop] line is accepted exactly when
    [vertex_count] is 3, whatever the phase, and [endloop] after only two
    vertices fails with the line-numbered message "'endloop' before three
    vertices"; but [vertex_count] is reset by [outer loop] only, so after a
    complete facet an [endloop] outside any loop, or before the [outer loop]
    of the next facet, is accepted with no vertex read in a current loop. *)
Theorem C6_endloop_stale_counter :
  (forall (from_chars : string -> option float) (cmn : bool)
          (l : string) (st : ASCII.pstate),
      ASCII.in_solid st = true -> keyword "endloop" l = true ->
      ASCII.body from_chars cmn l st
      = if ASCII.vertex_count st =? 3
        then ASCII.Continue (ASCII.next_line st)
        else ASCII.Return (ASCII.at_line (S (ASCII.line_no st))
                             "'endloop' before three vertices"))
  /\ ASCII.parse Ref.from_chars_fixed two_vertex_text true
     = unexpected "Line 6: 'endloop' before three vertices"%string
  /\ ASCII.parse Ref.from_chars_fixed stray_endloop_text true
     = value (mkMesh "s" [unit_triangle])
  /\ ASCII.parse Ref.from_chars_fixed early_endloop_text true
     = value (mkMesh "s" [unit_triangle; unit_triangle]).
Proof.
  split; [intros fc cmn l st; apply endloop_step|].
  repeat split; vm_compute; reflexivity.
Qed.

(** The state after the [endfacet] of a first facet: idle, counter still 3. *)
Lemma C6_endloop_stale_counter_witness :
  ASCII.body Ref.from_chars_fixed true "endloop"
    (ASCII.mkState (mkMesh "s" [unit_triangle]) true Triangle_zero ASCII.idle 3 8)
  = ASCII.Continue
      (ASCII.mkState (mkMesh "s" [unit_triangle]) true Triangle_zero ASCII.idle 3 9).
Proof.
  apply (proj1 C6_endloop_stale_counter Ref.from_chars_fixed true "endloop"%string
           (ASCII.mkState (mkMesh "s" [unit_triangle]) true Triangle_zero
                          ASCII.idle 3 8));
    reflexivity.
Defined.

(* ------------------------------------------------------------------ *)
(** ** Normal completion (C4, C5) *)

Lemma mul_zero_self a : F32.is_zero a = true -> F32.mul a a = 0%Z.
Proof.
  unfold F32.is_zero, F32.mul, F32.lift2.
  destruct (F32.to_SF a) as [s| | |]; try discriminate.
  intros _. destruct s; reflexivity.
Qed.

(** A zero cross product has computed length zero, so it is returned as it
    is: no division takes place. *)
Lemma face_normal_degenerate t :
  zero_vec (edge_cross t) = true -> face_normal t = edge_cross t.
Proof.
  unfold zero_vec, face_normal, vlen. intros H.
  apply andb_prop in H as [H Hz]. apply andb_prop in H as [Hx Hy].
  rewrite (mul_zero_self _ Hx), (mul_zero_self _ Hy), (mul_zero_self _ Hz).
  reflexivity.
Qed.









Lemma written_normal_printed t : written_normal_ok t (printed_normal t).
Proof.
  unfold written_normal_ok, printed_normal, fill_normal.
  destruct (normal_missing (normal t)) eqn:E; cbn [normal];
    repeat split; try discriminate; intros.
  apply face_normal_degenerate. assumption.
Qed.




(** C5: with [compute_missing_normals = false] nothing is recomputed: the
    binary reader stores every record exactly as decoded and the ASCII reader
    stores at [endfacet] exactly the facet it accumulated, so a facet whose
    normal is stated as [(0,0,0)] has the normal [(0,0,0)] in the resulting
    mesh. *)
Theorem C5_completion_disabled :
  forall (native_big : bool) (from_chars : string -> option float),
    (forall s header cnt recs rest,
        good s = true ->
        remaining s = header ++ cnt ++ concat recs ++ rest ->
        length header = 80 -> length cnt = 4 ->
        Forall (fun r => length r = 50) recs ->
        Binary.load_le native_big cnt = Z.of_nat (length recs) ->
        Binary.parse native_big s false
        = value (mkMesh (Binary.name_of_header header)
                        (map (Binary.decode_record native_big) recs)))
    /\ (forall l st st',
        ASCII.body from_chars false l st = ASCII.Continue st' ->
        keyword "endfacet" l = true ->
        tris (ASCII.mesh st') = tris (ASCII.mesh st) ++ [ASCII.current st])
    /\ (forall text pre lf lo la lb lc ll le post a b c m,
        ASCII.lines text = pre ++ [lf; lo; la; lb; lc; ll; le] ++ post ->
        Forall (fun l => keyword "endsolid" l = false) pre ->
        facet_line from_chars lf Vec3_zero -> outer_line lo ->
        vertex_line from_chars la a -> vertex_line from_chars lb b ->
        vertex_line from_chars lc c ->
        keyword "endloop" ll = true -> keyword "endfacet" le = true ->
        ASCII.parse from_chars text false = value m ->
        nth_error (tris m) (length (filter (keyword "endfacet") pre))
        = Some (mkTriangle Vec3_zero a b c)).
Proof.
  intros big fc. split; [|split].
  - intros s header cnt recs rest Hg Hr Hh Hc Hall Hn.
    rewrite parse_well_formed
      with (header := header) (cnt := cnt) (recs := recs) (rest := rest)
      by assumption.
    reflexivity.
  - intros l st st' Hb Hk.
    destruct (body_continue fc false l st st' Hb) as [Ht _].
    rewrite Hk in Ht. exact Ht.
  - intros text pre lf lo la lb lc ll le post a b c m
           Hl Hpre Hf Ho Ha Hb Hc Hll Hle Hp.
    now apply (parse_facet_block fc false text pre lf lo la lb lc ll le post
                                 Vec3_zero a b c m).
Qed.

Lemma C5_completion_disabled_witness :
  Binary.parse false zero_normal_stream false
  = value (mkMesh (Binary.name_of_header (repeat "H"%char 80))
                  (map (Binary.decode_record false) [zero_normal_record]))
  /\ normal (Binary.decode_record false zero_normal_record) = Vec3_zero
  /\ nth_error [zero_normal_triangle]
               (length (filter (keyword "endfacet") ["solid n/a"%string]))
     = Some (mkTriangle Vec3_zero (mkVec3 0 0 0)%Z (mkVec3 F32.one 0 0)%Z
                        (mkVec3 0 F32.one 0)%Z).
Proof.
  destruct (C5_completion_disabled false Ref.from_chars_fixed)
    as (Hbin & _ & Htext).
  split; [|split].
  - apply (Hbin zero_normal_stream (repeat "H"%char 80) (Binary.le_bytes 4 1%Z)
             [zero_normal_record] []); try reflexivity.
    repeat constructor.
  - reflexivity.
  - apply (Htext zero_normal_text ["solid n/a"%string]
             "  facet normal 0 0 0"%string "    outer loop"%string
             "      vertex 0 0 0"%string "      vertex 1 0 0"%string
             "      vertex 0 1 0"%string "    endloop"%string
             "  endfacet"%string ["endsolid"; ""]%string
             (mkVec3 0 0 0)%Z (mkVec3 F32.one 0 0)%Z
             (mkVec3 0 F32.one 0)%Z (mkMesh "n/a" [zero_normal_triangle]));
      try reflexivity; repeat split; repeat constructor.
Defined.

(* ------------------------------------------------------------------ *)
(** ** The ASCII writer (C3) *)

Section AsciiWriter.

Variable vformat_fixed : Z -> float -> string.
Variable float_precision : Z.

Local Open Scope string_scope.

Lemma append_assoc (a b c : string) : (a ++ b) ++ c = a ++ (b ++ c).
Proof. induction a as [|ch a IH]; simpl; [reflexivity | now rewrite IH]. Qed.

Lemma append_empty_r (a : string) : a ++ "" = a.
Proof. induction a as [|ch a IH]; simpl; [reflexivity | now rewrite IH]. Qed.

Lemma emit_facet_text out t :
  ASCII.emit_facet vformat_fixed float_precision out t
  = out ++ facet_text vformat_fixed float_precision (printed_normal t) t.
Proof.
  unfold ASCII.emit_facet, facet_text, printed_normal, fill_normal.
  destruct (normal_missing (normal t)); cbn [normal];
    repeat rewrite append_assoc; reflexivity.
Qed.

Lemma fold_emit_facet ts : forall out,
  fold_left (ASCII.emit_facet vformat_fixed float_precision) ts out
  = out ++ join_text
             (map (fun t => facet_text vformat_fixed float_precision
                                       (printed_normal t) t) ts).
Proof.
  induction ts as [|t ts IH]; intros out; cbn [fold_left map join_text].
  - now rewrite append_empty_r.
  - now rewrite IH, emit_facet_text, append_assoc.
Qed.

End AsciiWriter.

(** C3, as amended: the ASCII serializer writes [solid <name>], one facet
    block per triangle in order, and [endsolid <name>]; the [facet normal]
    line of a triangle carries the stored normal unless its absolute-value
    sum is below [1e-20f], in which case it carries [face_normal] of the
    triangle, and for a triangle whose cross product is zero that is the
    zero vector (nothing is said about the digits printed). *)
Theorem C3_ascii_writer_normals :
  forall (vformat_fixed : Z -> float -> string) (float_precision : Z) (m : Mesh),
    ASCII.serialize vformat_fixed float_precision m
    = ("solid " ++ name m ++ ASCII.nl
       ++ join_text (map (fun t => facet_text vformat_fixed float_precision
                                              (printed_normal t) t) (tris m))
       ++ "endsolid " ++ name m ++ ASCII.nl)%string
    /\ Forall (fun t => written_normal_ok t (printed_normal t)) (tris m).
Proof.
  intros vf p m. split.
  - unfold ASCII.serialize. rewrite fold_emit_facet.
    cbn [String.append]. repeat rewrite append_assoc. reflexivity.
  - apply Forall_forall. intros t _. apply written_normal_printed.
Qed.

(** C3 as stated fails: for a degenerate triangle with a zero normal the
    computed face normal is zero, and a stored normal of [1e-10] is printed
    with six digits as zeros; both facets carry an all-zero normal line. *)
Lemma C3_counterexample :
  ASCII.serialize Ref.vformat_fixed 6
    (mkMesh "d" [Triangle_zero; small_normal_triangle])
  = text_of
      [ "solid d";
        "  facet normal 0.000000 0.000000 0.000000";
        "    outer loop";
        "      vertex 0.000000 0.000000 0.000000";
        "      vertex 0.000000 0.000000 0.000000";
        "      vertex 0.000000 0.000000 0.000000";
        "    endloop";
        "  endfacet";
        "  facet normal 0.000000 0.000000 0.000000";
        "    outer loop";
        "      vertex 0.000000 0.000000 0.000000";
        "      vertex 1.000000 0.000000 0.000000";
        "      vertex 0.000000 1.000000 0.000000";
        "    endloop";
        "  endfacet";
        "endsolid d" ]%string
  /\ normal_missing (normal Triangle_zero) = true
  /\ normal_missing (normal small_normal_triangle) = false
  /\ zero_vec (normal small_normal_triangle) = false.
Proof. repeat split; vm_compute; reflexivity. Qed.

(* ------------------------------------------------------------------ *)
(** ** Scenarios of the test suite, run on the model *)

(** A 3-4 right triangle in the x-z plane: the cross product is
    [(0, -12, 0)], its length 12, the face normal [(0, -1, 0)]. *)
Example test_face_normal_divides :
  cross_product
    (mkTriangle Vec3_zero Vec3_zero (mkVec3 0x40400000 0 0)
                (mkVec3 0 0 0x40800000))%Z
  = (mkVec3 0 0xc1400000 0)%Z
  /\ euclidean_length (mkVec3 0 0xc1400000 0)%Z = 0x41400000%Z
  /\ face_normal
       (mkTriangle Vec3_zero Vec3_zero (mkVec3 0x40400000 0 0)
                   (mkVec3 0 0 0x40800000))%Z
     = (mkVec3 0 0xbf800000 0)%Z.
Proof. repeat split; vm_compute; reflexivity. Qed.

Example test_parse_minimal :
  ASCII.parse Ref.from_chars_fixed sample_cube_text true
  = value (mkMesh "sample_cube"
             [ unit_triangle;
               (mkTriangle (mkVec3 0 0 F32.one) (mkVec3 F32.one 0 0)
                           (mkVec3 F32.one F32.one 0) (mkVec3 0 F32.one 0))%Z ]).
Proof. vm_compute. reflexivity. Qed.

Example test_missing_normal_computed :
  ASCII.parse Ref.from_chars_fixed zero_normal_text true
  = value (mkMesh "n/a" [unit_triangle]).
Proof. vm_compute. reflexivity. Qed.

Example test_missing_normal_not_computed :
  ASCII.parse Ref.from_chars_fixed zero_normal_text false
  = value (mkMesh "n/a" [zero_normal_triangle]).
Proof. vm_compute. reflexivity. Qed.

Example test_case_insensitive :
  ASCII.parse Ref.from_chars_fixed mixed_case_text true
  = value (mkMesh "name" [unit_triangle]).
Proof. vm_compute. reflexivity. Qed.

Example test_serializer_computes_normal :
  contains "facet normal 0.000000 0.000000 1.000000"
    (ASCII.serialize Ref.vformat_fixed 6 (mkMesh "nfix" [zero_normal_triangle]))
  = true.
Proof. vm_compute. reflexivity. Qed.

Example test_round_trip_ascii :
  ASCII.parse Ref.from_chars_fixed
    (ASCII.serialize Ref.vformat_fixed 6 (mkMesh "rt" [unit_triangle])) true
  = value (mkMesh "rt" [unit_triangle]).
Proof. vm_compute. reflexivity. Qed.

Example test_binary_short_header :
  Binary.parse false (open_istream (list_ascii_of_string "short")) true
  = unexpected "Binary STL: failed to read 80-byte header"%string.
Proof. vm_compute. reflexivity. Qed.

Example test_binary_writer_computes_normal :
  exists bytes,
    Binary.serialize false open_ostream (mkMesh "nfix" [zero_normal_triangle])
                     "nfix" 0%Z
    = (true, mkOstream bytes false)
    /\ Binary.parse false (open_istream bytes) true
       = value (mkMesh "nfix" [unit_triangle]).
Proof.
  eexists. split; [vm_compute; reflexivity|].
  vm_compute. reflexivity.
Qed.

Example test_autodetect_binary :
  exists bytes,
    Binary.serialize false open_ostream (mkMesh "auto-binary" [unit_triangle])
                     "auto-bin" 0%Z
    = (true, mkOstream bytes false)
    /\ Auto.parse false Ref.from_chars_fixed (open_istream bytes) true
       = value (mkMesh "auto-bin" [unit_triangle]).
Proof.
  eexists. split; [vm_compute; reflexivity|].
  vm_compute. reflexivity.
Qed.

(* ------------------------------------------------------------------ *)
(** ** The little-endian helpers of Binary.h *)

Lemma le_bytes_nth w : forall v i,
  i < w ->
  nth i (Binary.le_bytes w v) Ascii.zero
  = ascii_of_N (Z.to_N ((v / 256 ^ Z.of_nat i) mod 256)).
Proof.
  induction w as [|w IH]; intros v i Hi; [lia|].
  destruct i as [|i]; cbn [Binary.le_bytes nth].
  - now rewrite Z.pow_0_r, Z.div_1_r.
  - rewrite IH by lia. rewrite Nat2Z.inj_succ, Z.pow_succ_r by lia.
    rewrite Z.div_div by (try apply Z.pow_pos_nonneg; lia). reflexivity.
Qed.

Lemma le_value_range bs :
  (0 <= Binary.le_value bs < 256 ^ Z.of_nat (length bs))%Z.
Proof.
  induction bs as [|b bs IH]; cbn [Binary.le_value length].
  - simpl. lia.
  - rewrite Nat2Z.inj_succ, Z.pow_succ_r by lia.
    pose proof (N_ascii_bounded b) as Hb.
    assert (0 <= Z.of_N (N_of_ascii b) < 256)%Z by lia. lia.
Qed.

Lemma le_bytes_value bs :
  Binary.le_bytes (length bs) (Binary.le_value bs) = bs.
Proof.
  induction bs as [|b bs IH]; cbn [Binary.le_value length Binary.le_bytes];
    [reflexivity|].
  pose proof (N_ascii_bounded b) as Hb.
  assert (Hb' : (0 <= Z.of_N (N_of_ascii b) < 256)%Z) by lia.
  replace ((Z.of_N (N_of_ascii b) + 256 * Binary.le_value bs) mod 256)%Z
    with (Z.of_N (N_of_ascii b)).
  2: { rewrite (Z.mul_comm 256), Z.mod_add by lia.
       symmetry. now apply Z.mod_small. }
  replace ((Z.of_N (N_of_ascii b) + 256 * Binary.le_value bs) / 256)%Z
    with (Binary.le_value bs).
  2: { rewrite (Z.mul_comm 256), Z.div_add by lia.
       rewrite Z.div_small by lia. lia. }
  rewrite N2Z.id, ascii_N_embedding, IH. reflexivity.
Qed.

(** X1: [store_le] writes the same [w] bytes on a little-endian and on a
    big-endian host, least significant byte first: byte [i] is
    [(v / 256^i) mod 256]. *)
Theorem X1_store_le_wire_format :
  forall (native_big : bool) (w : nat) (v : Z) (i : nat),
    i < w ->
    length (Binary.store_le native_big w v) = w
    /\ Binary.store_le native_big w v = Binary.store_le (negb native_big) w v
    /\ nth i (Binary.store_le native_big w v) Ascii.zero
       = ascii_of_N (Z.to_N ((v / 256 ^ Z.of_nat i) mod 256)).
Proof.
  intros big w v i Hi. rewrite !store_le_bytes.
  split; [apply le_bytes_length|]. split; [reflexivity|].
  now apply le_bytes_nth.
Qed.

Lemma X1_store_le_wire_format_witness :
  length (Binary.store_le true 4 0x01020304) = 4
  /\ Binary.store_le true 4 0x01020304 = Binary.store_le (negb true) 4 0x01020304
  /\ nth 1 (Binary.store_le true 4 0x01020304) Ascii.zero
     = ascii_of_N (Z.to_N ((0x01020304 / 256 ^ Z.of_nat 1) mod 256)).
Proof. apply (X1_store_le_wire_format true 4 0x01020304%Z 1). lia. Defined.

(** X2: on either host [load_le] and [store_le] are inverse to each other:
    a value that fits [w] bytes is loaded back from what was stored, and any
    byte string is stored back from the value it loads to, which lies in
    [0, 256^length). *)
Theorem X2_load_store_inverse :
  forall (native_big : bool) (w : nat) (v : Z) (bs : list byte),
    (0 <= v < 256 ^ Z.of_nat w)%Z ->
    Binary.load_le native_big (Binary.store_le native_big w v) = v
    /\ Binary.store_le native_big (length bs) (Binary.load_le native_big bs) = bs
    /\ (0 <= Binary.load_le native_big bs < 256 ^ Z.of_nat (length bs))%Z.
Proof.
  intros big w v bs Hv. split; [now apply load_store_le|].
  rewrite store_le_bytes, load_le_value.
  split; [apply le_bytes_value | apply le_value_range].
Qed.

Lemma X2_load_store_inverse_witness :
  Binary.load_le true (Binary.store_le true 4 0x3f800000) = 0x3f800000%Z
  /\ Binary.store_le true (length (Binary.le_bytes 2 513))
                     (Binary.load_le true (Binary.le_bytes 2 513))
     = Binary.le_bytes 2 513
  /\ (0 <= Binary.load_le true (Binary.le_bytes 2 513)
      < 256 ^ Z.of_nat (length (Binary.le_bytes 2 513)))%Z.
Proof.
  apply (X2_load_store_inverse true 4 0x3f800000%Z (Binary.le_bytes 2 513%Z)).
  vm_compute. split; congruence.
Defined.

(* ------------------------------------------------------------------ *)
(** ** [read_exact] and the binary reader *)

Lemma read_exact_not_good n s :
  good s = false -> 0 < n ->
  Binary.read_exact n s = (None, setstate_fail s).
Proof.
  intros Hg Hn. unfold Binary.read_exact, read. rewrite Hg.
  destruct n; [lia|]. reflexivity.
Qed.

(** What a successful [read_exact] tells about the stream. *)
Lemma read_exact_some n s a s' :
  0 < n -> Binary.read_exact n s = (Some a, s') ->
  good s = true /\ remaining s = a ++ remaining s' /\ length a = n
  /\ good s' = true /\ buf s' = buf s /\ gpos s' = gpos s + n.
Proof.
  intros Hn H. unfold Binary.read_exact in H.
  destruct n as [|k]; [lia|]. remember (S k) as n eqn:En. clear En Hn k.
  unfold read in H.
  destruct (good s) eqn:Hg; [|discriminate H].
  destruct (n <=? length (remaining s)) eqn:Hle; [|discriminate H].
  unfold fail in H. cbn [failbit] in H. injection H as <- <-.
  apply Nat.leb_le in Hle.
  rewrite remaining_advance, firstn_skipn, length_firstn.
  repeat split; try reflexivity. lia.
Qed.

(** X3: on a good stream [read_exact] for [n > 0] bytes succeeds exactly when
    [n] bytes remain; it then returns those bytes and leaves a good stream
    positioned after them.  Otherwise it fails, the stream has [failbit]
    set, and every later [read_exact] on it fails too. *)
Theorem X3_read_exact :
  forall (n : nat) (s : istream),
    good s = true -> 0 < n ->
    (n <= length (remaining s) ->
       Binary.read_exact n s
       = (Some (firstn n (remaining s)),
          mkIstream (buf s) (gpos s + n) false false))
    /\ (length (remaining s) < n ->
       exists s',
         Binary.read_exact n s = (None, s') /\ fail s' = true
         /\ forall k, 0 < k -> fst (Binary.read_exact k s') = None).
Proof.
  intros n s Hg Hn. split; intros Hlen.
  - unfold Binary.read_exact. destruct n; [lia|].
    now rewrite read_enough.
  - unfold Binary.read_exact at 1. destruct n as [|n']; [lia|].
    rewrite read_short by assumption. unfold fail at 1. cbn [failbit].
    eexists; split; [reflexivity|]. split; [reflexivity|].
    intros k Hk. rewrite read_exact_not_good by (reflexivity || lia).
    reflexivity.
Qed.

Lemma X3_read_exact_witness :
  (4 <= length (remaining (open_istream (list_ascii_of_string "abcdef"))) ->
     Binary.read_exact 4 (open_istream (list_ascii_of_string "abcdef"))
     = (Some (firstn 4 (remaining (open_istream (list_ascii_of_string "abcdef")))),
        mkIstream (list_ascii_of_string "abcdef") (0 + 4) false false))
  /\ (length (remaining (open_istream (list_ascii_of_string "abcdef"))) < 4 ->
     exists s',
       Binary.read_exact 4 (open_istream (list_ascii_of_string "abcdef"))
       = (None, s') /\ fail s' = true
       /\ forall k, 0 < k -> fst (Binary.read_exact k s') = None).
Proof.
  apply (X3_read_exact 4 (open_istream (list_ascii_of_string "abcdef")));
    [reflexivity | lia].
Defined.

Lemma parse_no_header big cmn s :
  good s = false \/ length (remaining s) < 80 ->
  Binary.parse big s cmn
  = unexpected "Binary STL: failed to read 80-byte header"%string.
Proof.
  intros H. unfold Binary.parse, Binary.parse_st.
  destruct (good s) eqn:Hg.
  - destruct H as [H|H]; [discriminate|].
    destruct (read_exact_eof 80 s Hg H) as (s' & E). now rewrite E.
  - rewrite read_exact_not_good by (assumption || lia). reflexivity.
Qed.

(** X4: the binary reader reports which structural element is missing: a
    stream that is not good, or has fewer than 80 bytes left, fails on the
    header; one with 80 to 83 bytes left fails on the triangle count. *)
Theorem X4_binary_short_input :
  forall (native_big compute_missing_normals : bool) (s : istream),
    (good s = false \/ length (remaining s) < 80 ->
       Binary.parse native_big s compute_missing_normals
       = unexpected "Binary STL: failed to read 80-byte header"%string)
    /\ (good s = true ->
        80 <= length (remaining s) < 84 ->
        Binary.parse native_big s compute_missing_normals
        = unexpected "Binary STL: failed to read triangle count"%string).
Proof.
  intros big cmn s. split; [apply parse_no_header|].
  unfold Binary.parse, Binary.parse_st.
  - intros Hg Hlen.
    destruct (read_exact_prefix 80 s (firstn 80 (remaining s))
                (skipn 80 (remaining s)) Hg)
      as (s1 & E1 & Hg1 & Hr1).
    { symmetry; apply firstn_skipn. }
    { rewrite length_firstn. lia. }
    rewrite E1.
    destruct (read_exact_eof 4 s1 Hg1) as (s2 & E2).
    { rewrite Hr1, length_skipn. lia. }
    now rewrite E2.
Qed.

Lemma X4_binary_short_input_witness :
  Binary.parse false (open_istream (list_ascii_of_string "short")) true
  = unexpected "Binary STL: failed to read 80-byte header"%string
  /\ Binary.parse false (open_istream (repeat "H"%char 82)) true
     = unexpected "Binary STL: failed to read triangle count"%string.
Proof.
  split.
  - apply (proj1 (X4_binary_short_input false true
                    (open_istream (list_ascii_of_string "short")))).
    right. vm_compute. lia.
  - apply (proj2 (X4_binary_short_input false true
                    (open_istream (repeat "H"%char 82))));
      [reflexivity | vm_compute; lia].
Defined.

Lemma read_records_some big cmn todo : forall acc s ts s',
  Binary.read_records big todo cmn acc s = (value ts, s') ->
  good s = true ->
  exists recs,
    remaining s = concat recs ++ remaining s'
    /\ Forall (fun r => length r = 50) recs
    /\ length recs = todo
    /\ ts = acc ++ map (stored big cmn) recs
    /\ good s' = true /\ buf s' = buf s /\ gpos s' = gpos s + 50 * todo.
Proof.
  induction todo as [|todo IH]; intros acc s ts s' H Hg.
  - cbn in H. injection H as <- <-. exists []. cbn.
    rewrite app_nil_r, Nat.add_0_r. repeat split; auto.
  - cbn [Binary.read_records] in H.
    destruct (Binary.read_exact 50 s) as [[rec|] s1] eqn:E; [|discriminate H].
    apply read_exact_some in E as (_ & Hr & Hl & Hg1 & Hb1 & Hp1); [|lia].
    apply IH in H as (recs & Hr' & Hall & Hlen & Hts & Hg' & Hb' & Hp');
      [|assumption].
    exists (rec :: recs). cbn [concat map length].
    rewrite Hr, Hr', <- app_assoc, Hts, <- app_assoc, Hb', Hb1, Hp', Hp1, Hlen.
    repeat split; auto. lia.
Qed.

(** X5: a binary parse succeeds only on the fixed layout: if it returns a
    mesh, the stream was good and held an 80-byte header, a count and
    exactly that many 50-byte records; the mesh has one triangle per record,
    in order, and the name trimmed from the header; the bytes after the last
    record are left unread on a good stream. *)
Theorem X5_binary_success_layout :
  forall (native_big compute_missing_normals : bool) (s s' : istream) (m : Mesh),
    Binary.parse_st native_big s compute_missing_normals = (value m, s') ->
    exists header cnt recs,
      good s = true
      /\ remaining s = header ++ cnt ++ concat recs ++ remaining s'
      /\ length header = 80 /\ length cnt = 4
      /\ Forall (fun r => length r = 50) recs
      /\ Z.of_nat (length recs) = Binary.load_le native_big cnt
      /\ m = mkMesh (Binary.name_of_header header)
                    (map (stored native_big compute_missing_normals) recs)
      /\ good s' = true
      /\ gpos s' = gpos s + 84 + 50 * length recs.
Proof.
  intros big cmn s s' m H. unfold Binary.parse_st in H.
  destruct (Binary.read_exact 80 s) as [[header|] s1] eqn:E1; [|discriminate H].
  destruct (Binary.read_exact 4 s1) as [[cnt|] s2] eqn:E2; [|discriminate H].
  destruct (Binary.read_records big _ cmn [] s2) as [[ts|e] s3] eqn:E3;
    [|discriminate H].
  injection H as <- <-.
  apply read_exact_some in E1 as (Hg & Hr1 & Hl1 & Hg1 & _ & Hp1); [|lia].
  apply read_exact_some in E2 as (_ & Hr2 & Hl2 & Hg2 & _ & Hp2); [|lia].
  apply read_records_some in E3
    as (recs & Hr3 & Hall & Hlen & Hts & Hg3 & _ & Hp3); [|assumption].
  exists header, cnt, recs.
  rewrite Hr1, Hr2, Hr3, Hts, Hp3, Hp2, Hp1, Hlen.
  repeat split; auto; try lia.
  rewrite Z2Nat.id; [reflexivity|].
  rewrite load_le_value. apply le_value_range.
Qed.

Lemma X5_binary_success_layout_witness :
  exists header cnt recs,
    good zero_normal_stream = true
    /\ remaining zero_normal_stream
       = header ++ cnt ++ concat recs
         ++ remaining (mkIstream (buf zero_normal_stream) 134 false false)
    /\ length header = 80 /\ length cnt = 4
    /\ Forall (fun r => length r = 50) recs
    /\ Z.of_nat (length recs) = Binary.load_le false cnt
    /\ mkMesh (String.concat "" (repeat "H"%string 80)) [unit_triangle]
       = mkMesh (Binary.name_of_header header) (map (stored false true) recs)
    /\ good (mkIstream (buf zero_normal_stream) 134 false false) = true
    /\ gpos (mkIstream (buf zero_normal_stream) 134 false false)
       = gpos zero_normal_stream + 84 + 50 * length recs.
Proof.
  apply (X5_binary_success_layout false true zero_normal_stream
           (mkIstream (buf zero_normal_stream) 134 false false)
           (mkMesh (String.concat "" (repeat "H"%string 80)) [unit_triangle])).
  vm_compute. reflexivity.
Defined.

(* ------------------------------------------------------------------ *)
(** ** The binary writer *)

Lemma concat_records_length big a ts :
  length (concat (map (fun t => Binary.encode_record big t a) ts))
  = 50 * length ts.
Proof.
  induction ts as [|t ts IH]; cbn [map concat length]; [reflexivity|].
  rewrite length_app, encode_record_length, IH. lia.
Qed.

Section DeviceWriter.

Variable accept : list byte -> list byte -> nat.

Lemma device_write_failed bs os :
  os_fail os = true -> Device.write_exact accept bs os = (false, os).
Proof.
  intros H. unfold Device.write_exact, Device.write, os_ok.
  rewrite H. cbv beta iota zeta. rewrite H. reflexivity.
Qed.

(** One [write_exact], followed by whatever [K] writes: the output is a
    prefix of the chunk followed by a prefix of the rest, and the rest is
    only begun when the chunk was taken whole. *)
Lemma device_write_then c rest (K : ostream -> bool * ostream) os :
  os_fail os = false ->
  (forall os', os_fail os' = false ->
     exists k, k <= length rest
       /\ K os' = (k =? length rest,
                   mkOstream (written os' ++ firstn k rest)
                             (negb (k =? length rest)))) ->
  exists k, k <= length (c ++ rest)
    /\ match Device.write_exact accept c os with
       | (false, os') => (false, os')
       | (true, os') => K os'
       end
       = (k =? length (c ++ rest),
          mkOstream (written os ++ firstn k (c ++ rest))
                    (negb (k =? length (c ++ rest)))).
Proof.
  intros Hos HK. unfold Device.write_exact, Device.write, os_ok.
  rewrite Hos. cbv zeta. cbn [os_fail].
  set (k0 := Nat.min (accept (written os) c) (length c)).
  assert (Hk0 : k0 <= length c) by apply Nat.le_min_r.
  destruct (k0 <? length c) eqn:E; cbn [negb].
  - apply Nat.ltb_lt in E. exists k0. rewrite length_app.
    split; [lia|].
    replace (k0 =? length c + length rest) with false
      by (symmetry; apply Nat.eqb_neq; lia).
    rewrite firstn_app.
    replace (k0 - length c) with 0 by lia.
    cbn [firstn negb]. now rewrite app_nil_r.
  - apply Nat.ltb_ge in E. assert (k0 = length c) as -> by lia.
    rewrite firstn_all.
    destruct (HK (mkOstream (written os ++ c) false) eq_refl)
      as (k & Hk & ->).
    exists (length c + k). rewrite length_app. split; [lia|].
    cbn [written].
    replace (length c + k =? length c + length rest) with (k =? length rest)
      by (destruct (Nat.eqb_spec k (length rest));
          symmetry; [apply Nat.eqb_eq | apply Nat.eqb_neq]; lia).
    now rewrite firstn_app_2, app_assoc.
Qed.

Lemma device_records big a ts : forall os,
  os_fail os = false ->
  exists k, k <= length (concat (map (fun t => Binary.encode_record big t a) ts))
    /\ Device.write_records accept big ts a os
       = (k =? length (concat (map (fun t => Binary.encode_record big t a) ts)),
          mkOstream
            (written os
             ++ firstn k (concat (map (fun t => Binary.encode_record big t a)
                                      ts)))
            (negb (k =? length (concat
                                  (map (fun t => Binary.encode_record big t a)
                                       ts))))).
Proof.
  induction ts as [|t ts IH]; intros os Hos.
  - exists 0. split; [reflexivity|]. cbn. rewrite app_nil_r.
    unfold os_ok. rewrite Hos. destruct os; cbn in *; now subst.
  - cbn [Device.write_records map concat].
    apply (device_write_then _ _ (Device.write_records accept big ts a) os Hos).
    exact IH.
Qed.

Lemma device_serialize big os m header a :
  os_fail os = false ->
  exists k, k <= length (file_image big m header a)
    /\ Device.serialize accept big os m header a
       = (k =? length (file_image big m header a),
          mkOstream (written os ++ firstn k (file_image big m header a))
                    (negb (k =? length (file_image big m header a)))).
Proof.
  intros Hos. unfold Device.serialize, file_image. cbv zeta.
  apply (device_write_then _ _
           (fun os1 =>
              match Device.write_exact accept
                      (Binary.store_le big 4
                         (Z.of_nat (length (tris m)) mod 2 ^ 32)%Z) os1 with
              | (false, os2) => (false, os2)
              | (true, os2) => Device.write_records accept big (tris m) a os2
              end) os Hos).
  intros os1 Hos1.
  apply (device_write_then _ _ (Device.write_records accept big (tris m) a)
           os1 Hos1).
  intros os2. apply device_records.
Qed.

Lemma device_serialize_failed big os m header a :
  os_fail os = true -> Device.serialize accept big os m header a = (false, os).
Proof.
  intros Hos. unfold Device.serialize.
  now rewrite device_write_failed.
Qed.

End DeviceWriter.

Lemma takes_all_write bs os : Device.write takes_all bs os = write bs os.
Proof.
  unfold Device.write, write, takes_all. cbv zeta.
  rewrite Nat.min_id, firstn_all, Nat.ltb_irrefl. reflexivity.
Qed.

Lemma takes_all_records big a ts : forall os,
  Device.write_records takes_all big ts a os = Binary.write_records big ts a os.
Proof.
  induction ts as [|t ts IH]; intros os; [reflexivity|].
  cbn [Device.write_records Binary.write_records].
  unfold Device.write_exact, Binary.write_exact. rewrite takes_all_write.
  destruct (os_ok _); [apply IH | reflexivity].
Qed.

Lemma takes_all_serialize big os m header a :
  Device.serialize takes_all big os m header a
  = Binary.serialize big os m header a.
Proof.
  unfold Device.serialize, Binary.serialize, Device.write_exact,
         Binary.write_exact.
  rewrite takes_all_write. destruct (os_ok _); [|reflexivity].
  cbv zeta. rewrite takes_all_write.
  destruct (os_ok _); [apply takes_all_records | reflexivity].
Qed.

Lemma file_image_length big m header a :
  length (file_image big m header a) = 84 + 50 * length (tris m).
Proof.
  unfold file_image.
  rewrite !length_app, header_bytes_length, store_le_length,
    concat_records_length. lia.
Qed.

(** X6: [Binary::serialize] over a device that may take fewer bytes than it
    is offered.  What has been written when it returns is a prefix of the
    file image (header, count and records in order, [84 + 50 * n] bytes for
    [n] triangles); it returns [true] exactly when the whole image was
    written, and [false] after the first write that falls short, leaving
    the stream failed.  On a stream that has already failed it returns
    [false] and writes nothing.  Over a device that takes every byte it is
    the serializer into a string buffer. *)
Theorem X6_binary_serialize_short_write :
  forall (accept : list byte -> list byte -> nat) (native_big : bool)
         (os : ostream) (m : Mesh) (header : string) (attribute_byte_count : Z),
    length (file_image native_big m header attribute_byte_count)
    = 84 + 50 * length (tris m)
    /\ (os_fail os = true ->
        Device.serialize accept native_big os m header attribute_byte_count
        = (false, os))
    /\ (os_fail os = false ->
        exists k,
          k <= length (file_image native_big m header attribute_byte_count)
          /\ Device.serialize accept native_big os m header
                              attribute_byte_count
             = (k =? length (file_image native_big m header
                                        attribute_byte_count),
                mkOstream
                  (written os
                   ++ firstn k (file_image native_big m header
                                           attribute_byte_count))
                  (negb (k =? length (file_image native_big m header
                                                 attribute_byte_count)))))
    /\ Device.serialize takes_all native_big os m header attribute_byte_count
       = Binary.serialize native_big os m header attribute_byte_count.
Proof.
  intros accept big os m header a.
  split; [apply file_image_length|].
  split; [apply device_serialize_failed|].
  split; [apply device_serialize | apply takes_all_serialize].
Qed.

(** A device with room for 100 bytes: the header, the count and the first
    16 bytes of the one record are written, and the result is [false]. *)
Lemma X6_binary_serialize_short_write_witness :
  Device.serialize (has_room 100) false open_ostream
    (mkMesh "m" [unit_triangle]) "h" 0%Z
  = (false,
     mkOstream (firstn 100 (file_image false (mkMesh "m" [unit_triangle])
                                       "h" 0%Z)) true)
  /\ exists k,
       k <= length (file_image false (mkMesh "m" [unit_triangle]) "h" 0%Z)
       /\ Device.serialize (has_room 100) false open_ostream
            (mkMesh "m" [unit_triangle]) "h" 0%Z
          = (k =? length (file_image false (mkMesh "m" [unit_triangle])
                                     "h" 0%Z),
             mkOstream
               (written open_ostream
                ++ firstn k (file_image false (mkMesh "m" [unit_triangle])
                                        "h" 0%Z))
               (negb (k =? length (file_image false
                                     (mkMesh "m" [unit_triangle]) "h" 0%Z)))).
Proof.
  split; [vm_compute; reflexivity|].
  apply (X6_binary_serialize_short_write (has_room 100) false open_ostream
           (mkMesh "m" [unit_triangle]) "h" 0%Z).
  reflexivity.
Defined.

Lemma strip_trailing_pad l p :
  Forall (fun c => Binary.header_pad c = true) p ->
  Binary.strip_trailing (l ++ p) = Binary.strip_trailing l.
Proof.
  intros Hp.
  assert (Hnil : Binary.strip_trailing p = []).
  { induction Hp as [|c p Hc _ IH]; cbn [Binary.strip_trailing];
      [reflexivity|]. now rewrite IH, Hc. }
  induction l as [|c l IH]; cbn [app Binary.strip_trailing];
    [exact Hnil | now rewrite IH].
Qed.

Lemma strip_trailing_clean l :
  ends_clean l = true -> Binary.strip_trailing l = l.
Proof.
  unfold ends_clean. induction l as [|c l IH]; [reflexivity|].
  cbn [rev Binary.strip_trailing]. intros H.
  destruct l as [|d l].
  - cbn in *. apply negb_true_iff in H. now rewrite H.
  - assert (Hl : Binary.strip_trailing (d :: l) = d :: l).
    { apply IH. cbn [rev] in *.
      destruct (rev l ++ [d]) eqn:E.
      - destruct (rev l); discriminate E.
      - exact H. }
    now rewrite Hl.
Qed.

Lemma list_of_string_length s :
  length (list_ascii_of_string s) = String.length s.
Proof. induction s as [|c s IH]; simpl; [reflexivity | now rewrite IH]. Qed.

(** X7: the mesh name read from a binary file is the header text cut to 80
    bytes with the trailing NUL, space, tab, CR and LF characters removed; a
    header text of at most 80 characters that does not end in one of them
    is read back unchanged. *)
Theorem X7_header_name_round_trip :
  forall (header : string),
    Binary.name_of_header (Binary.header_bytes header)
    = string_of_list_ascii
        (Binary.strip_trailing (firstn 80 (list_ascii_of_string header)))
    /\ (String.length header <= 80 ->
        ends_clean (list_ascii_of_string header) = true ->
        Binary.name_of_header (Binary.header_bytes header) = header).
Proof.
  intros header.
  assert (E : Binary.name_of_header (Binary.header_bytes header)
              = string_of_list_ascii
                  (Binary.strip_trailing
                     (firstn 80 (list_ascii_of_string header)))).
  { unfold Binary.name_of_header, Binary.header_bytes.
    rewrite strip_trailing_pad; [reflexivity|].
    apply Forall_forall. intros c Hc. apply repeat_spec in Hc. now subst c. }
  split; [exact E|].
  intros Hlen Hclean. rewrite E.
  rewrite firstn_all2 by (now rewrite list_of_string_length).
  rewrite strip_trailing_clean by assumption.
  apply string_of_list_ascii_of_string.
Qed.

Lemma X7_header_name_round_trip_witness :
  Binary.name_of_header (Binary.header_bytes "Header: bin test")
  = "Header: bin test"%string.
Proof.
  apply (proj2 (X7_header_name_round_trip "Header: bin test"));
    [vm_compute; lia | reflexivity].
Defined.

(* ------------------------------------------------------------------ *)
(** ** The normal policy of Mesh.h and the binary round trip *)

Lemma face_normal_vertices n t :
  face_normal (mkTriangle n (v0 t) (v1 t) (v2 t)) = face_normal t.
Proof.
  unfold face_normal, edge_cross. cbn [v0 v1 v2]. reflexivity.
Qed.

Lemma fill_normal_twice t : fill_normal (fill_normal t) = fill_normal t.
Proof.
  unfold fill_normal at 2 3.
  destruct (normal_missing (normal t)) eqn:E.
  - unfold fill_normal. cbn [normal v0 v1 v2].
    rewrite face_normal_vertices.
    destruct (normal_missing (face_normal t)); reflexivity.
  - unfold fill_normal. now rewrite E.
Qed.

(** X8: filling in a missing normal is idempotent: a triangle whose normal
    was completed (by a parser or a serializer) is left unchanged by a second
    completion, also when the computed face normal is itself below the
    threshold (degenerate triangle); and the completion never touches the
    vertices. *)
Theorem X8_fill_normal_idempotent :
  forall t : Triangle,
    fill_normal (fill_normal t) = fill_normal t
    /\ v0 (fill_normal t) = v0 t /\ v1 (fill_normal t) = v1 t
    /\ v2 (fill_normal t) = v2 t.
Proof.
  intros t. split; [apply fill_normal_twice|].
  unfold fill_normal. destruct (normal_missing (normal t)); auto.
Qed.

Lemma stored_encoded_any big cmn a t :
  wf_triangle (fill_normal t) ->
  stored big cmn (Binary.encode_record big t a) = fill_normal t.
Proof.
  intros Hwf. unfold stored. rewrite decode_encode_record by assumption.
  destruct cmn; [apply fill_normal_twice | reflexivity].
Qed.

(** X9: for every mesh with fewer than 2^32 triangles, parsing what the
    binary serializer wrote gives back the triangles in order with the same
    vertices and with every missing normal (absolute-value sum below
    [1e-20f]) replaced by the face normal, whatever the setting of
    [compute_missing_normals]: the reader's completion changes nothing after
    the writer's.  (The written components are assumed to be 32-bit
    patterns.) *)
Theorem X9_binary_round_trip_completes :
  forall (native_big compute_missing_normals : bool) (m : Mesh)
         (header : string) (attribute_byte_count : Z),
    Forall wf_triangle (map fill_normal (tris m)) ->
    (Z.of_nat (length (tris m)) < 2 ^ 32)%Z ->
    exists bytes,
      Binary.serialize native_big open_ostream m header attribute_byte_count
      = (true, mkOstream bytes false)
      /\ Binary.parse native_big (open_istream bytes) compute_missing_normals
         = value (mkMesh (Binary.name_of_header (Binary.header_bytes header))
                         (map fill_normal (tris m))).
Proof.
  intros big cmn m header a Hwf Hlen.
  eexists; split; [apply serialize_written|].
  assert (Hmap : map (stored big cmn)
                     (map (fun t => Binary.encode_record big t a) (tris m))
                 = map fill_normal (tris m)).
  { rewrite map_map. apply map_ext_in. intros t Ht.
    apply stored_encoded_any.
    rewrite Forall_forall in Hwf. apply Hwf. now apply in_map. }
  rewrite <- Hmap.
  apply parse_well_formed with (cnt := Binary.store_le big 4
           (Z.of_nat (length (tris m)) mod 2 ^ 32)) (rest := []).
  - reflexivity.
  - unfold remaining, open_istream; cbn [gpos buf skipn].
    now rewrite app_nil_r.
  - apply header_bytes_length.
  - apply store_le_length.
  - apply Forall_map, Forall_forall. intros t _. apply encode_record_length.
  - rewrite length_map, load_store_le, Z.mod_small; try lia.
    change (256 ^ Z.of_nat 4)%Z with (2 ^ 32)%Z.
    apply Z.mod_pos_bound. lia.
Qed.

Lemma X9_binary_round_trip_completes_witness :
  exists bytes,
    Binary.serialize false open_ostream (mkMesh "nfix" [zero_normal_triangle])
                     "nfix" 0%Z
    = (true, mkOstream bytes false)
    /\ Binary.parse false (open_istream bytes) false
       = value (mkMesh (Binary.name_of_header (Binary.header_bytes "nfix"))
                       (map fill_normal [zero_normal_triangle])).
Proof.
  apply (X9_binary_round_trip_completes false false
           (mkMesh "nfix" [zero_normal_triangle]) "nfix" 0%Z).
  - repeat constructor; vm_compute; congruence.
  - vm_compute. reflexivity.
Defined.

Lemma sub_self a : finite a = true -> F32.sub a a = 0%Z.
Proof.
  unfold finite, F32.sub, F32.lift2.
  destruct (F32.to_SF a) as [s|s| |s m e]; try discriminate; intros _.
  - destruct s; reflexivity.
  - cbn [SFsub]. rewrite Z.sub_diag. reflexivity.
Qed.

(** X10: a triangle whose three vertices coincide (with finite components)
    has the face normal [(0, 0, 0)] exactly: the zero-length guard returns
    the zero cross product, no NaN is produced; so a missing normal of such a
    triangle stays zero after completion. *)
Theorem X10_coincident_vertices :
  forall t : Triangle,
    v1 t = v0 t -> v2 t = v0 t -> finite_vec (v0 t) = true ->
    face_normal t = Vec3_zero
    /\ (normal_missing (normal t) = true ->
        normal (fill_normal t) = Vec3_zero).
Proof.
  intros t H1 H2 Hf.
  assert (E : face_normal t = Vec3_zero).
  { unfold face_normal, edge_cross, vsub. rewrite H1, H2.
    unfold finite_vec in Hf.
    apply andb_prop in Hf as [Hf Hz]. apply andb_prop in Hf as [Hx Hy].
    rewrite (sub_self _ Hx), (sub_self _ Hy), (sub_self _ Hz).
    reflexivity. }
  split; [exact E|].
  intros Hm. unfold fill_normal. rewrite Hm. exact E.
Qed.

Lemma X10_coincident_vertices_witness :
  face_normal (mkTriangle Vec3_zero (mkVec3 F32.one F32.one F32.one)
                          (mkVec3 F32.one F32.one F32.one)
                          (mkVec3 F32.one F32.one F32.one)) = Vec3_zero
  /\ (normal_missing Vec3_zero = true ->
      normal (fill_normal
                (mkTriangle Vec3_zero (mkVec3 F32.one F32.one F32.one)
                            (mkVec3 F32.one F32.one F32.one)
                            (mkVec3 F32.one F32.one F32.one))) = Vec3_zero).
Proof.
  apply (X10_coincident_vertices
           (mkTriangle Vec3_zero (mkVec3 F32.one F32.one F32.one)
                       (mkVec3 F32.one F32.one F32.one)
                       (mkVec3 F32.one F32.one F32.one)));
    reflexivity.
Defined.

(* ------------------------------------------------------------------ *)
(** ** The dispatcher of Parse.cpp on short and on failed streams *)

Lemma sniff_short s :
  good s = true -> length (remaining s) < 6 ->
  exists s', Auto.sniff s = (Auto.ToBinary, s')
             /\ (good s' = false \/ remaining s' = remaining s).
Proof.
  intros Hg Hlen. destruct (good_flags s Hg) as [He Hf].
  unfold Auto.sniff, tellg. rewrite Hg.
  rewrite read_short by assumption.
  replace (length (remaining s) =? 6) with false
    by (symmetry; apply Nat.eqb_neq; lia).
  cbn [andb]. unfold clear, seekg. cbn [buf gpos failbit eofbit].
  destruct (gpos s <=? length (buf s)); eexists; split; try reflexivity.
  - right. reflexivity.
  - left. reflexivity.
Qed.

(** X11: a good stream with fewer than six bytes left, an empty one
    included, is always routed to the binary parser and fails there on the
    header, even where the ASCII parser would accept the same text (the
    empty text, or ["solid"]). *)
Theorem X11_autodetect_short_stream :
  forall (native_big : bool) (from_chars : string -> option float)
         (s : istream) (compute_missing_normals : bool),
    good s = true -> length (remaining s) < 6 ->
    Auto.parse native_big from_chars s compute_missing_normals
    = unexpected "Binary STL: failed to read 80-byte header"%string.
Proof.
  intros big fc s cmn Hg Hlen.
  destruct (sniff_short s Hg Hlen) as (s' & Hs & Hs').
  unfold Auto.parse. rewrite Hs.
  apply parse_no_header.
  destruct Hs' as [H|H]; [now left | right; rewrite H; lia].
Qed.

Lemma X11_autodetect_short_stream_witness :
  Auto.parse false Ref.from_chars_fixed
    (open_istream (list_ascii_of_string "solid")) true
  = unexpected "Binary STL: failed to read 80-byte header"%string
  /\ ASCII.parse Ref.from_chars_fixed "solid" true = value (mkMesh "" []).
Proof.
  split; [|reflexivity].
  apply (X11_autodetect_short_stream false Ref.from_chars_fixed
           (open_istream (list_ascii_of_string "solid")) true);
    [reflexivity | vm_compute; lia].
Defined.

(** X12: a stream handed over in a state that is not good ([failbit] or
    [eofbit] set) is not probed at its position: [tellg] fails, position 0 is
    taken instead, the state is cleared, and the binary parser is run from
    the start of the buffer whatever the stream holds. *)
Theorem X12_autodetect_failed_stream :
  forall (native_big : bool) (from_chars : string -> option float)
         (s : istream) (compute_missing_normals : bool),
    good s = false ->
    Auto.sniff s = (Auto.ToBinary, mkIstream (buf s) 0 false false)
    /\ Auto.parse native_big from_chars s compute_missing_normals
       = Binary.parse native_big (open_istream (buf s)) compute_missing_normals.
Proof.
  intros big fc s cmn Hg.
  assert (E : Auto.sniff s = (Auto.ToBinary, mkIstream (buf s) 0 false false)).
  { unfold Auto.sniff, tellg, read. rewrite Hg.
    assert (Hg' : good (setstate_fail s) = false).
    { unfold good, setstate_fail. cbn. apply andb_false_r. }
    rewrite Hg'. reflexivity. }
  split; [exact E|]. unfold Auto.parse. rewrite E. reflexivity.
Qed.

Lemma X12_autodetect_failed_stream_witness :
  Auto.sniff (mkIstream (list_ascii_of_string "solid x") 3 true true)
  = (Auto.ToBinary, mkIstream (list_ascii_of_string "solid x") 0 false false)
  /\ Auto.parse false Ref.from_chars_fixed
       (mkIstream (list_ascii_of_string "solid x") 3 true true) true
     = Binary.parse false (open_istream (list_ascii_of_string "solid x")) true.
Proof.
  apply (X12_autodetect_failed_stream false Ref.from_chars_fixed
           (mkIstream (list_ascii_of_string "solid x") 3 true true) true).
  reflexivity.
Defined.

Lemma auto_parse_solid big fc cmn rest :
  Auto.parse big fc (open_istream (list_ascii_of_string "solid " ++ rest)) cmn
  = ASCII.parse fc (string_of_list_ascii (list_ascii_of_string "solid " ++ rest))
                cmn.
Proof.
  set (data := list_ascii_of_string "solid " ++ rest).
  assert (Hs : Auto.sniff (open_istream data) = (Auto.ToAscii, open_istream data)).
  { rewrite sniff_route; [reflexivity | reflexivity |].
    unfold data, remaining, open_istream. cbn [gpos buf skipn].
    rewrite length_app. cbn. lia. }
  unfold Auto.parse. rewrite Hs. reflexivity.
Qed.

(** X13: whatever begins with the six bytes ["solid "] is parsed as ASCII
    text from its first byte: the dispatcher agrees with the ASCII parser on
    every such text, and a binary file whose header text begins with
    ["solid "] is handed to the ASCII parser as well. *)
Theorem X13_autodetect_solid_prefix :
  forall (native_big : bool) (from_chars : string -> option float)
         (compute_missing_normals : bool),
    (forall rest : string,
        Auto.parse native_big from_chars
          (open_istream (list_ascii_of_string ("solid " ++ rest)))
          compute_missing_normals
        = ASCII.parse from_chars ("solid " ++ rest) compute_missing_normals)
    /\ (forall (m : Mesh) (rest : string) (a : Z),
        exists bytes,
          Binary.serialize native_big open_ostream m ("solid " ++ rest) a
          = (true, mkOstream bytes false)
          /\ Auto.parse native_big from_chars (open_istream bytes)
               compute_missing_normals
             = ASCII.parse from_chars (string_of_list_ascii bytes)
                           compute_missing_normals).
Proof.
  intros big fc cmn. split.
  - intros rest.
    change (list_ascii_of_string ("solid " ++ rest))
      with (list_ascii_of_string "solid " ++ list_ascii_of_string rest).
    rewrite auto_parse_solid.
    change (list_ascii_of_string "solid " ++ list_ascii_of_string rest)
      with (list_ascii_of_string ("solid " ++ rest)).
    now rewrite string_of_list_ascii_of_string.
  - intros m rest a. eexists. split; [apply serialize_written|].
    unfold Binary.header_bytes.
    change (list_ascii_of_string ("solid " ++ rest))
      with (list_ascii_of_string "solid " ++ list_ascii_of_string rest).
    change 80 with (6 + 74) at 1.
    cbn [firstn app list_ascii_of_string Nat.add].
    apply (auto_parse_solid big fc cmn).
Qed.

(* ------------------------------------------------------------------ *)
(** ** The ASCII line loop: line numbers and reachable states *)

Section LineLoop.

Variable from_chars : string -> option float.
Variable cmn : bool.

(** Case analysis along the conditionals at the head of [H], outermost
    first. *)
Ltac head_cases H :=
  repeat (cbv beta iota zeta in H;
          match type of H with
          | (if ?b then _ else _) = _ => destruct b eqn:?
          | (match ?x with _ => _ end) = _ => destruct x eqn:?
          end).

Ltac open_dispatch :=
  unfold ASCII.dispatch;
  cbn [ASCII.next_line ASCII.in_solid ASCII.line_no ASCII.phase
       ASCII.vertex_count ASCII.mesh ASCII.current].

Lemma body_line_no l st st' :
  ASCII.body from_chars cmn l st = ASCII.Continue st' ->
  ASCII.line_no st' = S (ASCII.line_no st).
Proof.
  rewrite body_tokens.
  destruct (tokens l) as [|t r] eqn:Et.
  - intros H. injection H as <-. reflexivity.
  - open_dispatch.
    generalize (ASCII.three_floats_from from_chars (t :: r) 2)
               (ASCII.three_floats_from from_chars (t :: r) 1).
    intros f2 f1 H. head_cases H; try discriminate H;
      injection H as <-; reflexivity.
Qed.

Lemma run_line_no ls : forall st st',
  ASCII.run from_chars cmn ls st = ASCII.Continue st' ->
  ASCII.line_no st' = length ls + ASCII.line_no st.
Proof.
  induction ls as [|l ls IH]; intros st st' H.
  - injection H as <-. reflexivity.
  - cbn [ASCII.run] in H.
    destruct (ASCII.body from_chars cmn l st) as [st1| |] eqn:E;
      try discriminate H.
    rewrite (IH _ _ H), (body_line_no _ _ _ E). cbn [length]. lia.
Qed.

Lemma body_return_line l st e :
  ASCII.body from_chars cmn l st = ASCII.Return e ->
  exists msg, e = ASCII.at_line (S (ASCII.line_no st)) msg.
Proof.
  rewrite body_tokens.
  destruct (tokens l) as [|t r] eqn:Et; [discriminate|].
  open_dispatch.
  generalize (ASCII.three_floats_from from_chars (t :: r) 2)
             (ASCII.three_floats_from from_chars (t :: r) 1).
  intros f2 f1 H. head_cases H; try discriminate H;
    injection H as <-; eexists; reflexivity.
Qed.

Lemma run_return ls : forall st e,
  ASCII.run from_chars cmn ls st = ASCII.Return e ->
  exists pre l post st',
    ls = pre ++ l :: post
    /\ ASCII.run from_chars cmn pre st = ASCII.Continue st'
    /\ ASCII.body from_chars cmn l st' = ASCII.Return e.
Proof.
  induction ls as [|l ls IH]; intros st e H; [discriminate|].
  cbn [ASCII.run] in H.
  destruct (ASCII.body from_chars cmn l st) as [st1|st1|e1] eqn:E.
  - destruct (IH _ _ H) as (pre & l' & post & st' & -> & Hr & Hb).
    exists (l :: pre), l', post, st'. cbn [app ASCII.run]. rewrite E. auto.
  - discriminate.
  - injection H as <-. exists [], l, ls, st. auto.
Qed.

End LineLoop.

(** X14: every error raised inside the line loop carries the 1-based number
    of the line it was raised on, blank lines counted: a failed ASCII parse
    returns either the end-of-input message or ["Line k: ..."] where line
    [k] is the first line that is not accepted. *)
Theorem X14_ascii_error_line_number :
  forall (from_chars : string -> option float) (compute_missing_normals : bool)
         (text e : string),
    ASCII.parse from_chars text compute_missing_normals = unexpected e ->
    e = "Unexpected EOF: unterminated facet/loop"%string
    \/ exists pre l post st msg,
         ASCII.lines text = pre ++ l :: post
         /\ ASCII.run from_chars compute_missing_normals pre ASCII.init
            = ASCII.Continue st
         /\ ASCII.body from_chars compute_missing_normals l st = ASCII.Return e
         /\ e = ASCII.at_line (S (length pre)) msg.
Proof.
  intros fc cmn text e H. unfold ASCII.parse in H.
  destruct (ASCII.run fc cmn (ASCII.lines text) ASCII.init) as [st|st|e1] eqn:E.
  - left. unfold ASCII.finish in H.
    destruct (_ && _); [|discriminate]. now injection H as <-.
  - left. unfold ASCII.finish in H.
    destruct (_ && _); [|discriminate]. now injection H as <-.
  - right. injection H as <-.
    destruct (run_return fc cmn _ _ _ E) as (pre & l & post & st & Hl & Hr & Hb).
    destruct (body_return_line fc cmn _ _ _ Hb) as (msg & Hm).
    exists pre, l, post, st, msg. repeat split; auto.
    rewrite Hm, (run_line_no fc cmn _ _ _ Hr). cbn [ASCII.init ASCII.line_no].
    now rewrite Nat.add_0_r.
Qed.

Lemma X14_ascii_error_line_number_witness :
  "Line 6: 'endloop' before three vertices"%string
  = "Unexpected EOF: unterminated facet/loop"%string
  \/ exists pre l post st msg,
       ASCII.lines two_vertex_text = pre ++ l :: post
       /\ ASCII.run Ref.from_chars_fixed true pre ASCII.init = ASCII.Continue st
       /\ ASCII.body Ref.from_chars_fixed true l st
          = ASCII.Return "Line 6: 'endloop' before three vertices"
       /\ "Line 6: 'endloop' before three vertices"%string
          = ASCII.at_line (S (length pre)) msg.
Proof.
  apply (X14_ascii_error_line_number Ref.from_chars_fixed true two_vertex_text).
  vm_compute. reflexivity.
Defined.

Section Reachable.

Variable from_chars : string -> option float.
Variable cmn : bool.

Ltac head_cases H :=
  repeat (cbv beta iota zeta in H;
          match type of H with
          | (if ?b then _ else _) = _ => destruct b eqn:?
          | (match ?x with _ => _ end) = _ => destruct x eqn:?
          end).

Lemma body_coherent l st st' :
  ASCII.body from_chars cmn l st = ASCII.Continue st' ->
  coherent st -> coherent st'.
Proof.
  rewrite body_tokens.
  destruct (tokens l) as [|t r] eqn:Et.
  - intros H. injection H as <-. destruct st; auto.
  - unfold ASCII.dispatch.
    cbn [ASCII.next_line ASCII.in_solid ASCII.line_no ASCII.phase
         ASCII.vertex_count ASCII.mesh ASCII.current].
    generalize (ASCII.three_floats_from from_chars (t :: r) 2)
               (ASCII.three_floats_from from_chars (t :: r) 1)
               (ASCII.name_of (t :: r))
               (length (t :: r) <? 2).
    repeat match goal with
           | |- context [ASCII.eq_ci ?a ?b] => generalize (ASCII.eq_ci a b)
           end.
    destruct st as [ms ins cur ph vc ln].
    unfold coherent.
    cbn [ASCII.in_solid ASCII.phase ASCII.vertex_count ASCII.mesh
         ASCII.current].
    generalize (if cmn then fill_normal cur else cur).
    intros tr.
    repeat match goal with |- forall _ : bool, _ => intro end.
    intros f2 f1 nm lt2 H Hc.
    head_cases H; try discriminate H; injection H as <-;
      cbn [ASCII.in_solid ASCII.phase ASCII.vertex_count ASCII.mesh
           ASCII.current ASCII.next_line];
      destruct ph; cbn [ASCII.Phase_eqb negb andb orb] in *;
      try discriminate;
      repeat match goal with
             | Hb : _ || _ = false |- _ => apply orb_false_iff in Hb as [? ?]
             | Hb : negb _ = false |- _ => apply negb_false_iff in Hb
             | Hb : (_ =? _) = true |- _ => apply Nat.eqb_eq in Hb
             end;
      subst;
      (split; [|intros; discriminate || tauto]);
      try tauto; try lia; intuition (try discriminate; try lia).
Qed.

Lemma run_coherent ls : forall st st',
  ASCII.run from_chars cmn ls st = ASCII.Continue st' ->
  coherent st -> coherent st'.
Proof.
  induction ls as [|l ls IH]; intros st st' H Hc.
  - now injection H as <-.
  - cbn [ASCII.run] in H.
    destruct (ASCII.body from_chars cmn l st) as [st1| |] eqn:E;
      try discriminate H.
    eauto using body_coherent.
Qed.

End Reachable.

(** X15: in every state the line loop reaches, the vertex counter is at most
    3 and goes with the phase: 0 in [in_loop], 1 in [have_v1], 2 or 3 in
    [have_v2], and 0 or 3 (left over from the last loop) in [idle] and
    [have_facet]; in the idle phase the facet under construction is the
    zero triangle, and before the [solid] line nothing has been stored. *)
Theorem X15_ascii_reachable_states :
  forall (from_chars : string -> option float) (compute_missing_normals : bool)
         (ls : list string) (st : ASCII.pstate),
    ASCII.run from_chars compute_missing_normals ls ASCII.init
    = ASCII.Continue st ->
    coherent st /\ ASCII.vertex_count st <= 3.
Proof.
  intros fc cmn ls st H.
  assert (Hc : coherent st).
  { apply (run_coherent fc cmn ls ASCII.init st H).
    unfold coherent. cbn. auto. }
  split; [exact Hc|].
  destruct Hc as [Hc _]. destruct (ASCII.phase st); intuition lia.
Qed.

Lemma X15_ascii_reachable_states_witness :
  exists st,
    ASCII.run Ref.from_chars_fixed true
      [ "solid s"; "facet normal 0 0 1"; "outer loop"; "vertex 0 0 0";
        "vertex 1 0 0"; "vertex 0 1 0"; "endloop"; "endfacet" ]%string
      ASCII.init
    = ASCII.Continue st
    /\ ASCII.phase st = ASCII.idle /\ ASCII.vertex_count st = 3
    /\ coherent st /\ ASCII.vertex_count st <= 3.
Proof.
  eexists. split; [vm_compute; reflexivity|].
  split; [reflexivity|]. split; [reflexivity|].
  apply (X15_ascii_reachable_states Ref.from_chars_fixed true
           [ "solid s"; "facet normal 0 0 1"; "outer loop"; "vertex 0 0 0";
             "vertex 1 0 0"; "vertex 0 1 0"; "endloop"; "endfacet" ]%string).
  vm_compute. reflexivity.
Defined.

(* ------------------------------------------------------------------ *)
(** ** The tokenizer of the ASCII reader *)

Lemma skip_front_idem s :
  ASCII.skip_front (ASCII.skip_front s) = ASCII.skip_front s.
Proof.
  induction s as [|c s IH]; simpl; [reflexivity|].
  destruct (ASCII.isspace c) eqn:E; [exact IH|]. simpl. now rewrite E.
Qed.

Lemma skip_back_empty s :
  ASCII.skip_back s = EmptyString <-> all_space s = true.
Proof.
  induction s as [|c s IH]; simpl; [tauto|].
  destruct (ASCII.skip_back s) eqn:E.
  - destruct (ASCII.isspace c); simpl; [tauto|].
    split; discriminate.
  - split; [discriminate|]. intros H. apply andb_prop in H as [_ H].
    apply IH in H. discriminate.
Qed.

Lemma skip_back_space c s :
  ASCII.isspace c = true ->
  ASCII.skip_back (String c s)
  = match ASCII.skip_back s with
    | EmptyString => EmptyString
    | r => String c r
    end.
Proof. intros H. simpl. rewrite H. reflexivity. Qed.

Lemma skip_back_nonspace c s :
  ASCII.isspace c = false ->
  ASCII.skip_back (String c s) = String c (ASCII.skip_back s).
Proof. intros H. simpl. rewrite H. destruct (ASCII.skip_back s); reflexivity. Qed.

Lemma skip_back_idem s :
  ASCII.skip_back (ASCII.skip_back s) = ASCII.skip_back s.
Proof.
  induction s as [|c s IH]; [reflexivity|].
  destruct (ASCII.isspace c) eqn:E.
  - rewrite (skip_back_space c s E).
    destruct (ASCII.skip_back s) as [|d r] eqn:Es; [reflexivity|].
    rewrite (skip_back_space c _ E), IH. reflexivity.
  - rewrite (skip_back_nonspace c s E), (skip_back_nonspace c _ E), IH.
    reflexivity.
Qed.

(** The two trimming loops commute. *)
Lemma skip_front_back s :
  ASCII.skip_front (ASCII.skip_back s) = ASCII.skip_back (ASCII.skip_front s).
Proof.
  induction s as [|c s IH]; [reflexivity|].
  destruct (ASCII.isspace c) eqn:E.
  - rewrite (skip_back_space c s E). cbn [ASCII.skip_front]. rewrite E, <- IH.
    destruct (ASCII.skip_back s) as [|d r]; [reflexivity|].
    cbn [ASCII.skip_front]. now rewrite E.
  - rewrite (skip_back_nonspace c s E). cbn [ASCII.skip_front]. rewrite E.
    now rewrite (skip_back_nonspace c s E).
Qed.

Lemma trim_sv_idem s : ASCII.trim_sv (ASCII.trim_sv s) = ASCII.trim_sv s.
Proof.
  unfold ASCII.trim_sv.
  now rewrite skip_front_back, skip_front_idem, skip_back_idem.
Qed.

Lemma tokens_tokenize s : tokens s = ASCII.tokenize_ws s.
Proof. unfold tokens, ASCII.tokenize_ws. now rewrite trim_sv_idem. Qed.

(** One iteration of the tokenizer loop, with the fuel out of the way. *)
Lemma tokenize_unfold s :
  ASCII.tokenize_loop (String.length s) s
  = if ASCII.empty (ASCII.skip_front s) then []
    else ASCII.token_front (ASCII.skip_front s)
         :: ASCII.tokenize_loop
              (String.length (ASCII.token_rest (ASCII.skip_front s)))
              (ASCII.token_rest (ASCII.skip_front s)).
Proof.
  destruct s as [|c s]; [reflexivity|].
  cbn [String.length ASCII.tokenize_loop ASCII.empty].
  destruct (ASCII.skip_front (String c s)) as [|d r] eqn:E; [reflexivity|].
  cbn [ASCII.empty]. f_equal.
  apply tokenize_loop_fuel; [|lia].
  pose proof (skip_front_length (String c s)) as Hl. rewrite E in Hl.
  pose proof (skip_front_head _ _ _ E) as Hd.
  cbn [ASCII.token_rest]. rewrite Hd.
  pose proof (token_rest_length r). cbn [String.length] in Hl. lia.
Qed.

Lemma no_space_skip_back w : forall t,
  no_space w = true ->
  ASCII.skip_back (w ++ t) = (w ++ ASCII.skip_back t)%string.
Proof.
  induction w as [|c w IH]; intros t H; [reflexivity|].
  simpl in H. apply andb_prop in H as [Hc Hw].
  apply negb_true_iff in Hc.
  cbn [append]. rewrite (skip_back_nonspace _ _ Hc), IH by exact Hw.
  reflexivity.
Qed.

Lemma word_skip_front w t :
  word w = true -> ASCII.skip_front (w ++ t) = (w ++ t)%string.
Proof.
  unfold word. destruct w as [|c w]; [discriminate|].
  simpl. intros H. apply andb_prop in H as [Hc _].
  apply negb_true_iff in Hc. now rewrite Hc.
Qed.

Lemma token_front_word w : forall c t,
  no_space w = true -> ASCII.isspace c = true ->
  ASCII.token_front (w ++ String c t) = w
  /\ ASCII.token_rest (w ++ String c t) = String c t.
Proof.
  induction w as [|d w IH]; intros c t H Hc.
  - simpl. now rewrite Hc.
  - simpl in H. apply andb_prop in H as [Hd Hw].
    apply negb_true_iff in Hd. simpl. rewrite Hd.
    destruct (IH c t Hw Hc) as [-> ->]. auto.
Qed.

Lemma token_front_whole w :
  no_space w = true ->
  ASCII.token_front w = w /\ ASCII.token_rest w = EmptyString.
Proof.
  induction w as [|d w IH]; intros H; [auto|].
  simpl in H. apply andb_prop in H as [Hd Hw].
  apply negb_true_iff in Hd. simpl. rewrite Hd.
  destruct (IH Hw) as [-> ->]. auto.
Qed.

Lemma empty_append w t : word w = true -> (w ++ t)%string <> EmptyString.
Proof. destruct w; [discriminate|]. discriminate. Qed.

Lemma word_not_empty w t : word w = true -> ASCII.empty (w ++ t) = false.
Proof. destruct w; [discriminate|]. reflexivity. Qed.

Lemma tokenize_word w :
  word w = true -> ASCII.tokenize_loop (String.length w) w = [w].
Proof.
  intros H.
  assert (Hn : no_space w = true) by (apply andb_prop in H; tauto).
  rewrite tokenize_unfold.
  pose proof (word_skip_front w EmptyString H) as Hs.
  rewrite append_empty_r in Hs. rewrite Hs.
  pose proof (word_not_empty w EmptyString H) as He.
  rewrite append_empty_r in He. rewrite He.
  destruct (token_front_whole w Hn) as [-> ->]. reflexivity.
Qed.

(** A line that is a single word. *)
Lemma tokens_word w : word w = true -> tokens w = [w].
Proof.
  intros H. rewrite tokens_tokenize. unfold ASCII.tokenize_ws, ASCII.trim_sv.
  assert (Hn : no_space w = true) by (apply andb_prop in H; tauto).
  pose proof (word_skip_front w EmptyString H) as Hs.
  rewrite append_empty_r in Hs. rewrite Hs.
  pose proof (no_space_skip_back w EmptyString Hn) as Hb.
  rewrite append_empty_r in Hb. cbn [ASCII.skip_back] in Hb.
  rewrite append_empty_r in Hb. rewrite Hb.
  now apply tokenize_word.
Qed.

(** A word, a whitespace character, and the rest of the line. *)
Lemma tokens_word_space w c s :
  word w = true -> ASCII.isspace c = true ->
  tokens (w ++ String c s) = w :: tokens s.
Proof.
  intros H Hc. rewrite !tokens_tokenize.
  unfold ASCII.tokenize_ws, ASCII.trim_sv.
  assert (Hn : no_space w = true) by (apply andb_prop in H; tauto).
  rewrite word_skip_front, no_space_skip_back by assumption.
  rewrite <- skip_front_back.
  rewrite (skip_back_space c s Hc).
  destruct (ASCII.skip_back s) as [|d r] eqn:Es.
  - rewrite append_empty_r. cbn [ASCII.skip_front String.length ASCII.tokenize_loop].
    now apply tokenize_word.
  - rewrite tokenize_unfold, word_skip_front, word_not_empty by assumption.
    destruct (token_front_word w c (String d r) Hn Hc) as [-> ->].
    f_equal. clear Es. generalize (String d r). intros u.
    rewrite tokenize_unfold. cbn [ASCII.skip_front]. rewrite Hc.
    rewrite (tokenize_unfold (ASCII.skip_front u)).
    now rewrite skip_front_idem.
Qed.

(** Whitespace in front of a line does not matter. *)
Lemma tokens_lead c s : ASCII.isspace c = true -> tokens (String c s) = tokens s.
Proof.
  intros Hc. unfold tokens, ASCII.trim_sv. cbn [ASCII.skip_front].
  now rewrite Hc.
Qed.

Lemma token_front_no_space s : no_space (ASCII.token_front s) = true.
Proof.
  induction s as [|c s IH]; simpl; [reflexivity|].
  destruct (ASCII.isspace c) eqn:E; simpl; [reflexivity|]. now rewrite E.
Qed.

Lemma tokenize_loop_words fuel : forall sv,
  Forall (fun t => word t = true) (ASCII.tokenize_loop fuel sv).
Proof.
  induction fuel as [|fuel IH]; intros sv; cbn [ASCII.tokenize_loop];
    [constructor|].
  destruct (ASCII.empty sv); [constructor|].
  destruct (ASCII.skip_front sv) as [|c r] eqn:E; cbn [ASCII.empty];
    [constructor|].
  constructor; [|apply IH].
  pose proof (skip_front_head _ _ _ E) as Hc.
  pose proof (token_front_no_space (String c r)) as Hn.
  unfold word. rewrite Hn. simpl. now rewrite Hc.
Qed.

Lemma join_from_cons t u r :
  ASCII.join_from (t :: u :: r)
  = (t ++ String " "%char (ASCII.join_from (u :: r)))%string.
Proof. reflexivity. Qed.

Lemma isspace_blank : ASCII.isspace " "%char = true.
Proof. reflexivity. Qed.

Lemma tokens_join ws :
  Forall (fun t => word t = true) ws -> tokens (ASCII.join_from ws) = ws.
Proof.
  induction ws as [|t r IH]; intros H; [reflexivity|].
  inversion H as [|? ? Ht Hr]; subst.
  destruct r as [|u r]; [now apply tokens_word|].
  rewrite join_from_cons, tokens_word_space by auto using isspace_blank.
  now rewrite IH.
Qed.

(** X16: the tokenizer of the ASCII reader returns words only: no token is
    empty and no token holds a whitespace character; and whitespace around
    the line does not change the tokens. *)
Theorem X16_tokens_are_words :
  forall s : string,
    Forall (fun t => word t = true) (ASCII.tokenize_ws s)
    /\ ASCII.tokenize_ws (ASCII.trim_sv s) = ASCII.tokenize_ws s
    /\ ASCII.trim_sv (ASCII.trim_sv s) = ASCII.trim_sv s.
Proof.
  intros s. split; [apply tokenize_loop_words|].
  split; [|apply trim_sv_idem].
  unfold ASCII.tokenize_ws. now rewrite trim_sv_idem.
Qed.

(** X17: words joined by single blanks, as [join_name] builds a mesh name,
    are split into the same words again by the tokenizer. *)
Theorem X17_tokenize_join :
  forall ws : list string,
    Forall (fun t => word t = true) ws ->
    ASCII.tokenize_ws (ASCII.join_name ws 0) = ws.
Proof.
  intros ws H. rewrite <- tokens_tokenize.
  unfold ASCII.join_name. cbn [skipn]. now apply tokens_join.
Qed.

Lemma X17_tokenize_join_witness :
  ASCII.tokenize_ws (ASCII.join_name ["sample"; "cube"; "v2"]%string 0)
  = ["sample"; "cube"; "v2"]%string.
Proof.
  apply (X17_tokenize_join ["sample"; "cube"; "v2"]%string).
  repeat constructor.
Defined.

(* ------------------------------------------------------------------ *)
(** ** The numbers on a [facet] or [vertex] line *)

Section Numbers.

Variable from_chars : string -> option float.
Variable cmn : bool.

Local Abbreviation body := (ASCII.body from_chars cmn).
Local Abbreviation run := (ASCII.run from_chars cmn).

Ltac other_keyword Ht :=
  repeat match goal with
  | |- context [ASCII.eq_ci ?t ?k] =>
      first [ rewrite Ht
            | rewrite (eq_ci_other t _ k Ht) by discriminate ]
  end.

Lemma tok_firstn n toks toks' i :
  firstn n toks' = firstn n toks -> i < n ->
  ASCII.tok toks' i = ASCII.tok toks i.
Proof.
  intros H Hi. unfold ASCII.tok.
  pose proof (nth_firstn n toks' i EmptyString) as H1.
  pose proof (nth_firstn n toks i EmptyString) as H2.
  apply Nat.ltb_lt in Hi. rewrite Hi in H1, H2.
  rewrite <- H1, <- H2, H. reflexivity.
Qed.

Lemma length_firstn_eq n (toks toks' : list string) :
  firstn n toks' = firstn n toks -> n <= length toks -> n <= length toks'.
Proof.
  intros H Hn. apply (f_equal (@length string)) in H.
  rewrite !length_firstn in H. lia.
Qed.

(** [three_floats_from] looks at the three tokens from [start] only. *)
Lemma three_floats_firstn toks toks' start :
  start + 3 <= length toks ->
  firstn (start + 3) toks' = firstn (start + 3) toks ->
  ASCII.three_floats_from from_chars toks' start
  = ASCII.three_floats_from from_chars toks start.
Proof.
  intros Hn H. pose proof (length_firstn_eq _ _ _ H Hn) as Hn'.
  unfold ASCII.three_floats_from.
  apply Nat.ltb_ge in Hn, Hn'. rewrite Hn, Hn'.
  rewrite !(tok_firstn _ _ _ _ H) by lia. reflexivity.
Qed.

Lemma same_numbers_same_outcome k n l l' st :
  (k = "vertex"%string /\ n = 4) \/ (k = "facet"%string /\ n = 5) ->
  keyword k l = true -> n <= length (tokens l) ->
  firstn n (tokens l') = firstn n (tokens l) ->
  body l' st = body l st.
Proof.
  intros Hk Hkw Hn H.
  pose proof (length_firstn_eq _ _ _ H Hn) as Hn'.
  destruct (keyword_tokens _ _ Hkw) as (t & r & Et & Ht).
  assert (H0 : ASCII.tok (tokens l') 0 = t).
  { rewrite (tok_firstn n _ _ 0 H), Et by (destruct Hk as [[_ ->]|[_ ->]]; lia).
    reflexivity. }
  assert (H1 : ASCII.tok (tokens l') 1 = ASCII.tok (tokens l) 1).
  { apply (tok_firstn n); [exact H|]. destruct Hk as [[_ ->]|[_ ->]]; lia. }
  rewrite !body_tokens.
  destruct (tokens l') as [|t' r'] eqn:Et';
    [destruct Hk as [[_ ->]|[_ ->]]; simpl in Hn'; lia|].
  cbn [ASCII.tok nth] in H0. subst t'.
  rewrite Et in *.
  unfold ASCII.dispatch.
  cbn [ASCII.next_line ASCII.in_solid ASCII.line_no ASCII.phase
       ASCII.vertex_count ASCII.mesh ASCII.current].
  change (ASCII.tok (t :: r') 0) with t.
  change (ASCII.tok (t :: r) 0) with t.
  destruct Hk as [[-> ->]|[-> ->]]; other_keyword Ht; cbn [negb].
  - rewrite (three_floats_firstn (t :: r) (t :: r') 1) by (auto; lia).
    reflexivity.
  - rewrite (three_floats_firstn (t :: r) (t :: r') 2) by (auto; lia).
    rewrite H1.
    replace (length (t :: r') <? 2) with false
      by (symmetry; apply Nat.ltb_ge; lia).
    replace (length (t :: r) <? 2) with false
      by (symmetry; apply Nat.ltb_ge; lia).
    reflexivity.
Qed.

End Numbers.

(** X18: whatever follows the third number on a [vertex] line, or on a
    [facet normal] line, is ignored: a line with the same first four tokens
    (five for [facet]) is handled in the same way in every state of the
    parser, be it accepted or refused. *)
Theorem X18_trailing_tokens_ignored :
  forall (from_chars : string -> option float) (compute_missing_normals : bool)
         (l l' : string) (st : ASCII.pstate),
    (keyword "vertex" l = true /\ 4 <= length (tokens l)
     /\ firstn 4 (tokens l') = firstn 4 (tokens l))
    \/ (keyword "facet" l = true /\ 5 <= length (tokens l)
        /\ firstn 5 (tokens l') = firstn 5 (tokens l)) ->
    ASCII.body from_chars compute_missing_normals l' st
    = ASCII.body from_chars compute_missing_normals l st.
Proof.
  intros fc cmn l l' st [(Hk & Hn & H)|(Hk & Hn & H)].
  - apply (same_numbers_same_outcome fc cmn "vertex" 4); auto.
  - apply (same_numbers_same_outcome fc cmn "facet" 5); auto.
Qed.

Lemma X18_trailing_tokens_ignored_witness :
  ASCII.body Ref.from_chars_fixed true "vertex 1 0 0 and more"
    (ASCII.mkState (mkMesh "s" []) true Triangle_zero ASCII.in_loop 0 3)
  = ASCII.body Ref.from_chars_fixed true "vertex 1 0 0"
      (ASCII.mkState (mkMesh "s" []) true Triangle_zero ASCII.in_loop 0 3).
Proof.
  apply (X18_trailing_tokens_ignored Ref.from_chars_fixed true
           "vertex 1 0 0" "vertex 1 0 0 and more").
  left. split; [reflexivity|]. split; [vm_compute; lia | reflexivity].
Defined.

(* ------------------------------------------------------------------ *)
(** ** The errors of the line loop *)

Section LineErrors.

Variable from_chars : string -> option float.
Variable cmn : bool.

Local Abbreviation body := (ASCII.body from_chars cmn).
Local Abbreviation run := (ASCII.run from_chars cmn).

Ltac other_keyword Ht :=
  repeat match goal with
  | |- context [ASCII.eq_ci ?t ?k] =>
      first [ rewrite Ht
            | rewrite (eq_ci_other t _ k Ht) by discriminate ]
  end.

Ltac enter_dispatch Hk Hin :=
  let t := fresh "t" in
  let r := fresh "r" in
  let Et := fresh "Et" in
  let Ht := fresh "Ht" in
  destruct (keyword_tokens _ _ Hk) as (t & r & Et & Ht);
  rewrite body_tokens; rewrite Et;
  unfold ASCII.dispatch; cbn [ASCII.next_line ASCII.in_solid ASCII.line_no
    ASCII.phase ASCII.vertex_count ASCII.mesh ASCII.current];
  rewrite Hin; cbn [negb];
  change (ASCII.tok (t :: r) 0) with t;
  other_keyword Ht; cbn [negb].

Lemma vertex_numbers l st :
  ASCII.in_solid st = true -> keyword "vertex" l = true ->
  in_a_loop (ASCII.phase st) = true ->
  body l st
  = match ASCII.three_floats_from from_chars (tokens l) 1 with
    | unexpected e => ASCII.Return (ASCII.at_line (S (ASCII.line_no st)) e)
    | value (a, b, c) =>
        match ASCII.vertex_count st with
        | 0 => ASCII.Continue
                 (ASCII.mkState (ASCII.mesh st) true
                    (ASCII.set_v0 (ASCII.current st) (mkVec3 a b c))
                    ASCII.have_v1 1 (S (ASCII.line_no st)))
        | 1 => ASCII.Continue
                 (ASCII.mkState (ASCII.mesh st) true
                    (ASCII.set_v1 (ASCII.current st) (mkVec3 a b c))
                    ASCII.have_v2 2 (S (ASCII.line_no st)))
        | 2 => ASCII.Continue
                 (ASCII.mkState (ASCII.mesh st) true
                    (ASCII.set_v2 (ASCII.current st) (mkVec3 a b c))
                    (ASCII.phase st) 3 (S (ASCII.line_no st)))
        | _ => ASCII.Return (ASCII.at_line (S (ASCII.line_no st))
                               "too many vertices in loop")
        end
    end.
Proof.
  intros Hin Hk Hp. enter_dispatch Hk Hin.
  replace (negb (ASCII.Phase_eqb (ASCII.phase st) ASCII.in_loop)
           && negb (ASCII.Phase_eqb (ASCII.phase st) ASCII.have_v1)
           && negb (ASCII.Phase_eqb (ASCII.phase st) ASCII.have_v2))
    with false
    by (unfold in_a_loop in Hp; destruct (ASCII.phase st);
        try discriminate Hp; reflexivity).
  reflexivity.
Qed.

Lemma three_floats_first_bad toks start k :
  start + 3 <= length toks -> k < 3 ->
  from_chars (ASCII.tok toks (start + k)) = None ->
  (forall j, j < k -> from_chars (ASCII.tok toks (start + j)) <> None) ->
  ASCII.three_floats_from from_chars toks start
  = unexpected ("Failed to parse number: '" ++ ASCII.tok toks (start + k)
                ++ "'").
Proof.
  intros Hn Hk Hbad Hgood. unfold ASCII.three_floats_from, ASCII.readf.
  apply Nat.ltb_ge in Hn. rewrite Hn.
  destruct k as [|[|[|k]]]; [| | |lia].
  - now rewrite Hbad.
  - pose proof (Hgood 0 ltac:(lia)) as H0.
    destruct (from_chars (ASCII.tok toks (start + 0))); [|congruence].
    now rewrite Hbad.
  - pose proof (Hgood 0 ltac:(lia)) as H0.
    pose proof (Hgood 1 ltac:(lia)) as H1.
    destruct (from_chars (ASCII.tok toks (start + 0))); [|congruence].
    destruct (from_chars (ASCII.tok toks (start + 1))); [|congruence].
    now rewrite Hbad.
Qed.

Lemma vertex_number_error l st :
  ASCII.in_solid st = true -> keyword "vertex" l = true ->
  in_a_loop (ASCII.phase st) = true ->
  (length (tokens l) < 4 ->
   body l st = ASCII.Return (ASCII.at_line (S (ASCII.line_no st))
                               "Expected three floats"))
  /\ (forall k, k < 3 -> 4 <= length (tokens l) ->
      from_chars (ASCII.tok (tokens l) (1 + k)) = None ->
      (forall j, j < k ->
                 from_chars (ASCII.tok (tokens l) (1 + j)) <> None) ->
      body l st
      = ASCII.Return
          (ASCII.at_line (S (ASCII.line_no st))
             ("Failed to parse number: '" ++ ASCII.tok (tokens l) (1 + k)
              ++ "'"))).
Proof.
  intros Hin Hk Hp. rewrite (vertex_numbers l st Hin Hk Hp). split.
  - intros Hn. unfold ASCII.three_floats_from.
    replace (length (tokens l) <? 1 + 3) with true
      by (symmetry; apply Nat.ltb_lt; lia).
    reflexivity.
  - intros k Hk3 Hn Hbad Hgood.
    now rewrite (three_floats_first_bad (tokens l) 1 k) by (auto; lia).
Qed.

Lemma unknown_tokens l :
  unknown_line l = true ->
  exists t r, tokens l = t :: r
    /\ Forall (fun k => ASCII.eq_ci t k = false) keywords.
Proof.
  unfold unknown_line, keyword.
  destruct (tokens l) as [|t r]; [discriminate|].
  cbn [is_nil negb andb]. intros H. exists t, r. split; [reflexivity|].
  rewrite forallb_forall in H. apply Forall_forall. intros k Hk.
  apply H in Hk. now apply negb_true_iff in Hk.
Qed.

Lemma structural_error l st msg :
  (ASCII.in_solid st = false /\ negb (is_nil (tokens l)) = true
   /\ keyword "solid" l = false /\ msg = "expected 'solid'"%string)
  \/ (ASCII.in_solid st = true /\ keyword "vertex" l = true
      /\ in_a_loop (ASCII.phase st) = false
      /\ msg = "'vertex' outside of loop"%string)
  \/ (ASCII.in_solid st = true /\ keyword "facet" l = true
      /\ (ASCII.phase st <> ASCII.idle
          \/ ASCII.eq_ci (ASCII.tok (tokens l) 1) "normal" = false)
      /\ msg = "'facet' where not expected"%string)
  \/ (ASCII.in_solid st = true /\ keyword "outer" l = true
      /\ ASCII.eq_ci (ASCII.tok (tokens l) 1) "loop" = false
      /\ msg = ("unexpected content: '" ++ ASCII.trim_sv l ++ "'")%string)
  \/ (ASCII.in_solid st = true /\ keyword "vertex" l = true
      /\ in_a_loop (ASCII.phase st) = true
      /\ (exists v, ASCII.three_floats_from from_chars (tokens l) 1 = value v)
      /\ 3 <= ASCII.vertex_count st
      /\ msg = "too many vertices in loop"%string)
  \/ (ASCII.in_solid st = true /\ outer_line l
      /\ ASCII.phase st <> ASCII.have_facet
      /\ msg = "'outer loop' without facet"%string)
  \/ (ASCII.in_solid st = true /\ keyword "endloop" l = true
      /\ ASCII.vertex_count st <> 3
      /\ msg = "'endloop' before three vertices"%string)
  \/ (ASCII.in_solid st = true /\ keyword "endfacet" l = true
      /\ (ASCII.vertex_count st <> 3 \/ ASCII.phase st <> ASCII.have_v2)
      /\ msg = "'endfacet' without complete triangle"%string)
  \/ (ASCII.in_solid st = true /\ unknown_line l = true
      /\ msg = ("unexpected content: '" ++ ASCII.trim_sv l ++ "'")%string) ->
  body l st = ASCII.Return (ASCII.at_line (S (ASCII.line_no st)) msg).
Proof.
  intros [(Hin & Hne & Hk & ->)|[(Hin & Hk & Hp & ->)|[(Hin & Hk & Hp & ->)
          |[(Hin & Hk & Hl & ->)|[(Hin & Hk & Hp & (v & Hf) & Hv & ->)
          |[(Hin & (Hk & Hl) & Hp & ->)|[(Hin & Hk & Hv & ->)
          |[(Hin & Hk & Hv & ->)|(Hin & Hu & ->)]]]]]]]].
  - rewrite body_tokens. unfold keyword in Hk.
    destruct (tokens l) as [|t r]; [discriminate Hne|].
    unfold ASCII.dispatch. cbn [ASCII.next_line ASCII.in_solid ASCII.line_no].
    rewrite Hin. cbn [negb]. change (ASCII.tok (t :: r) 0) with t.
    now rewrite Hk.
  - enter_dispatch Hk Hin.
    replace (negb (ASCII.Phase_eqb (ASCII.phase st) ASCII.in_loop)
             && negb (ASCII.Phase_eqb (ASCII.phase st) ASCII.have_v1)
             && negb (ASCII.Phase_eqb (ASCII.phase st) ASCII.have_v2))
      with true
      by (unfold in_a_loop in Hp; destruct (ASCII.phase st);
          try discriminate Hp; reflexivity).
    reflexivity.
  - enter_dispatch Hk Hin. rewrite Et in Hp.
    destruct ((length (t :: r) <? 2)
              || negb (ASCII.eq_ci (ASCII.tok (t :: r) 1) "normal")) eqn:E;
      [reflexivity|].
    apply orb_false_iff in E as [_ E]. apply negb_false_iff in E.
    destruct Hp as [Hp|Hp]; [|congruence].
    destruct (ASCII.phase st); try reflexivity. congruence.
  - enter_dispatch Hk Hin. rewrite Et in Hl. rewrite Hl, orb_true_r.
    reflexivity.
  - rewrite (vertex_numbers l st Hin Hk Hp), Hf.
    destruct v as [[a b] c].
    destruct (ASCII.vertex_count st) as [|[|[|n]]]; try lia. reflexivity.
  - enter_dispatch Hk Hin. rewrite Et in Hl. rewrite Hl.
    destruct r as [|t1 r]; [discriminate Hl|].
    cbn [length Nat.ltb Nat.leb orb negb].
    destruct (ASCII.phase st); try reflexivity. congruence.
  - enter_dispatch Hk Hin. apply Nat.eqb_neq in Hv. now rewrite Hv.
  - enter_dispatch Hk Hin.
    destruct (ASCII.vertex_count st =? 3) eqn:E; [|reflexivity].
    apply Nat.eqb_eq in E. destruct Hv as [Hv|Hv]; [congruence|].
    destruct (ASCII.phase st); try reflexivity. congruence.
  - destruct (unknown_tokens l Hu) as (t & r & Et & Hall).
    rewrite body_tokens, Et. unfold ASCII.dispatch.
    cbn [ASCII.next_line ASCII.in_solid ASCII.line_no].
    rewrite Hin. cbn [negb]. change (ASCII.tok (t :: r) 0) with t.
    unfold keywords in Hall.
    repeat match goal with
           | H : Forall _ (_ :: _) |- _ =>
               let Hh := fresh "Hh" in
               let Ht := fresh "Ht" in
               inversion H as [|? ? Hh Ht]; subst; clear H; rewrite ?Hh
           end.
    reflexivity.
Qed.

Lemma solid_rename l st :
  ASCII.in_solid st = true -> keyword "solid" l = true ->
  body l st
  = ASCII.Continue
      (ASCII.mkState (mkMesh (ASCII.name_of (tokens l)) (tris (ASCII.mesh st)))
         true (ASCII.current st) (ASCII.phase st) (ASCII.vertex_count st)
         (S (ASCII.line_no st))).
Proof. intros Hin Hk. enter_dispatch Hk Hin. reflexivity. Qed.

(** Any number of [endloop] lines after the third vertex. *)
Lemma endloops_run lls : forall st,
  ASCII.in_solid st = true -> ASCII.vertex_count st = 3 ->
  Forall (fun l => keyword "endloop" l = true) lls ->
  run lls st
  = ASCII.Continue
      (ASCII.mkState (ASCII.mesh st) (ASCII.in_solid st) (ASCII.current st)
         (ASCII.phase st) (ASCII.vertex_count st)
         (length lls + ASCII.line_no st)).
Proof.
  induction lls as [|l lls IH]; intros [ms ins cur ph vc ln] Hin Hv Hall;
    cbn [ASCII.in_solid ASCII.vertex_count] in Hin, Hv; subst ins vc.
  - reflexivity.
  - inversion Hall as [|? ? Hl Hls]; subst. cbn [ASCII.run].
    rewrite (endloop_step from_chars cmn l) by (reflexivity || assumption).
    cbn [ASCII.vertex_count Nat.eqb ASCII.next_line ASCII.mesh ASCII.in_solid
         ASCII.current ASCII.phase ASCII.line_no].
    rewrite IH by (reflexivity || assumption).
    cbn [ASCII.next_line ASCII.mesh ASCII.in_solid ASCII.current ASCII.phase
         ASCII.vertex_count ASCII.line_no length].
    rewrite Nat.add_succ_r. reflexivity.
Qed.

Lemma facet_block_endloops st lf lo la lb lc lls le n a b c :
  ASCII.in_solid st = true -> ASCII.phase st = ASCII.idle ->
  facet_line from_chars lf n -> outer_line lo ->
  vertex_line from_chars la a -> vertex_line from_chars lb b ->
  vertex_line from_chars lc c ->
  Forall (fun l => keyword "endloop" l = true) lls ->
  keyword "endfacet" le = true ->
  run ([lf; lo; la; lb; lc] ++ lls ++ [le]) st
  = ASCII.Continue
      (ASCII.mkState
         (mkMesh (name (ASCII.mesh st))
                 (tris (ASCII.mesh st)
                  ++ [completed cmn (mkTriangle n a b c)]))
         true Triangle_zero ASCII.idle 3
         (6 + length lls + ASCII.line_no st)).
Proof.
  intros Hin Hp Hf Ho Ha Hb Hc Hl He.
  rewrite run_app. cbn [ASCII.run].
  rewrite (facet_step from_chars cmn lf st n Hin Hp Hf).
  rewrite (outer_step from_chars cmn) by (reflexivity || assumption).
  rewrite (vertex_step from_chars cmn la _ a) by (auto || reflexivity).
  cbn [ASCII.vertex_count].
  rewrite (vertex_step from_chars cmn lb _ b) by (cbn; auto).
  cbn [ASCII.vertex_count].
  rewrite (vertex_step from_chars cmn lc _ c) by (cbn; auto).
  cbn [ASCII.vertex_count ASCII.phase].
  rewrite run_app, endloops_run by (reflexivity || assumption).
  cbn [ASCII.run ASCII.mesh ASCII.in_solid ASCII.current ASCII.phase
       ASCII.vertex_count ASCII.line_no].
  rewrite (endfacet_step from_chars cmn) by (reflexivity || assumption).
  cbn [ASCII.mesh ASCII.current ASCII.line_no ASCII.set_normal ASCII.set_v0
       ASCII.set_v1 ASCII.set_v2 normal v0 v1 v2 Triangle_zero].
  replace (S (length lls + S (S (S (S (S (ASCII.line_no st)))))))
    with (6 + length lls + ASCII.line_no st) by lia.
  reflexivity.
Qed.

End LineErrors.

(** X19: on a [vertex] line inside a loop the numbers are checked before the
    vertex counter: with fewer than three tokens after the keyword the line
    is refused with "Expected three floats", and otherwise with the first of
    the three tokens that [std::from_chars] does not read completely, the
    later ones not being looked at. *)
Theorem X19_vertex_number_errors :
  forall (from_chars : string -> option float) (compute_missing_normals : bool)
         (l : string) (st : ASCII.pstate),
    ASCII.in_solid st = true -> keyword "vertex" l = true ->
    in_a_loop (ASCII.phase st) = true ->
    (length (tokens l) < 4 ->
     ASCII.body from_chars compute_missing_normals l st
     = ASCII.Return (ASCII.at_line (S (ASCII.line_no st))
                       "Expected three floats"))
    /\ (forall k, k < 3 -> 4 <= length (tokens l) ->
        from_chars (ASCII.tok (tokens l) (1 + k)) = None ->
        (forall j, j < k ->
                   from_chars (ASCII.tok (tokens l) (1 + j)) <> None) ->
        ASCII.body from_chars compute_missing_normals l st
        = ASCII.Return
            (ASCII.at_line (S (ASCII.line_no st))
               ("Failed to parse number: '" ++ ASCII.tok (tokens l) (1 + k)
                ++ "'"))).
Proof. intros fc cmn l st. apply vertex_number_error. Qed.

Lemma X19_vertex_number_errors_witness :
  ASCII.body Ref.from_chars_fixed true "vertex 1 0Z 3x"
    (ASCII.mkState (mkMesh "s" []) true Triangle_zero ASCII.have_v2 3 5)
  = ASCII.Return "Line 6: Failed to parse number: '0Z'".
Proof.
  apply (proj2 (X19_vertex_number_errors Ref.from_chars_fixed true
                  "vertex 1 0Z 3x"
                  (ASCII.mkState (mkMesh "s" []) true Triangle_zero
                     ASCII.have_v2 3 5)
                  eq_refl eq_refl eq_refl) 1).
  - lia.
  - vm_compute. lia.
  - reflexivity.
  - intros j Hj. assert (j = 0) as -> by lia. vm_compute. discriminate.
Defined.

(** X20: the structural errors of the line loop.  Before the [solid] line
    every line with a token that is not [solid] is refused; inside the
    solid, a [vertex] outside a loop, a [facet] while a facet is open or
    without [normal] after it, an [outer] without [loop] after it, a fourth
    [vertex] in a loop, an [outer loop] without a facet line before it, an
    [endloop] while the counter is not 3, an [endfacet] without three
    vertices, and a line whose first token is no keyword are refused, each
    with its own message and the number of the line. *)
Theorem X20_structural_errors :
  forall (from_chars : string -> option float) (compute_missing_normals : bool)
         (l : string) (st : ASCII.pstate) (msg : string),
    (ASCII.in_solid st = false /\ negb (is_nil (tokens l)) = true
     /\ keyword "solid" l = false /\ msg = "expected 'solid'"%string)
    \/ (ASCII.in_solid st = true /\ keyword "vertex" l = true
        /\ in_a_loop (ASCII.phase st) = false
        /\ msg = "'vertex' outside of loop"%string)
    \/ (ASCII.in_solid st = true /\ keyword "facet" l = true
        /\ (ASCII.phase st <> ASCII.idle
            \/ ASCII.eq_ci (ASCII.tok (tokens l) 1) "normal" = false)
        /\ msg = "'facet' where not expected"%string)
    \/ (ASCII.in_solid st = true /\ keyword "outer" l = true
        /\ ASCII.eq_ci (ASCII.tok (tokens l) 1) "loop" = false
        /\ msg = ("unexpected content: '" ++ ASCII.trim_sv l ++ "'")%string)
    \/ (ASCII.in_solid st = true /\ keyword "vertex" l = true
        /\ in_a_loop (ASCII.phase st) = true
        /\ (exists v,
              ASCII.three_floats_from from_chars (tokens l) 1 = value v)
        /\ 3 <= ASCII.vertex_count st
        /\ msg = "too many vertices in loop"%string)
    \/ (ASCII.in_solid st = true /\ outer_line l
        /\ ASCII.phase st <> ASCII.have_facet
        /\ msg = "'outer loop' without facet"%string)
    \/ (ASCII.in_solid st = true /\ keyword "endloop" l = true
        /\ ASCII.vertex_count st <> 3
        /\ msg = "'endloop' before three vertices"%string)
    \/ (ASCII.in_solid st = true /\ keyword "endfacet" l = true
        /\ (ASCII.vertex_count st <> 3 \/ ASCII.phase st <> ASCII.have_v2)
        /\ msg = "'endfacet' without complete triangle"%string)
    \/ (ASCII.in_solid st = true /\ unknown_line l = true
        /\ msg = ("unexpected content: '" ++ ASCII.trim_sv l ++ "'")%string) ->
    ASCII.body from_chars compute_missing_normals l st
    = ASCII.Return (ASCII.at_line (S (ASCII.line_no st)) msg).
Proof. intros fc cmn l st msg. apply structural_error. Qed.

Lemma X20_structural_errors_witness :
  ASCII.body Ref.from_chars_fixed true "  nonsense here  "
    (ASCII.mkState (mkMesh "s" []) true Triangle_zero ASCII.idle 0 1)
  = ASCII.Return "Line 2: unexpected content: 'nonsense here'".
Proof.
  apply (X20_structural_errors Ref.from_chars_fixed true "  nonsense here  "
           (ASCII.mkState (mkMesh "s" []) true Triangle_zero ASCII.idle 0 1)
           "unexpected content: 'nonsense here'").
  do 8 right. split; [reflexivity|]. split; reflexivity.
Defined.

(** X21: the [endloop] line is optional and may be repeated: a facet block
    with any number of [endloop] lines (none included) between the third
    vertex and [endfacet] stores the same triangle. *)
Theorem X21_endloop_optional :
  forall (from_chars : string -> option float) (compute_missing_normals : bool)
         (st : ASCII.pstate) (lf lo la lb lc le : string) (lls : list string)
         (n a b c : Vec3),
    ASCII.in_solid st = true -> ASCII.phase st = ASCII.idle ->
    facet_line from_chars lf n -> outer_line lo ->
    vertex_line from_chars la a -> vertex_line from_chars lb b ->
    vertex_line from_chars lc c ->
    Forall (fun l => keyword "endloop" l = true) lls ->
    keyword "endfacet" le = true ->
    ASCII.run from_chars compute_missing_normals
      ([lf; lo; la; lb; lc] ++ lls ++ [le]) st
    = ASCII.Continue
        (ASCII.mkState
           (mkMesh (name (ASCII.mesh st))
                   (tris (ASCII.mesh st)
                    ++ [completed compute_missing_normals
                          (mkTriangle n a b c)]))
           true Triangle_zero ASCII.idle 3
           (6 + length lls + ASCII.line_no st)).
Proof.
  intros fc cmn st lf lo la lb lc le lls n a b c.
  apply facet_block_endloops.
Qed.

Lemma X21_endloop_optional_witness :
  ASCII.run Ref.from_chars_fixed true
    ([ "facet normal 0 0 1"; "outer loop"; "vertex 0 0 0"; "vertex 1 0 0";
       "vertex 0 1 0" ]%string ++ [] ++ [ "endfacet"%string ])%list
    (ASCII.mkState (mkMesh "s" []) true Triangle_zero ASCII.idle 0 1)
  = ASCII.Continue
      (ASCII.mkState (mkMesh "s" [unit_triangle]) true Triangle_zero
         ASCII.idle 3 7).
Proof.
  apply (X21_endloop_optional Ref.from_chars_fixed true
           (ASCII.mkState (mkMesh "s" []) true Triangle_zero ASCII.idle 0 1)
           "facet normal 0 0 1" "outer loop" "vertex 0 0 0" "vertex 1 0 0"
           "vertex 0 1 0" "endfacet" []
           (mkVec3 0 0 F32.one) (mkVec3 0 0 0) (mkVec3 F32.one 0 0)
           (mkVec3 0 F32.one 0))%Z;
    try reflexivity; try (repeat split; reflexivity); constructor.
Defined.

(** X22: a [solid] line inside the solid is accepted in every phase; it
    replaces the name of the mesh and changes nothing else: the triangles
    stored so far, the facet under construction, the phase and the vertex
    counter are kept. *)
Theorem X22_repeated_solid_renames :
  forall (from_chars : string -> option float) (compute_missing_normals : bool)
         (l : string) (st : ASCII.pstate),
    ASCII.in_solid st = true -> keyword "solid" l = true ->
    ASCII.body from_chars compute_missing_normals l st
    = ASCII.Continue
        (ASCII.mkState
           (mkMesh (ASCII.name_of (tokens l)) (tris (ASCII.mesh st)))
           true (ASCII.current st) (ASCII.phase st) (ASCII.vertex_count st)
           (S (ASCII.line_no st))).
Proof. intros fc cmn l st. apply solid_rename. Qed.

Lemma X22_repeated_solid_renames_witness :
  ASCII.body Ref.from_chars_fixed true "solid  other   name "
    (ASCII.mkState (mkMesh "s" [unit_triangle]) true Triangle_zero
       ASCII.in_loop 0 9)
  = ASCII.Continue
      (ASCII.mkState (mkMesh "other name" [unit_triangle]) true Triangle_zero
         ASCII.in_loop 0 10).
Proof.
  apply (X22_repeated_solid_renames Ref.from_chars_fixed true
           "solid  other   name "
           (ASCII.mkState (mkMesh "s" [unit_triangle]) true Triangle_zero
              ASCII.in_loop 0 9)); reflexivity.
Defined.

(* ------------------------------------------------------------------ *)
(** ** Writing a mesh as text and reading it again *)

Lemma no_space_no_newline s : no_space s = true -> no_newline s = true.
Proof.
  induction s as [|c s IH]; simpl; [reflexivity|].
  intros H. apply andb_prop in H as [Hc Hs]. rewrite (IH Hs), andb_true_r.
  destruct (Ascii.eqb c ASCII.nl_char) eqn:E; [|reflexivity].
  apply Ascii.eqb_eq in E. subst c. discriminate Hc.
Qed.

Lemma no_newline_app a b :
  no_newline (a ++ b) = no_newline a && no_newline b.
Proof.
  induction a as [|c a IH]; simpl; [reflexivity|].
  now rewrite IH, andb_assoc.
Qed.

Lemma split_nl_line l rest :
  no_newline l = true ->
  ASCII.split_nl (l ++ String ASCII.nl_char rest) = l :: ASCII.split_nl rest.
Proof.
  induction l as [|c l IH]; intros H.
  - cbn [append ASCII.split_nl]. now rewrite Ascii.eqb_refl.
  - simpl in H. apply andb_prop in H as [Hc Hl].
    apply negb_true_iff in Hc.
    cbn [append ASCII.split_nl]. rewrite Hc, (IH Hl). reflexivity.
Qed.

Lemma split_nl_one a rest :
  no_newline a = true ->
  ASCII.split_nl (a ++ (ASCII.nl ++ rest)) = a :: ASCII.split_nl rest.
Proof. intros H. now apply split_nl_line. Qed.

Lemma split_nl_two a b rest :
  no_newline a = true -> no_newline b = true ->
  ASCII.split_nl (a ++ (b ++ (ASCII.nl ++ rest)))
  = (a ++ b)%string :: ASCII.split_nl rest.
Proof.
  intros Ha Hb. rewrite <- append_assoc. apply split_nl_line.
  now rewrite no_newline_app, Ha, Hb.
Qed.

Lemma name_of_solid ws :
  ASCII.name_of ("solid"%string :: ws) = ASCII.join_name ws 0.
Proof. destruct ws as [|t r]; reflexivity. Qed.

Section RoundTrip.

Variable vformat_fixed : Z -> float -> string.
Variable from_chars : string -> option float.
Variable float_precision : Z.
Variable cmn : bool.

Local Abbreviation fmt3 := (ASCII.fmt3 vformat_fixed float_precision).
Local Abbreviation run := (ASCII.run from_chars cmn).
Local Abbreviation back :=
  (triangle_reads_back vformat_fixed from_chars float_precision).

Lemma fmt3_tokens v r :
  vec_reads_back vformat_fixed from_chars float_precision v r ->
  tokens (fmt3 v)
  = [ vformat_fixed float_precision (x v);
      vformat_fixed float_precision (y v);
      vformat_fixed float_precision (z v) ]
  /\ no_newline (fmt3 v) = true.
Proof.
  intros ((Wx & _) & (Wy & _) & (Wz & _)). unfold ASCII.fmt3. split.
  - change (?a ++ " " ++ ?b ++ " " ++ ?c)%string
      with (a ++ String " "%char (b ++ String " "%char c))%string.
    rewrite !tokens_word_space by auto using isspace_blank.
    now rewrite tokens_word.
  - rewrite !no_newline_app.
    apply andb_prop in Wx as [_ Wx]. apply andb_prop in Wy as [_ Wy].
    apply andb_prop in Wz as [_ Wz].
    rewrite (no_space_no_newline _ Wx), (no_space_no_newline _ Wy),
      (no_space_no_newline _ Wz).
    reflexivity.
Qed.

Lemma numbers_read toks v r :
  vec_reads_back vformat_fixed from_chars float_precision v r ->
  forall pre,
    toks = pre ++ [ vformat_fixed float_precision (x v);
                    vformat_fixed float_precision (y v);
                    vformat_fixed float_precision (z v) ] ->
    ASCII.three_floats_from from_chars toks (length pre)
    = value (x r, y r, z r).
Proof.
  intros ((_ & Rx) & (_ & Ry) & (_ & Rz)) pre ->.
  unfold ASCII.three_floats_from, ASCII.readf, ASCII.tok.
  replace (length (pre ++ _) <? length pre + 3) with false
    by (symmetry; apply Nat.ltb_ge; rewrite length_app; simpl; lia).
  rewrite !app_nth2_plus. cbn [nth]. now rewrite Rx, Ry, Rz.
Qed.

Lemma facet_line_written n r :
  vec_reads_back vformat_fixed from_chars float_precision n r ->
  facet_line from_chars ("  facet normal " ++ fmt3 n) r.
Proof.
  intros H. destruct (fmt3_tokens n r H) as [Ht _].
  assert (E : tokens ("  facet normal " ++ fmt3 n)
              = "facet"%string :: "normal"%string :: tokens (fmt3 n)).
  { change ("  facet normal " ++ fmt3 n)%string
      with (String " "%char (String " "%char
             ("facet" ++ String " "%char
                ("normal" ++ String " "%char (fmt3 n))))%string).
    rewrite !tokens_lead by reflexivity.
    now rewrite !tokens_word_space by reflexivity. }
  unfold facet_line, keyword. rewrite E, Ht.
  split; [reflexivity|]. split; [reflexivity|].
  apply (numbers_read _ n r H ["facet"; "normal"]%string). reflexivity.
Qed.

Lemma vertex_line_written v r :
  vec_reads_back vformat_fixed from_chars float_precision v r ->
  vertex_line from_chars ("      vertex " ++ fmt3 v) r.
Proof.
  intros H. destruct (fmt3_tokens v r H) as [Ht _].
  assert (E : tokens ("      vertex " ++ fmt3 v)
              = "vertex"%string :: tokens (fmt3 v)).
  { change ("      vertex " ++ fmt3 v)%string
      with (String " "%char (String " "%char (String " "%char
             (String " "%char (String " "%char (String " "%char
               ("vertex" ++ String " "%char (fmt3 v))))))))%string.
    rewrite !tokens_lead by reflexivity.
    now rewrite tokens_word_space by reflexivity. }
  unfold vertex_line, keyword. rewrite E, Ht.
  split; [reflexivity|].
  apply (numbers_read _ v r H ["vertex"]%string). reflexivity.
Qed.

Lemma block_run t r st :
  back t r -> ASCII.in_solid st = true -> ASCII.phase st = ASCII.idle ->
  run (facet_lines vformat_fixed float_precision (printed_normal t) t) st
  = ASCII.Continue
      (ASCII.mkState
         (mkMesh (name (ASCII.mesh st))
                 (tris (ASCII.mesh st) ++ [completed cmn r]))
         true Triangle_zero ASCII.idle 3 (7 + ASCII.line_no st)).
Proof.
  intros (Hn & Ha & Hb & Hc) Hin Hp. unfold facet_lines.
  rewrite (facet_block from_chars cmn st _ _ _ _ _ _ _
             (normal r) (v0 r) (v1 r) (v2 r) Hin Hp);
    [destruct r; reflexivity | | | | | | |];
    auto using facet_line_written, vertex_line_written;
    try reflexivity.
  split; reflexivity.
Qed.

Lemma blocks_run ts rs :
  Forall2 back ts rs ->
  forall st,
    ASCII.in_solid st = true -> ASCII.phase st = ASCII.idle ->
    exists st',
      run (flat_map (fun t => facet_lines vformat_fixed float_precision
                                          (printed_normal t) t) ts) st
      = ASCII.Continue st'
      /\ ASCII.in_solid st' = true /\ ASCII.phase st' = ASCII.idle
      /\ ASCII.mesh st'
         = mkMesh (name (ASCII.mesh st))
                  (tris (ASCII.mesh st) ++ map (completed cmn) rs).
Proof.
  induction 1 as [|t r ts rs Htr _ IH]; intros st Hin Hp.
  - exists st. cbn [flat_map ASCII.run map]. rewrite app_nil_r.
    destruct (ASCII.mesh st). auto.
  - cbn [flat_map map]. rewrite run_app, (block_run t r st Htr Hin Hp).
    match goal with
    | |- context [ASCII.run _ _ _ ?s] =>
        destruct (IH s eq_refl eq_refl) as (st' & Hrun & Hin' & Hp' & Hm)
    end.
    exists st'. rewrite Hrun, Hm. cbn [ASCII.mesh name tris].
    rewrite <- app_assoc. auto.
Qed.

Lemma facet_text_lines n t rest :
  no_newline (fmt3 n) = true -> no_newline (fmt3 (v0 t)) = true ->
  no_newline (fmt3 (v1 t)) = true -> no_newline (fmt3 (v2 t)) = true ->
  ASCII.split_nl (facet_text vformat_fixed float_precision n t ++ rest)
  = facet_lines vformat_fixed float_precision n t ++ ASCII.split_nl rest.
Proof.
  intros Hn Ha Hb Hc. unfold facet_text, facet_lines.
  repeat rewrite append_assoc.
  rewrite split_nl_two, split_nl_one by (assumption || reflexivity).
  rewrite !split_nl_two by (assumption || reflexivity).
  rewrite !split_nl_one by reflexivity.
  reflexivity.
Qed.

Lemma blocks_lines ts rs rest :
  Forall2 back ts rs ->
  ASCII.split_nl
    (join_text (map (fun t => facet_text vformat_fixed float_precision
                                         (printed_normal t) t) ts) ++ rest)
  = flat_map (fun t => facet_lines vformat_fixed float_precision
                                   (printed_normal t) t) ts
    ++ ASCII.split_nl rest.
Proof.
  induction 1 as [|t r ts rs (Hn & Ha & Hb & Hc) _ IH];
    cbn [map join_text flat_map]; [reflexivity|].
  rewrite append_assoc, facet_text_lines, IH, app_assoc;
    [reflexivity | | | |];
    match goal with
    | H : vec_reads_back _ _ _ ?v _ |- no_newline (fmt3 ?v) = true =>
        apply (fmt3_tokens _ _ H)
    end.
Qed.

Lemma serialize_text m :
  ASCII.serialize vformat_fixed float_precision m
  = ("solid " ++ (name m ++ (ASCII.nl
     ++ (join_text (map (fun t => facet_text vformat_fixed float_precision
                                             (printed_normal t) t) (tris m))
     ++ ("endsolid " ++ (name m ++ ASCII.nl))))))%string.
Proof.
  unfold ASCII.serialize. rewrite fold_emit_facet.
  cbn [String.append]. repeat rewrite append_assoc. reflexivity.
Qed.

Lemma lines_solid r :
  ASCII.lines ("solid " ++ r) = ASCII.split_nl ("solid " ++ r).
Proof. reflexivity. Qed.

Lemma serialize_lines m rs :
  no_newline (name m) = true -> Forall2 back (tris m) rs ->
  ASCII.lines (ASCII.serialize vformat_fixed float_precision m)
  = ("solid " ++ name m)%string
    :: flat_map (fun t => facet_lines vformat_fixed float_precision
                                      (printed_normal t) t) (tris m)
    ++ [("endsolid " ++ name m)%string; EmptyString].
Proof.
  intros Hname Hall. rewrite serialize_text, lines_solid.
  rewrite split_nl_two by (assumption || reflexivity).
  rewrite (blocks_lines _ rs) by assumption.
  do 2 f_equal.
  change (name m ++ ASCII.nl)%string
    with (name m ++ (ASCII.nl ++ EmptyString))%string.
  rewrite split_nl_two by (assumption || reflexivity).
  reflexivity.
Qed.

Lemma first_line nm :
  ASCII.body from_chars cmn ("solid " ++ nm) ASCII.init
  = ASCII.Continue
      (ASCII.mkState (mkMesh (ASCII.join_name (ASCII.tokenize_ws nm) 0) [])
         true Triangle_zero ASCII.idle 0 1).
Proof.
  rewrite body_tokens.
  change ("solid " ++ nm)%string with ("solid" ++ String " "%char nm)%string.
  rewrite tokens_word_space by reflexivity.
  unfold ASCII.dispatch.
  cbn [ASCII.next_line ASCII.init ASCII.in_solid ASCII.line_no ASCII.phase
       ASCII.vertex_count ASCII.mesh ASCII.current negb tris].
  change (ASCII.eq_ci (ASCII.tok ("solid"%string :: tokens nm) 0) "solid")
    with true.
  cbn [negb]. now rewrite name_of_solid, tokens_tokenize.
Qed.

Lemma last_line nm st :
  ASCII.in_solid st = true ->
  exists st', ASCII.body from_chars cmn ("endsolid " ++ nm) st = ASCII.Break st'
              /\ ASCII.in_solid st' = false
              /\ ASCII.mesh st' = ASCII.mesh st.
Proof.
  intros Hin. eexists. split; [apply (endsolid_step from_chars cmn _ _ Hin)|].
  - unfold keyword.
    change ("endsolid " ++ nm)%string
      with ("endsolid" ++ String " "%char nm)%string.
    now rewrite tokens_word_space by reflexivity.
  - split; reflexivity.
Qed.

Lemma parse_serialize m rs :
  no_newline (name m) = true -> Forall2 back (tris m) rs ->
  ASCII.parse from_chars (ASCII.serialize vformat_fixed float_precision m) cmn
  = value (mkMesh (ASCII.join_name (ASCII.tokenize_ws (name m)) 0)
                  (map (completed cmn) rs)).
Proof.
  intros Hname Hall. unfold ASCII.parse.
  rewrite (serialize_lines m rs Hname Hall).
  cbn [ASCII.run]. rewrite first_line, run_app.
  destruct (blocks_run (tris m) rs Hall
              (ASCII.mkState
                 (mkMesh (ASCII.join_name (ASCII.tokenize_ws (name m)) 0) [])
                 true Triangle_zero ASCII.idle 0 1) eq_refl eq_refl)
    as (st' & -> & Hin' & Hp' & Hm).
  cbn [ASCII.run].
  destruct (last_line (name m) st' Hin') as (st2 & -> & Hin2 & Hm2).
  unfold ASCII.finish. rewrite Hin2, Hm2, Hm. reflexivity.
Qed.

End RoundTrip.

(** X23: writing a mesh as text and reading the text again.  When the name
    holds no line break, and every number the writer prints is a word that
    [std::from_chars] reads back (as the number at the same place of the
    triangles [rs]), the reader accepts the text of the writer and returns
    the words of the name joined by single blanks and the triangles [rs],
    each with its normal completed under the reader's policy; the same holds
    through the stream overloads of the writer and the reader. *)
Theorem X23_ascii_round_trip :
  forall (vformat_fixed : Z -> float -> string)
         (from_chars : string -> option float) (float_precision : Z)
         (compute_missing_normals : bool) (m : Mesh) (rs : list Triangle),
    no_newline (name m) = true ->
    Forall2 (triangle_reads_back vformat_fixed from_chars float_precision)
            (tris m) rs ->
    ASCII.parse from_chars
      (ASCII.serialize vformat_fixed float_precision m) compute_missing_normals
    = value (mkMesh (ASCII.join_name (ASCII.tokenize_ws (name m)) 0)
                    (map (completed compute_missing_normals) rs))
    /\ exists os,
         AsciiStream.serialize vformat_fixed open_ostream m float_precision
         = (true, os)
         /\ ASCII.parse_stream from_chars (open_istream (written os))
              compute_missing_normals
            = value (mkMesh (ASCII.join_name (ASCII.tokenize_ws (name m)) 0)
                            (map (completed compute_missing_normals) rs)).
Proof.
  intros vf fc p cmn m rs Hname Hall.
  pose proof (parse_serialize vf fc p cmn m rs Hname Hall) as H.
  split; [exact H|].
  exists (mkOstream (list_ascii_of_string (ASCII.serialize vf p m)) false).
  split; [reflexivity|].
  unfold ASCII.parse_stream, drain, open_istream, remaining, good.
  cbn [written buf gpos eofbit failbit skipn negb andb].
  now rewrite string_of_list_ascii_of_string.
Qed.

Lemma X23_ascii_round_trip_witness :
  ASCII.parse Ref.from_chars_fixed
    (ASCII.serialize Ref.vformat_fixed 6 (mkMesh "rt" [unit_triangle])) true
  = value (mkMesh (ASCII.join_name (ASCII.tokenize_ws "rt") 0)
                  (map (completed true) [unit_triangle])).
Proof.
  apply (X23_ascii_round_trip Ref.vformat_fixed Ref.from_chars_fixed 6%Z true
           (mkMesh "rt" [unit_triangle]) [unit_triangle]).
  - reflexivity.
  - constructor; [|constructor].
    repeat split; vm_compute; reflexivity.
Defined.

(* ------------------------------------------------------------------ *)
(** ** Whitespace at the end of a line, and the stream reader *)

Lemma skip_back_trailing ws : forall s,
  all_space ws = true -> ASCII.skip_back (s ++ ws) = ASCII.skip_back s.
Proof.
  intros s H. induction s as [|c s IH].
  - cbn [append ASCII.skip_back]. now apply skip_back_empty.
  - cbn [append ASCII.skip_back]. now rewrite IH.
Qed.

Lemma skip_front_trailing ws : forall s,
  all_space ws = true ->
  ASCII.skip_back (ASCII.skip_front (s ++ ws))
  = ASCII.skip_back (ASCII.skip_front s).
Proof.
  intros s H. induction s as [|c s IH].
  - cbn [append]. rewrite (skip_front_all_space ws H). reflexivity.
  - cbn [append ASCII.skip_front]. destruct (ASCII.isspace c); [exact IH|].
    apply (skip_back_trailing ws (String c s) H).
Qed.

Lemma trim_trailing l ws :
  all_space ws = true -> ASCII.trim_sv (l ++ ws) = ASCII.trim_sv l.
Proof. intros H. unfold ASCII.trim_sv. now apply skip_front_trailing. Qed.

Lemma body_trailing fc cmn l ws st :
  all_space ws = true ->
  ASCII.body fc cmn (l ++ ws) st = ASCII.body fc cmn l st.
Proof. intros H. unfold ASCII.body. now rewrite trim_trailing. Qed.

Lemma run_trailing fc cmn ws ls : forall st,
  all_space ws = true ->
  ASCII.run fc cmn (map (fun l => l ++ ws)%string ls) st
  = ASCII.run fc cmn ls st.
Proof.
  induction ls as [|l ls IH]; intros st H; [reflexivity|].
  cbn [map ASCII.run]. rewrite body_trailing by exact H.
  destruct (ASCII.body fc cmn l st); auto.
Qed.

Lemma split_nl_text_of ls :
  Forall (fun l => no_newline l = true) ls ->
  ASCII.split_nl (text_of ls) = ls ++ [EmptyString].
Proof.
  induction 1 as [|l ls Hl _ IH]; [reflexivity|].
  cbn [text_of app]. now rewrite split_nl_one, IH.
Qed.

Lemma lines_text_of ls :
  Forall (fun l => no_newline l = true) ls ->
  ASCII.lines (text_of ls)
  = match ls with [] => [] | _ => ls ++ [EmptyString] end.
Proof.
  intros H. destruct ls as [|l ls]; [reflexivity|].
  rewrite <- (split_nl_text_of _ H). unfold ASCII.lines.
  cbn [text_of]. destruct l; reflexivity.
Qed.

(** X24: the line loop does not see whitespace at the end of a line, so a
    text whose lines end in carriage return and line feed is read exactly as
    the same text with line feeds only: same mesh, or same error with the
    same line number. *)
Theorem X24_crlf_line_ends :
  forall (from_chars : string -> option float) (compute_missing_normals : bool)
         (ls : list string),
    Forall (fun l => no_newline l = true) ls ->
    ASCII.parse from_chars (text_of (map (fun l => l ++ cr)%string ls))
      compute_missing_normals
    = ASCII.parse from_chars (text_of ls) compute_missing_normals.
Proof.
  intros fc cmn ls H. unfold ASCII.parse.
  assert (H' : Forall (fun l => no_newline l = true)
                      (map (fun l => l ++ cr)%string ls)).
  { apply Forall_map. revert H. apply Forall_impl. intros l Hl.
    now rewrite no_newline_app, Hl. }
  rewrite (lines_text_of _ H), (lines_text_of _ H').
  destruct ls as [|l ls]; [reflexivity|].
  cbn [map]. change ((l ++ cr)%string :: map (fun l0 => (l0 ++ cr)%string) ls)
    with (map (fun l0 => (l0 ++ cr)%string) (l :: ls)).
  rewrite !run_app, run_trailing by reflexivity. reflexivity.
Qed.

Lemma X24_crlf_line_ends_witness :
  ASCII.parse Ref.from_chars_fixed
    (text_of (map (fun l => l ++ cr)%string
                [ "solid s"; "facet normal 0 0 1"; "outer loop";
                  "vertex 0 0 0"; "vertex 1 0 0"; "vertex 0 1 0"; "endloop";
                  "endfacet"; "endsolid s" ]%string)) true
  = ASCII.parse Ref.from_chars_fixed
      (text_of [ "solid s"; "facet normal 0 0 1"; "outer loop";
                 "vertex 0 0 0"; "vertex 1 0 0"; "vertex 0 1 0"; "endloop";
                 "endfacet"; "endsolid s" ]%string) true.
Proof.
  apply (X24_crlf_line_ends Ref.from_chars_fixed true
           [ "solid s"; "facet normal 0 0 1"; "outer loop";
             "vertex 0 0 0"; "vertex 1 0 0"; "vertex 0 1 0"; "endloop";
             "endfacet"; "endsolid s" ]%string).
  repeat constructor.
Defined.

Lemma skipn_all_nil {A} (l : list A) n : length l <= n -> skipn n l = [].
Proof. intros H. now apply skipn_all2. Qed.

(** X25: the stream reader refuses a stream only when [failbit] is set and
    [eofbit] is not, with "I/O error while reading stream"; in every other
    state it reads the bytes from the get position to the end, so that a
    stream with nothing left to read gives the empty mesh and no error. *)
Theorem X25_ascii_stream_state :
  forall (from_chars : string -> option float) (s : istream)
         (compute_missing_normals : bool),
    ASCII.parse_stream from_chars s compute_missing_normals
    = (if failbit s && negb (eofbit s)
       then unexpected "I/O error while reading stream"%string
       else ASCII.parse from_chars (string_of_list_ascii (remaining s))
              compute_missing_normals)
    /\ (failbit s && negb (eofbit s) = false ->
        length (buf s) <= gpos s ->
        ASCII.parse_stream from_chars s compute_missing_normals
        = value (mkMesh "" [])).
Proof.
  intros fc s cmn.
  assert (E : ASCII.parse_stream fc s cmn
              = if failbit s && negb (eofbit s)
                then unexpected "I/O error while reading stream"%string
                else ASCII.parse fc (string_of_list_ascii (remaining s)) cmn).
  { unfold ASCII.parse_stream, drain, good. cbn [eofbit failbit].
    destruct (eofbit s), (failbit s); reflexivity. }
  split; [exact E|].
  intros Hf Hn. rewrite E, Hf. unfold remaining.
  rewrite skipn_all_nil by exact Hn. reflexivity.
Qed.

Lemma X25_ascii_stream_state_witness :
  ASCII.parse_stream Ref.from_chars_fixed
    (mkIstream (list_ascii_of_string "solid s") 7 true true) true
  = value (mkMesh "" []).
Proof.
  apply (X25_ascii_stream_state Ref.from_chars_fixed
           (mkIstream (list_ascii_of_string "solid s") 7 true true) true).
  - reflexivity.
  - vm_compute. lia.
Defined.

(* ------------------------------------------------------------------ *)
(** ** The messages of the line loop *)

Section Catalogue.

Variable from_chars : string -> option float.
Variable cmn : bool.

Ltac head_cases H :=
  repeat (cbv beta iota zeta in H;
          match type of H with
          | (if ?b then _ else _) = _ => destruct b eqn:?
          | (match ?x with _ => _ end) = _ => destruct x eqn:?
          end).

Lemma readf_error t e :
  ASCII.readf from_chars t = unexpected e ->
  from_chars t = None /\ e = ("Failed to parse number: '" ++ t ++ "'")%string.
Proof.
  unfold ASCII.readf. destruct (from_chars t); [discriminate|].
  intros H. injection H as <-. auto.
Qed.

Lemma three_floats_error toks start e :
  ASCII.three_floats_from from_chars toks start = unexpected e ->
  e = "Expected three floats"%string
  \/ exists t, In t toks /\ from_chars t = None
               /\ e = ("Failed to parse number: '" ++ t ++ "'")%string.
Proof.
  unfold ASCII.three_floats_from.
  destruct (length toks <? start + 3) eqn:E.
  - intros H. injection H as <-. now left.
  - apply Nat.ltb_ge in E. intros H. right.
    assert (Hin : forall i, i < 3 -> In (ASCII.tok toks (start + i)) toks)
      by (intros i Hi; apply nth_In; lia).
    destruct (ASCII.readf from_chars (ASCII.tok toks (start + 0))) eqn:E0.
    2: { injection H as <-. apply readf_error in E0 as [? ?].
         eexists. split; [apply (Hin 0); lia | auto]. }
    destruct (ASCII.readf from_chars (ASCII.tok toks (start + 1))) eqn:E1.
    2: { injection H as <-. apply readf_error in E1 as [? ?].
         eexists. split; [apply (Hin 1); lia | auto]. }
    destruct (ASCII.readf from_chars (ASCII.tok toks (start + 2))) eqn:E2;
      [discriminate|].
    injection H as <-. apply readf_error in E2 as [? ?].
    eexists. split; [apply (Hin 2); lia | auto].
Qed.

Lemma body_error l st e :
  ASCII.body from_chars cmn l st = ASCII.Return e ->
  exists msg,
    e = ASCII.at_line (S (ASCII.line_no st)) msg
    /\ (In msg fixed_messages
        \/ msg = ("unexpected content: '" ++ ASCII.trim_sv l ++ "'")%string
        \/ exists t, In t (tokens l) /\ from_chars t = None
                     /\ msg = ("Failed to parse number: '" ++ t ++ "'")%string).
Proof.
  rewrite body_tokens.
  destruct (tokens l) as [|t r] eqn:Et; [discriminate|].
  unfold ASCII.dispatch.
  cbn [ASCII.next_line ASCII.in_solid ASCII.line_no ASCII.phase
       ASCII.vertex_count ASCII.mesh ASCII.current].
  generalize (three_floats_error (t :: r) 2) (three_floats_error (t :: r) 1).
  generalize (ASCII.three_floats_from from_chars (t :: r) 2)
             (ASCII.three_floats_from from_chars (t :: r) 1)
             (length (t :: r) <? 2).
  repeat match goal with
         | |- context [ASCII.eq_ci ?a ?b] => generalize (ASCII.eq_ci a b)
         end.
  intros.
  match goal with
  | H : _ = ASCII.Return e |- _ =>
      head_cases H; try discriminate H; injection H as <-
  end;
    eexists; (split; [reflexivity|]);
    first [ left; cbv [fixed_messages In]; tauto
          | right; left; reflexivity
          | match goal with
            | E : forall e0, unexpected ?s = unexpected e0 -> _ |- _ =>
                destruct (E s eq_refl) as [->|(t0 & ? & ? & ->)];
                [ left; cbv [fixed_messages In]; tauto
                | right; right; eauto ]
            end ].
Qed.

End Catalogue.

(** X26: the messages of the line loop.  Whenever a line is refused, the
    error is ["Line k: "] with the number of that line, followed by one of
    eight fixed messages, or by ["unexpected content: '...'"] with the
    trimmed line, or by ["Failed to parse number: '...'"] with a token of
    the line that [std::from_chars] does not read. *)
Theorem X26_line_error_messages :
  forall (from_chars : string -> option float) (compute_missing_normals : bool)
         (l : string) (st : ASCII.pstate) (e : string),
    ASCII.body from_chars compute_missing_normals l st = ASCII.Return e ->
    exists msg,
      e = ASCII.at_line (S (ASCII.line_no st)) msg
      /\ (In msg fixed_messages
          \/ msg = ("unexpected content: '" ++ ASCII.trim_sv l ++ "'")%string
          \/ exists t, In t (tokens l) /\ from_chars t = None
                       /\ msg = ("Failed to parse number: '" ++ t
                                 ++ "'")%string).
Proof. intros fc cmn l st e. apply body_error. Qed.

Lemma X26_line_error_messages_witness :
  exists msg,
    "Line 3: Failed to parse number: '0Z'"%string
    = ASCII.at_line
        (S (ASCII.line_no
              (ASCII.mkState (mkMesh "s" []) true Triangle_zero ASCII.idle 0 2)))
        msg
    /\ (In msg fixed_messages
        \/ msg = ("unexpected content: '"
                  ++ ASCII.trim_sv "facet normal 0 0Z 1" ++ "'")%string
        \/ exists t, In t (tokens "facet normal 0 0Z 1")
                     /\ Ref.from_chars_fixed t = None
                     /\ msg = ("Failed to parse number: '" ++ t ++ "'")%string).
Proof.
  apply (X26_line_error_messages Ref.from_chars_fixed true
           "facet normal 0 0Z 1"
           (ASCII.mkState (mkMesh "s" []) true Triangle_zero ASCII.idle 0 2)).
  vm_compute. reflexivity.
Defined.
